(** * Mini-games: the round/session engine and the leaderboard store

    A shallow embedding of the game logic of the three mini-games
    ([games/number_rush.py], [games/color_blast.py],
    [games/memory_match.py]) and of the score store
    ([utils/scoreboard.py]), followed by the properties proved about them.

    Python objects are records, attribute updates are record updates, and a
    method is a computation in a state-and-exception monad over the object it
    is called on: an exception leaves the mutations made before it in place,
    exactly as in Python.  Widget rendering is not modelled, except for the
    one fact that decides behaviour: a call on a destroyed widget raises
    [TclError]. *)

From Stdlib Require Import ZArith Lia Bool.
From Stdlib Require Import Sorting.Sorted Sorting.Permutation.
From Stdlib Require Import Floats.SpecFloat.
From stdpp Require Import base option list strings gmap.

Local Open Scope Z_scope.

(** ** Python control flow: state plus exceptions *)

Module Py.

Inductive exn : Set :=
| ZeroDivisionError
| OverflowError
| ValueError
| IndexError
| KeyError
| OSError
| JSONDecodeError
| TclError.

Inductive outcome (A : Type) : Type :=
| Returned (a : A)
| Raised (e : exn).
Arguments Returned {A} a.
Arguments Raised {A} e.

(** A method body over an object of type [S]. *)
Definition M (S A : Type) : Type := S -> S * outcome A.

Definition ret {S A} (a : A) : M S A := fun s => (s, Returned a).

Definition raise {S A} (e : exn) : M S A := fun s => (s, Raised e).

Definition bind {S A B} (m : M S A) (k : A -> M S B) : M S B :=
  fun s =>
    match m s with
    | (s', Returned a) => k a s'
    | (s', Raised e) => (s', Raised e)
    end.

Definition get {S} : M S S := fun s => (s, Returned s).

Definition modify {S} (f : S -> S) : M S unit := fun s => (f s, Returned tt).

(** [try: body except Exception: handler] *)
Definition try_except {S A} (body : M S A) (handler : exn -> M S A) : M S A :=
  fun s =>
    match body s with
    | (s', Returned a) => (s', Returned a)
    | (s', Raised e) => handler e s'
    end.

(** [try: body except tk.TclError: handler]; other exceptions propagate. *)
Definition try_except_TclError {S A} (body : M S A) (handler : M S A) : M S A :=
  fun s =>
    match body s with
    | (s', Raised TclError) => handler s'
    | r => r
    end.

(** [for x in xs: body x] *)
Fixpoint for_each {S A} (xs : list A) (body : A -> M S unit) : M S unit :=
  match xs with
  | [] => ret tt
  | x :: xs' => bind (body x) (fun _ => for_each xs' body)
  end.

(** A series of callbacks run by the event loop, which reports an
    exception of one and goes on with the next. *)
Definition run_all {S} (ms : list (M S unit)) (s : S) : S :=
  foldl (fun s m => fst (m s)) s ms.

Definition state_of {S A} (r : S * outcome A) : S := fst r.
Definition result_of {S A} (r : S * outcome A) : outcome A := snd r.

(** [m] leaves the part of the object that [view] looks at as it was,
    whether it returns or raises. *)
Definition keeps {S T A} (view : S -> T) (m : M S A) : Prop :=
  forall s, view (state_of (m s)) = view s.

(** [l[:n]] for a Python integer [n]: a negative bound counts from the end. *)
Definition slice_to {A} (n : Z) (l : list A) : list A :=
  if 0 <=? n then take (Z.to_nat n) l
  else take (length l - Z.to_nat (- n))%nat l.

(** [x // y] on Python integers, for a non-zero [y], rounds to minus
    infinity and so does [Z.div]. *)
Definition floordiv (x y : Z) : Z := x `div` y.

(** [l[k]] for an index that is never negative. *)
Definition getitem {S A} (l : list A) (k : nat) : M S A :=
  match l !! k with
  | Some x => ret x
  | None => raise IndexError
  end.

(** [enumerate(l)] *)
Definition enumerate {A} (l : list A) : list (nat * A) :=
  zip (seq 0 (length l)) l.

(** [list(range(1, n + 1))] *)
Definition range_from_1 (n : Z) : list Z :=
  map Z.of_nat (seq 1 (Z.to_nat n)).

(** Python floats are IEEE 754 binary64 values. *)
Definition float : Set := spec_float.

Definition float_sub (x y : float) : float := SFsub 53 1024 x y.

(** [float(z)] for an integer that fits; it is exact up to [2^53]. *)
Definition float_of_int (z : Z) : float := binary_normalize 53 1024 z 0 false.

(** [x / y] on floats. *)
Definition truediv {S} (x y : float) : M S float :=
  match y with
  | S754_zero _ => raise ZeroDivisionError
  | _ => ret (SFdiv 53 1024 x y)
  end.

(** [int(x)] for a float: truncation towards zero. *)
Definition int_of_float {S} (x : float) : M S Z :=
  match x with
  | S754_nan => raise ValueError
  | S754_infinity _ => raise OverflowError
  | S754_zero _ => ret 0
  | S754_finite s m e => ret (cond_Zopp s (Z.shiftl (Z.pos m) e))
  end.

(** The mathematical floor of a finite float, [None] for the others. *)
Definition floor_of_float (x : float) : option Z :=
  match x with
  | S754_nan | S754_infinity _ => None
  | S754_zero _ => Some 0
  | S754_finite false m e => Some (Z.shiftl (Z.pos m) e)
  | S754_finite true m e => Some (Z.shiftl (Z.neg m) e)
  end.

Definition float_pos (x : float) : bool := SFltb (S754_zero false) x.

End Py.

Notation "'let*' x ':=' m 'in' k" := (Py.bind m (fun x => k))
  (at level 10, x name, m at level 100, k at level 200).
Notation "m ';;' k" := (Py.bind m (fun _ => k))
  (at level 100, k at level 200, right associativity).

(** ** The Tk event loop, as far as the games depend on it *)

Module Tk.

(** The widget a game was created in.  [C] names the callbacks the game
    hands to [after]. *)
Record Parent (C : Type) : Type := {
  next_id : nat;                       (* source of fresh [after] identifiers *)
  scheduled : list (nat * (Z * C));    (* pending callbacks: id, delay in ms, callback *)
  widgets_alive : bool                 (* false once the game's widgets are destroyed *)
}.
Arguments next_id {C} _.
Arguments scheduled {C} _.
Arguments widgets_alive {C} _.

(** [parent.after(ms, cb)]: schedules [cb] and returns its identifier. *)
Definition after {C} (ms : Z) (cb : C) (p : Parent C) : Parent C * nat :=
  ({| next_id := S (next_id p);
      scheduled := scheduled p ++ [(next_id p, (ms, cb))];
      widgets_alive := widgets_alive p |}, next_id p).

(** [parent.after_cancel(id)] *)
Definition after_cancel {C} (id : nat) (p : Parent C) : Parent C :=
  {| next_id := next_id p;
     scheduled := filter (fun e => e.1 <> id) (scheduled p);
     widgets_alive := widgets_alive p |}.

Definition destroy_widgets {C} (p : Parent C) : Parent C :=
  {| next_id := next_id p;
     scheduled := scheduled p;
     widgets_alive := false |}.

(** The event loop takes the callback scheduled under [id] off the queue
    when it comes due; a cancelled or unknown [id] gives nothing to run. *)
Definition take_due {C} (id : nat) (p : Parent C) : option (C * Parent C) :=
  match list_find (fun e => e.1 = id) (scheduled p) with
  | Some (_, (_, (_, cb))) => Some (cb, after_cancel id p)
  | None => None
  end.

End Tk.

(** ** utils/scoreboard.py *)

Module Scoreboard.
Import Py.

Record PlayerScore : Type := {
  name : string;
  score : Z;
  level : Z;
  timestamp : string;
  game : string
}.

(** What [scores.json] holds when the store looks at it. *)
Inductive File : Type :=
| Missing                                     (* [Path.exists()] is false *)
| Unreadable                                  (* [open] raises *)
| Corrupt                                     (* [json.load] raises *)
| Json (m : gmap string (list PlayerScore)).  (* [json.load] returns a document of
                                                 the declared type of [self.scores] *)

Record ScoreboardManager : Type := {
  scores : gmap string (list PlayerScore);
  SCORES_FILE : File
}.

(** How an attempt to rewrite [scores.json] ends. *)
Inductive WriteOutcome : Set :=
| Written        (* [open] and [json.dump] succeed *)
| OpenRaises     (* [open(SCORES_FILE, 'w')] raises: the file is untouched *)
| DumpRaises.    (* the file was opened, hence truncated, and the write raises *)

(** What a call observes outside the store: the clock, formatted as
    ['%Y-%m-%d %H:%M'], and the fate of the write. *)
Record Env : Type := {
  now : string;
  write : WriteOutcome
}.

Definition set_scores (m : gmap string (list PlayerScore))
    (st : ScoreboardManager) : ScoreboardManager :=
  {| scores := m; SCORES_FILE := SCORES_FILE st |}.

Definition set_file (f : File) (st : ScoreboardManager) : ScoreboardManager :=
  {| scores := scores st; SCORES_FILE := f |}.

Definition known_games : gmap string (list PlayerScore) :=
  <["Memory Match" := []]> (<["Number Rush" := []]> (<["Color Blast" := []]> ∅)).

Definition load_scores : M ScoreboardManager unit :=
  try_except
    (let* st := get in
     match SCORES_FILE st with
     | Missing => ret tt
     | Unreadable => raise OSError
     | Corrupt => raise JSONDecodeError
     | Json m => modify (set_scores m)
     end)
    (fun _ => ret tt).

Definition save_scores (env : Env) : M ScoreboardManager unit :=
  try_except
    (match write env with
     | Written => modify (fun st => set_file (Json (scores st)) st)
     | OpenRaises => raise OSError
     | DumpRaises => modify (set_file Corrupt) ;; raise OSError
     end)
    (fun _ => ret tt).

(** [ScoreboardManager()], run against the file found on disk. *)
Definition init (f : File) : ScoreboardManager * outcome unit :=
  load_scores {| scores := known_games; SCORES_FILE := f |}.

(** The sort key [(x['score'], x['level'])] and Python's order on pairs. *)
Definition key (x : PlayerScore) : Z * Z := (score x, level x).

Definition key_ltb (a b : Z * Z) : bool :=
  (a.1 <? b.1) || ((a.1 =? b.1) && (a.2 <? b.2)).

(** [list.sort(key=..., reverse=True)]: descending, and stable (entries
    with equal keys keep their order). *)
Fixpoint insert_desc (x : PlayerScore) (l : list PlayerScore) : list PlayerScore :=
  match l with
  | [] => [x]
  | y :: l' =>
      if key_ltb (key x) (key y) then y :: insert_desc x l' else x :: y :: l'
  end.

Fixpoint sort_desc (l : list PlayerScore) : list PlayerScore :=
  match l with
  | [] => []
  | x :: l' => insert_desc x (sort_desc l')
  end.

Definition add_score (env : Env) (game_ player_name : string) (score_ level_ : Z)
    : M ScoreboardManager bool :=
  let* st := get in
  match scores st !! game_ with
  | None => ret false
  | Some entries =>
      let new_score :=
        {| name := player_name; score := score_; level := level_;
           timestamp := now env; game := game_ |} in
      let appended := entries ++ [new_score] in
      let sorted := sort_desc appended in
      modify (set_scores (<[game_ := slice_to 10 sorted]> (scores st))) ;;
      save_scores env ;;
      ret true
  end.

Definition get_top_scores (game_ : string) (limit : Z)
    : M ScoreboardManager (list PlayerScore) :=
  let* st := get in
  ret (slice_to limit (default [] (scores st !! game_))).

Fixpoint index_of_name (player_name : string) (i : Z) (l : list PlayerScore) : Z :=
  match l with
  | [] => -1
  | x :: l' =>
      if String.eqb (name x) player_name then i
      else index_of_name player_name (i + 1) l'
  end.

Definition get_player_rank (game_ player_name : string) : M ScoreboardManager Z :=
  let* st := get in
  ret (index_of_name player_name 1 (default [] (scores st !! game_))).

(** One [add_score] call as data, and a run of such calls. *)
Record Call : Type := {
  call_env : Env;
  call_game : string;
  call_name : string;
  call_score : Z;
  call_level : Z
}.

Definition do_call (c : Call) (st : ScoreboardManager) : ScoreboardManager :=
  state_of (add_score (call_env c) (call_game c) (call_name c)
                      (call_score c) (call_level c) st).

Definition run_calls (cs : list Call) (st : ScoreboardManager) : ScoreboardManager :=
  foldl (fun st c => do_call c st) st cs.

(** The store after each call of a run, in order. *)
Fixpoint states_after (cs : list Call) (st : ScoreboardManager)
    : list ScoreboardManager :=
  match cs with
  | [] => []
  | c :: cs' => do_call c st :: states_after cs' (do_call c st)
  end.

(** The order the store keeps: [a] may stand before [b] when its key
    [(score, level)] is at least that of [b]. *)
Definition ranks_before (a b : PlayerScore) : Prop :=
  score b < score a \/ (score b = score a /\ level b <= level a).

Definition ranked (l : list PlayerScore) : Prop :=
  StronglySorted ranks_before l /\ (length l <= 10)%nat.

Definition store_ok (st : ScoreboardManager) : Prop :=
  forall g l, scores st !! g = Some l -> ranked l.

(** Successive launches of the program: each constructs the store from the
    file the previous launch left behind and then records a run of scores.
    The result lists every store state along the way. *)
Fixpoint launches (runs : list (list Call)) (f : File) : list ScoreboardManager :=
  match runs with
  | [] => []
  | cs :: runs' =>
      let st0 := state_of (init f) in
      (st0 :: states_after cs st0) ++ launches runs' (SCORES_FILE (run_calls cs st0))
  end.

(** A file whose lists, if it parses, are ranked. *)
Definition file_ok (f : File) : Prop :=
  match f with
  | Json m => forall g l, m !! g = Some l -> ranked l
  | _ => True
  end.

(** [clear_scores(game)]; [None] is the default argument.  The test
    [if game:] fails for [None] and for the empty title alike, and
    [self.scores[game] = []] is a plain dictionary assignment: it makes
    [game] a key when it was none. *)
Definition clear_scores (env : Env) (game_ : option string) : M ScoreboardManager unit :=
  (match game_ with
   | Some (String c g) =>
       modify (fun st => set_scores (<[String c g := []]> (scores st)) st)
   | Some EmptyString | None =>
       (* [for key in self.scores: self.scores[key] = []] *)
       modify (fun st => set_scores ((fun _ => []) <$> scores st) st)
   end) ;;
  save_scores env.

End Scoreboard.

(** ** Turn order in the two games that play one round per player *)

Module Session.

(** The part of a game object that turn order depends on. *)
Record Turn : Type := {
  num_players : nat;
  roster : nat;              (* [len(self.players)] *)
  current_player : nat;
  game_active : bool
}.

(** How one method call or callback may move the turn. *)
Inductive turn_step (t : Turn) : Turn -> Prop :=
| turn_same :
    turn_step t t
| turn_completed :            (* the live round ended and was scored *)
    game_active t = true ->
    turn_step t {| num_players := num_players t; roster := roster t;
                   current_player := S (current_player t); game_active := false |}
| turn_started cp' :          (* completed players skipped, a round begun *)
    (current_player t <= cp')%nat -> (cp' < roster t)%nat ->
    turn_step t {| num_players := num_players t; roster := roster t;
                   current_player := cp'; game_active := true |}
| turn_stopped cp' :          (* no round is live any more *)
    (current_player t <= cp')%nat -> (cp' <= current_player t `max` roster t)%nat ->
    turn_step t {| num_players := num_players t; roster := roster t;
                   current_player := cp'; game_active := false |}.

(** What holds of the turn throughout a session. *)
Definition turn_ok (t : Turn) : Prop :=
  num_players t = roster t
  /\ (current_player t <= num_players t)%nat
  /\ (game_active t = true -> (current_player t < num_players t)%nat).

End Session.

(** ** games/number_rush.py *)

Module NumberRush.
Import Py.

Record ButtonData : Type := {
  number : Z;
  clicked : bool
}.

Record PlayerData : Type := {
  name : string;
  score : Z;
  time : float;
  completed : bool
}.

Record LevelConfig : Type := {
  numbers : Z;
  time_limit : Z     (* the ['time'] entry *)
}.

Definition LEVELS (lv : Z) : option LevelConfig :=
  match lv with
  | 1 => Some {| numbers := 15; time_limit := 30 |}
  | 2 => Some {| numbers := 20; time_limit := 35 |}
  | 3 => Some {| numbers := 25; time_limit := 40 |}
  | 4 => Some {| numbers := 30; time_limit := 45 |}
  | 5 => Some {| numbers := 40; time_limit := 60 |}
  | _ => None
  end.

(** The callbacks the game gives to [after]. *)
Inductive Callback : Set :=
| CbUpdateTimer              (* [self.update_timer] *)
| CbRestoreColour (num : Z). (* the lambda that ends the red flash *)

Record NumberRushGame : Type := {
  parent : Tk.Parent Callback;
  buttons : list ButtonData;
  current_number : Z;
  start_time : option float;
  game_active : bool;
  timer_id : option nat;
  num_players : nat;
  current_player : nat;      (* starts at 0 and is only ever incremented *)
  players : list PlayerData;
  current_level : Z;
  total_numbers : Z;
  scoreboard : Scoreboard.ScoreboardManager   (* the module-level [scoreboard] *)
}.

Definition set_num_players v (g : NumberRushGame) : NumberRushGame :=
  {| parent := parent g; buttons := buttons g; current_number := current_number g;
     start_time := start_time g; game_active := game_active g;
     timer_id := timer_id g; num_players := v;
     current_player := current_player g; players := players g;
     current_level := current_level g; total_numbers := total_numbers g;
     scoreboard := scoreboard g |}.

Definition set_current_level v (g : NumberRushGame) : NumberRushGame :=
  {| parent := parent g; buttons := buttons g; current_number := current_number g;
     start_time := start_time g; game_active := game_active g;
     timer_id := timer_id g; num_players := num_players g;
     current_player := current_player g; players := players g;
     current_level := v; total_numbers := total_numbers g;
     scoreboard := scoreboard g |}.

Definition set_total_numbers v (g : NumberRushGame) : NumberRushGame :=
  {| parent := parent g; buttons := buttons g; current_number := current_number g;
     start_time := start_time g; game_active := game_active g;
     timer_id := timer_id g; num_players := num_players g;
     current_player := current_player g; players := players g;
     current_level := current_level g; total_numbers := v;
     scoreboard := scoreboard g |}.

Definition set_parent v (g : NumberRushGame) : NumberRushGame :=
  {| parent := v; buttons := buttons g; current_number := current_number g;
     start_time := start_time g; game_active := game_active g;
     timer_id := timer_id g; num_players := num_players g;
     current_player := current_player g; players := players g;
     current_level := current_level g; total_numbers := total_numbers g;
     scoreboard := scoreboard g |}.

Definition set_buttons v (g : NumberRushGame) : NumberRushGame :=
  {| parent := parent g; buttons := v; current_number := current_number g;
     start_time := start_time g; game_active := game_active g;
     timer_id := timer_id g; num_players := num_players g;
     current_player := current_player g; players := players g;
     current_level := current_level g; total_numbers := total_numbers g;
     scoreboard := scoreboard g |}.

Definition set_current_number v (g : NumberRushGame) : NumberRushGame :=
  {| parent := parent g; buttons := buttons g; current_number := v;
     start_time := start_time g; game_active := game_active g;
     timer_id := timer_id g; num_players := num_players g;
     current_player := current_player g; players := players g;
     current_level := current_level g; total_numbers := total_numbers g;
     scoreboard := scoreboard g |}.

Definition set_start_time v (g : NumberRushGame) : NumberRushGame :=
  {| parent := parent g; buttons := buttons g; current_number := current_number g;
     start_time := v; game_active := game_active g;
     timer_id := timer_id g; num_players := num_players g;
     current_player := current_player g; players := players g;
     current_level := current_level g; total_numbers := total_numbers g;
     scoreboard := scoreboard g |}.

Definition set_game_active v (g : NumberRushGame) : NumberRushGame :=
  {| parent := parent g; buttons := buttons g; current_number := current_number g;
     start_time := start_time g; game_active := v;
     timer_id := timer_id g; num_players := num_players g;
     current_player := current_player g; players := players g;
     current_level := current_level g; total_numbers := total_numbers g;
     scoreboard := scoreboard g |}.

Definition set_timer_id v (g : NumberRushGame) : NumberRushGame :=
  {| parent := parent g; buttons := buttons g; current_number := current_number g;
     start_time := start_time g; game_active := game_active g;
     timer_id := v; num_players := num_players g;
     current_player := current_player g; players := players g;
     current_level := current_level g; total_numbers := total_numbers g;
     scoreboard := scoreboard g |}.

Definition set_current_player v (g : NumberRushGame) : NumberRushGame :=
  {| parent := parent g; buttons := buttons g; current_number := current_number g;
     start_time := start_time g; game_active := game_active g;
     timer_id := timer_id g; num_players := num_players g;
     current_player := v; players := players g;
     current_level := current_level g; total_numbers := total_numbers g;
     scoreboard := scoreboard g |}.

Definition set_players v (g : NumberRushGame) : NumberRushGame :=
  {| parent := parent g; buttons := buttons g; current_number := current_number g;
     start_time := start_time g; game_active := game_active g;
     timer_id := timer_id g; num_players := num_players g;
     current_player := current_player g; players := v;
     current_level := current_level g; total_numbers := total_numbers g;
     scoreboard := scoreboard g |}.

Definition set_scoreboard v (g : NumberRushGame) : NumberRushGame :=
  {| parent := parent g; buttons := buttons g; current_number := current_number g;
     start_time := start_time g; game_active := game_active g;
     timer_id := timer_id g; num_players := num_players g;
     current_player := current_player g; players := players g;
     current_level := current_level g; total_numbers := total_numbers g;
     scoreboard := v |}.

Definition set_time v (p : PlayerData) : PlayerData :=
  {| name := name p; score := score p; time := v; completed := completed p |}.
Definition set_completed v (p : PlayerData) : PlayerData :=
  {| name := name p; score := score p; time := time p; completed := v |}.
Definition set_score v (p : PlayerData) : PlayerData :=
  {| name := name p; score := v; time := time p; completed := completed p |}.
Definition set_clicked v (b : ButtonData) : ButtonData :=
  {| number := number b; clicked := v |}.

Abbreviation Game := (M NumberRushGame).

(** A call on one of the game's widgets that no [try] guards. *)
Definition widget_call : Game unit :=
  let* st := get in
  if Tk.widgets_alive (parent st) then ret tt else raise TclError.

(** The same inside [try: ... except tk.TclError: pass]. *)
Definition guarded_widget_call : Game unit :=
  try_except_TclError widget_call (ret tt).

(** [update_display]: the progress label. *)
Definition update_display : Game unit := guarded_widget_call.

(** [update_player_display]: one label per player. *)
Definition update_player_display : Game unit :=
  let* st := get in
  for_each (players st) (fun _ => guarded_widget_call).

(** [self.parent.after(ms, cb)] *)
Definition after (ms : Z) (cb : Callback) : Game nat :=
  let* st := get in
  let '(p, id) := Tk.after ms cb (parent st) in
  modify (set_parent p) ;;
  ret id.

(** A call on the module-level scoreboard. *)
Definition on_scoreboard {A} (m : M Scoreboard.ScoreboardManager A) : Game A :=
  fun st =>
    match m (scoreboard st) with
    | (sb, r) => (set_scoreboard sb st, r)
    end.

(** [player[...] = ...] for the dictionary [self.players[i]] is in place. *)
Definition update_player (k : nat) (f : PlayerData -> PlayerData) : Game unit :=
  modify (fun st => set_players (alter f k (players st)) st).

(** The block [if self.timer_id: ... after_cancel ...; self.timer_id = None]. *)
Definition cancel_timer : Game unit :=
  let* st := get in
  match timer_id st with
  | Some id =>
      modify (fun st => set_parent (Tk.after_cancel id (parent st)) st) ;;
      modify (set_timer_id None)
  | None => ret tt
  end.

(** The setup dialog's [start_game], with the player names already read
    from the entry fields. *)
Definition start_game_players (names : list string) : list PlayerData :=
  map (fun n => {| name := n; score := 0;
                   time := S754_zero false; completed := false |}) names.

Definition end_game (env : nat -> Scoreboard.Env) : Game unit :=
  modify (set_game_active false) ;;
  cancel_timer ;;
  let* st := get in
  for_each (enumerate (players st)) (fun ip =>
    if completed ip.2
    then let* st := get in
         let* _ := on_scoreboard
                     (Scoreboard.add_score (env ip.1) "Number Rush" (name ip.2)
                                           (score ip.2) (current_level st)) in
         ret tt
    else ret tt)
  (* then the results dialog and the scoreboard dialog *).

Definition update_timer : Game unit :=
  let* st := get in
  if game_active st && bool_decide (start_time st <> None) then
    (* [try: self.timer_label.config(...) except tk.TclError: return] *)
    let* shown := try_except_TclError (widget_call ;; ret true) (ret false) in
    if shown : bool then
      let* id := after 50 CbUpdateTimer in
      modify (set_timer_id (Some id))
    else ret tt
  else ret tt.

Definition round_complete (now : float) (env : nat -> Scoreboard.Env) : Game unit :=
  modify (set_game_active false) ;;
  cancel_timer ;;
  let* st := get in
  match start_time st with
  | Some t0 =>
      let elapsed := float_sub now t0 in
      let k := current_player st in
      let* _ := getitem (players st) k in
      update_player k (set_time elapsed) ;;
      update_player k (set_completed true) ;;
      let* q := truediv (float_of_int 10000) elapsed in
      let* n := int_of_float q in
      update_player k (set_score (n * current_level st)) ;;
      update_player_display
      (* then the result dialog *)
  | None => ret tt
  end ;;
  modify (fun st => set_current_player (S (current_player st)) st) ;;
  let* st := get in
  if (current_player st <? num_players st)%nat then
    (* [self.start_btn.config(...)], [self.start_btn.pack(...)] *)
    widget_call
  else end_game env.

(** The first button carrying [num] that satisfies [ok], if any. *)
Fixpoint find_button (ok : ButtonData -> bool) (num : Z) (k : nat)
    (l : list ButtonData) : option nat :=
  match l with
  | [] => None
  | b :: l' =>
      if (number b =? num) && ok b then Some k else find_button ok num (S k) l'
  end.

Definition number_clicked (now : float) (env : nat -> Scoreboard.Env) (num : Z)
    : Game unit :=
  let* st := get in
  if negb (game_active st) then ret tt
  else if num =? current_number st then
    match find_button (fun _ => true) num 0 (buttons st) with
    | Some k =>
        modify (fun st => set_buttons (alter (set_clicked true) k (buttons st)) st) ;;
        widget_call
    | None => ret tt
    end ;;
    modify (fun st => set_current_number (current_number st + 1) st) ;;
    update_display ;;
    let* st := get in
    if total_numbers st <? current_number st then round_complete now env
    else ret tt
  else
    match find_button (fun b => negb (clicked b)) num 0 (buttons st) with
    | Some _ =>
        widget_call ;;
        let* _ := after 200 (CbRestoreColour num) in
        ret tt
    | None => ret tt
    end.

(** [create_game_grid]; [shuffle] is what [random.shuffle] does to the
    numbers this time.  The row and column walk visits every index of
    [numbers] once, in order. *)
Definition create_game_grid (shuffle : list Z -> list Z) : Game unit :=
  widget_call ;;
  modify (set_buttons []) ;;
  let* st := get in
  let numbers_ := shuffle (range_from_1 (total_numbers st)) in
  for_each numbers_ (fun num =>
    modify (fun st =>
      set_buttons (buttons st ++ [ {| number := num; clicked := false |} ]) st)).

(** [start_round]: the players still to be looked at are those from
    [current_player] on, and each recursive call moves one further; none
    is left exactly when [current_player >= len(self.players)]. *)
Fixpoint start_round_from (rest : list PlayerData) (now : float)
    (shuffle : list Z -> list Z) (env : nat -> Scoreboard.Env) : Game unit :=
  match rest with
  | [] => end_game env
  | player :: rest' =>
      if completed player then
        modify (fun st => set_current_player (S (current_player st)) st) ;;
        start_round_from rest' now shuffle env
      else
        modify (set_current_number 1) ;;
        modify (set_start_time (Some now)) ;;
        modify (set_game_active true) ;;
        guarded_widget_call ;;               (* [self.start_btn.pack_forget()] *)
        update_player_display ;;
        create_game_grid shuffle ;;
        update_display ;;
        update_timer
  end.

Definition start_round (now : float) (shuffle : list Z -> list Z)
    (env : nat -> Scoreboard.Env) : Game unit :=
  let* st := get in
  start_round_from (drop (current_player st) (players st)) now shuffle env.

(** The body [back_to_menu] and [destroy] share: the flag, the timer,
    [_cleanup_bindings], [_destroy_widgets].  [back_to_menu] then hands
    control to the menu through [on_back]. *)
Definition teardown : Game unit :=
  modify (set_game_active false) ;;
  cancel_timer ;;
  modify (fun st => set_parent (Tk.destroy_widgets (parent st)) st).

Definition back_to_menu : Game unit := teardown.

Definition destroy : Game unit := teardown.

(** The game object as [__init__] leaves it. *)
Definition init (sb : Scoreboard.ScoreboardManager) : NumberRushGame :=
  {| parent := {| Tk.next_id := 0; Tk.scheduled := []; Tk.widgets_alive := false |};
     buttons := []; current_number := 1; start_time := None;
     game_active := false; timer_id := None;
     num_players := 1; current_player := 0; players := [];
     current_level := 1; total_numbers := 15;
     scoreboard := sb |}.

(** The setup dialog's [start_game]: [names] are the player names as read
    from the entry fields (already trimmed and defaulted), [lv] the level
    chosen. *)
Definition start_game (names : list string) (lv : Z) (now : float)
    (shuffle : list Z -> list Z) (env : nat -> Scoreboard.Env) : Game unit :=
  modify (set_players (start_game_players names)) ;;
  modify (set_num_players (length names)) ;;
  modify (set_current_level lv) ;;
  match LEVELS lv with
  | None => raise KeyError
  | Some cfg =>
      modify (set_total_numbers (numbers cfg)) ;;
      (* [setup_ui] builds the widgets *)
      modify (fun st =>
        set_parent {| Tk.next_id := Tk.next_id (parent st);
                      Tk.scheduled := Tk.scheduled (parent st);
                      Tk.widgets_alive := true |} st) ;;
      start_round now shuffle env
  end.

(** The leaderboard entries a finalised session owes, in the words of the
    specification: one for every player whose [completed] flag is set. *)
Definition entries_for_completed (env : nat -> Scoreboard.Env) (lv : Z)
    (ps : list (nat * PlayerData)) : list Scoreboard.Call :=
  map (fun ip => {| Scoreboard.call_env := env ip.1;
                    Scoreboard.call_game := "Number Rush";
                    Scoreboard.call_name := name ip.2;
                    Scoreboard.call_score := score ip.2;
                    Scoreboard.call_level := lv |})
      (filter (fun ip => completed ip.2 = true) ps).

(** What can happen to a running game: the user's actions and the
    callbacks the event loop fires. *)
Inductive Op : Type :=
| OpStartRound (now : float) (shuffle : list Z -> list Z) (env : nat -> Scoreboard.Env)
| OpNumberClicked (now : float) (env : nat -> Scoreboard.Env) (num : Z)
| OpUpdateTimer
| OpBackToMenu
| OpDestroy.

Definition run_op (o : Op) : Game unit :=
  match o with
  | OpStartRound now shuffle env => start_round now shuffle env
  | OpNumberClicked now env num => number_clicked now env num
  | OpUpdateTimer => update_timer
  | OpBackToMenu => back_to_menu
  | OpDestroy => destroy
  end.

(** The event loop reports an exception of a callback and carries on. *)
Definition step (o : Op) (st : NumberRushGame) : NumberRushGame :=
  state_of (run_op o st).

Definition play (ops : list Op) (st : NumberRushGame) : NumberRushGame :=
  foldl (fun st o => step o st) st ops.

(** A session: the game object is created, the setup dialog starts the
    game, and then anything may happen. *)
Definition session (sb : Scoreboard.ScoreboardManager) (names : list string)
    (lv : Z) (now : float) (shuffle : list Z -> list Z)
    (env : nat -> Scoreboard.Env) (ops : list Op) : NumberRushGame :=
  play ops (state_of (start_game names lv now shuffle env (init sb))).

(** The part of the session state that turn order depends on. *)
Definition turn (st : NumberRushGame) : Session.Turn :=
  {| Session.num_players := num_players st;
     Session.roster := length (players st);
     Session.current_player := current_player st;
     Session.game_active := game_active st |}.

(** What a round in progress rests on: everything but the click counter,
    the buttons and the event queue. *)
Definition round (st : NumberRushGame) :=
  (game_active st, Tk.widgets_alive (parent st), players st, current_player st,
   start_time st, total_numbers st, current_level st, num_players st, scoreboard st).

(** A live round, if there is one, belongs to a player who has not
    completed. *)
Definition live_round_open (st : NumberRushGame) : Prop :=
  game_active st = true ->
  forall q, players st !! current_player st = Some q -> completed q = false.

(** The lambda [number_clicked] hands to [after] for a wrong click:
    [w.config(bg=bg)] on the button that was flashed, in no [try]. *)
Definition restore_colour (num : Z) : Game unit := widget_call.

(** What the event loop runs when a scheduled callback comes due. *)
Definition run_callback (cb : Callback) : Game unit :=
  match cb with
  | CbUpdateTimer => update_timer
  | CbRestoreColour num => restore_colour num
  end.

(** The callbacks still scheduled, oldest first. *)
Definition pending (st : NumberRushGame) : list Callback :=
  map (fun e => e.2.2) (Tk.scheduled (parent st)).

(** The callback scheduled under [id] comes due. *)
Definition fire (id : nat) : Game unit :=
  let* st := get in
  match Tk.take_due id (parent st) with
  | Some (cb, p) => modify (set_parent p) ;; run_callback cb
  | None => ret tt
  end.

End NumberRush.

(** ** games/color_blast.py *)

Module ColorBlast.
Import Py.

Record PlayerData : Type := {
  name : string;
  points : Z;          (* the ['score'] entry *)
  completed : bool
}.

Record LevelConfig : Type := {
  time_limit : Z;      (* the ['time'] entry *)
  target : Z
}.

Definition LEVELS (lv : Z) : option LevelConfig :=
  match lv with
  | 1 => Some {| time_limit := 45; target := 10 |}
  | 2 => Some {| time_limit := 40; target := 15 |}
  | 3 => Some {| time_limit := 35; target := 20 |}
  | 4 => Some {| time_limit := 30; target := 25 |}
  | 5 => Some {| time_limit := 25; target := 30 |}
  | _ => None
  end.

Inductive Callback : Set :=
| CbCountdown       (* [self.countdown] *)
| CbNewQuestion.    (* [self.new_question] *)

Record ColorBlastGame : Type := {
  parent : Tk.Parent Callback;
  score : Z;
  time_left : Z;
  game_active : bool;
  correct_answer : nat;
  timer_id : option nat;
  num_players : nat;
  current_player : nat;      (* starts at 0 and is only ever incremented *)
  players : list PlayerData;
  current_level : Z;
  target_score : Z;
  answer_buttons : nat;      (* how many answer buttons [setup_ui] created *)
  scoreboard : Scoreboard.ScoreboardManager   (* the module-level [scoreboard] *)
}.

Definition set_parent v (g : ColorBlastGame) : ColorBlastGame :=
  {| parent := v; score := score g; time_left := time_left g;
     game_active := game_active g; correct_answer := correct_answer g;
     timer_id := timer_id g; num_players := num_players g;
     current_player := current_player g; players := players g;
     current_level := current_level g; target_score := target_score g;
     answer_buttons := answer_buttons g; scoreboard := scoreboard g |}.

Definition set_score v (g : ColorBlastGame) : ColorBlastGame :=
  {| parent := parent g; score := v; time_left := time_left g;
     game_active := game_active g; correct_answer := correct_answer g;
     timer_id := timer_id g; num_players := num_players g;
     current_player := current_player g; players := players g;
     current_level := current_level g; target_score := target_score g;
     answer_buttons := answer_buttons g; scoreboard := scoreboard g |}.

Definition set_time_left v (g : ColorBlastGame) : ColorBlastGame :=
  {| parent := parent g; score := score g; time_left := v;
     game_active := game_active g; correct_answer := correct_answer g;
     timer_id := timer_id g; num_players := num_players g;
     current_player := current_player g; players := players g;
     current_level := current_level g; target_score := target_score g;
     answer_buttons := answer_buttons g; scoreboard := scoreboard g |}.

Definition set_game_active v (g : ColorBlastGame) : ColorBlastGame :=
  {| parent := parent g; score := score g; time_left := time_left g;
     game_active := v; correct_answer := correct_answer g; timer_id := timer_id g;
     num_players := num_players g; current_player := current_player g;
     players := players g; current_level := current_level g;
     target_score := target_score g; answer_buttons := answer_buttons g;
     scoreboard := scoreboard g |}.

Definition set_correct_answer v (g : ColorBlastGame) : ColorBlastGame :=
  {| parent := parent g; score := score g; time_left := time_left g;
     game_active := game_active g; correct_answer := v; timer_id := timer_id g;
     num_players := num_players g; current_player := current_player g;
     players := players g; current_level := current_level g;
     target_score := target_score g; answer_buttons := answer_buttons g;
     scoreboard := scoreboard g |}.

Definition set_timer_id v (g : ColorBlastGame) : ColorBlastGame :=
  {| parent := parent g; score := score g; time_left := time_left g;
     game_active := game_active g; correct_answer := correct_answer g; timer_id := v;
     num_players := num_players g; current_player := current_player g;
     players := players g; current_level := current_level g;
     target_score := target_score g; answer_buttons := answer_buttons g;
     scoreboard := scoreboard g |}.

Definition set_num_players v (g : ColorBlastGame) : ColorBlastGame :=
  {| parent := parent g; score := score g; time_left := time_left g;
     game_active := game_active g; correct_answer := correct_answer g;
     timer_id := timer_id g; num_players := v; current_player := current_player g;
     players := players g; current_level := current_level g;
     target_score := target_score g; answer_buttons := answer_buttons g;
     scoreboard := scoreboard g |}.

Definition set_current_player v (g : ColorBlastGame) : ColorBlastGame :=
  {| parent := parent g; score := score g; time_left := time_left g;
     game_active := game_active g; correct_answer := correct_answer g;
     timer_id := timer_id g; num_players := num_players g; current_player := v;
     players := players g; current_level := current_level g;
     target_score := target_score g; answer_buttons := answer_buttons g;
     scoreboard := scoreboard g |}.

Definition set_players v (g : ColorBlastGame) : ColorBlastGame :=
  {| parent := parent g; score := score g; time_left := time_left g;
     game_active := game_active g; correct_answer := correct_answer g;
     timer_id := timer_id g; num_players := num_players g;
     current_player := current_player g; players := v;
     current_level := current_level g; target_score := target_score g;
     answer_buttons := answer_buttons g; scoreboard := scoreboard g |}.

Definition set_current_level v (g : ColorBlastGame) : ColorBlastGame :=
  {| parent := parent g; score := score g; time_left := time_left g;
     game_active := game_active g; correct_answer := correct_answer g;
     timer_id := timer_id g; num_players := num_players g;
     current_player := current_player g; players := players g; current_level := v;
     target_score := target_score g; answer_buttons := answer_buttons g;
     scoreboard := scoreboard g |}.

Definition set_target_score v (g : ColorBlastGame) : ColorBlastGame :=
  {| parent := parent g; score := score g; time_left := time_left g;
     game_active := game_active g; correct_answer := correct_answer g;
     timer_id := timer_id g; num_players := num_players g;
     current_player := current_player g; players := players g;
     current_level := current_level g; target_score := v;
     answer_buttons := answer_buttons g; scoreboard := scoreboard g |}.

Definition set_answer_buttons v (g : ColorBlastGame) : ColorBlastGame :=
  {| parent := parent g; score := score g; time_left := time_left g;
     game_active := game_active g; correct_answer := correct_answer g;
     timer_id := timer_id g; num_players := num_players g;
     current_player := current_player g; players := players g;
     current_level := current_level g; target_score := target_score g;
     answer_buttons := v; scoreboard := scoreboard g |}.

Definition set_scoreboard v (g : ColorBlastGame) : ColorBlastGame :=
  {| parent := parent g; score := score g; time_left := time_left g;
     game_active := game_active g; correct_answer := correct_answer g;
     timer_id := timer_id g; num_players := num_players g;
     current_player := current_player g; players := players g;
     current_level := current_level g; target_score := target_score g;
     answer_buttons := answer_buttons g; scoreboard := v |}.

Definition set_points v (p : PlayerData) : PlayerData :=
  {| name := name p; points := v; completed := completed p |}.
Definition set_completed v (p : PlayerData) : PlayerData :=
  {| name := name p; points := points p; completed := v |}.

Abbreviation Game := (M ColorBlastGame).

(** A call on one of the game's widgets that no [try] guards. *)
Definition widget_call : Game unit :=
  let* st := get in
  if Tk.widgets_alive (parent st) then ret tt else raise TclError.

(** The same inside [try: ... except tk.TclError: pass]. *)
Definition guarded_widget_call : Game unit :=
  try_except_TclError widget_call (ret tt).

(** [update_stats]: the four labels, in one [try]. *)
Definition update_stats : Game unit := guarded_widget_call.

(** [update_player_display]: one label per player. *)
Definition update_player_display : Game unit :=
  let* st := get in
  for_each (players st) (fun _ => guarded_widget_call).

(** [self.answer_buttons[idx].config(...)] *)
Definition answer_button_call (idx : nat) : Game unit :=
  let* st := get in
  if (idx <? answer_buttons st)%nat then widget_call else raise IndexError.

Definition after (ms : Z) (cb : Callback) : Game nat :=
  let* st := get in
  let '(p, id) := Tk.after ms cb (parent st) in
  modify (set_parent p) ;;
  ret id.

Definition on_scoreboard {A} (m : M Scoreboard.ScoreboardManager A) : Game A :=
  fun st =>
    match m (scoreboard st) with
    | (sb, r) => (set_scoreboard sb st, r)
    end.

Definition update_player (k : nat) (f : PlayerData -> PlayerData) : Game unit :=
  modify (fun st => set_players (alter f k (players st)) st).

Definition cancel_timer : Game unit :=
  let* st := get in
  match timer_id st with
  | Some id =>
      modify (fun st => set_parent (Tk.after_cancel id (parent st)) st) ;;
      modify (set_timer_id None)
  | None => ret tt
  end.

Definition start_game_players (names : list string) : list PlayerData :=
  map (fun n => {| name := n; points := 0; completed := false |}) names.

Definition end_game (env : nat -> Scoreboard.Env) : Game unit :=
  modify (set_game_active false) ;;
  cancel_timer ;;
  let* st := get in
  for_each (enumerate (players st)) (fun ip =>
    if completed ip.2
    then let* st := get in
         let* _ := on_scoreboard
                     (Scoreboard.add_score (env ip.1) "Color Blast" (name ip.2)
                                           (points ip.2) (current_level st)) in
         ret tt
    else ret tt)
  (* then the results dialog and the scoreboard dialog *).

(** [new_question]; [pick] is where the shuffle puts the right answer
    this time ([options.index(correct_color_name)]). *)
Definition new_question (pick : nat) : Game unit :=
  let* st := get in
  if negb (game_active st) then ret tt
  else
    widget_call ;;                       (* [self.word_label.config(...)] *)
    modify (set_correct_answer pick) ;;
    let* st := get in
    if (0 <? answer_buttons st)%nat then widget_call else ret tt.

Definition check_answer (idx : nat) : Game unit :=
  let* st := get in
  if negb (game_active st) then ret tt
  else if (idx =? correct_answer st)%nat then
    modify (fun st => set_score (score st + 1) st) ;;
    update_stats ;;
    answer_button_call idx ;;
    let* _ := after 200 CbNewQuestion in
    ret tt
  else
    answer_button_call idx ;;
    answer_button_call (correct_answer st) ;;
    let* _ := after 800 CbNewQuestion in
    ret tt.

Definition round_over (env : nat -> Scoreboard.Env) : Game unit :=
  modify (set_game_active false) ;;
  let* st := get in
  if (length (players st) <=? current_player st)%nat then end_game env
  else
    let k := current_player st in
    let* _ := getitem (players st) k in
    update_player k (set_points (score st * current_level st * 10)) ;;
    update_player k (set_completed true) ;;
    update_player_display ;;
    (* then the result dialog *)
    modify (fun st => set_current_player (S (current_player st)) st) ;;
    let* st := get in
    if (current_player st <? num_players st)%nat then
      (* [self.start_btn.config(...)], [self.start_btn.pack(...)] *)
      widget_call
    else end_game env.

Definition countdown (env : nat -> Scoreboard.Env) : Game unit :=
  let* st := get in
  if negb (game_active st) then ret tt
  else if 0 <? time_left st then
    modify (fun st => set_time_left (time_left st - 1) st) ;;
    update_stats ;;
    let* id := after 1000 CbCountdown in
    modify (set_timer_id (Some id))
  else round_over env.

(** [start_round]: as in the ordered-click game, the players still to be
    looked at are those from [current_player] on. *)
Fixpoint start_round_from (rest : list PlayerData) (pick : nat)
    (env : nat -> Scoreboard.Env) : Game unit :=
  match rest with
  | [] => end_game env
  | player :: rest' =>
      if completed player then
        modify (fun st => set_current_player (S (current_player st)) st) ;;
        start_round_from rest' pick env
      else
        modify (set_score 0) ;;
        let* st := get in
        match LEVELS (current_level st) with
        | None => raise KeyError
        | Some cfg =>
            modify (set_time_left (time_limit cfg)) ;;
            modify (set_game_active true) ;;
            guarded_widget_call ;;           (* [self.start_btn.pack_forget()] *)
            update_stats ;;
            update_player_display ;;
            new_question pick ;;
            countdown env
        end
  end.

Definition start_round (pick : nat) (env : nat -> Scoreboard.Env) : Game unit :=
  let* st := get in
  start_round_from (drop (current_player st) (players st)) pick env.

(** The body [back_to_menu] and [destroy] share: the flag, the timer,
    [_cleanup_bindings], [_destroy_widgets].  [back_to_menu] then hands
    control to the menu through [on_back]. *)
Definition teardown : Game unit :=
  modify (set_game_active false) ;;
  cancel_timer ;;
  modify (fun st => set_parent (Tk.destroy_widgets (parent st)) st).

Definition back_to_menu : Game unit := teardown.

Definition destroy : Game unit := teardown.

(** The game object as [__init__] leaves it. *)
Definition init (sb : Scoreboard.ScoreboardManager) : ColorBlastGame :=
  {| parent := {| Tk.next_id := 0; Tk.scheduled := []; Tk.widgets_alive := false |};
     score := 0; time_left := 45; game_active := false; correct_answer := 0;
     timer_id := None; num_players := 1; current_player := 0; players := [];
     current_level := 1; target_score := 10; answer_buttons := 0;
     scoreboard := sb |}.

(** The setup dialog's [start_game], with the names as read from the
    entry fields. *)
Definition start_game (names : list string) (lv : Z) (pick : nat)
    (env : nat -> Scoreboard.Env) : Game unit :=
  modify (set_players (start_game_players names)) ;;
  modify (set_num_players (length names)) ;;
  modify (set_current_level lv) ;;
  match LEVELS lv with
  | None => raise KeyError
  | Some cfg =>
      modify (set_time_left (time_limit cfg)) ;;
      modify (set_target_score (target cfg)) ;;
      (* [setup_ui] builds the widgets, four answer buttons among them *)
      modify (fun st =>
        set_parent {| Tk.next_id := Tk.next_id (parent st);
                      Tk.scheduled := Tk.scheduled (parent st);
                      Tk.widgets_alive := true |} st) ;;
      modify (set_answer_buttons 4%nat) ;;
      start_round pick env
  end.

(** The leaderboard entries a finalised session owes, in the words of the
    specification: one for every player whose [completed] flag is set. *)
Definition entries_for_completed (env : nat -> Scoreboard.Env) (lv : Z)
    (ps : list (nat * PlayerData)) : list Scoreboard.Call :=
  map (fun ip => {| Scoreboard.call_env := env ip.1;
                    Scoreboard.call_game := "Color Blast";
                    Scoreboard.call_name := name ip.2;
                    Scoreboard.call_score := points ip.2;
                    Scoreboard.call_level := lv |})
      (filter (fun ip => completed ip.2 = true) ps).

Inductive Op : Type :=
| OpStartRound (pick : nat) (env : nat -> Scoreboard.Env)
| OpNewQuestion (pick : nat)
| OpCheckAnswer (idx : nat)
| OpCountdown (env : nat -> Scoreboard.Env)
| OpBackToMenu
| OpDestroy.

Definition run_op (o : Op) : Game unit :=
  match o with
  | OpStartRound pick env => start_round pick env
  | OpNewQuestion pick => new_question pick
  | OpCheckAnswer idx => check_answer idx
  | OpCountdown env => countdown env
  | OpBackToMenu => back_to_menu
  | OpDestroy => destroy
  end.

Definition step (o : Op) (st : ColorBlastGame) : ColorBlastGame :=
  state_of (run_op o st).

Definition play (ops : list Op) (st : ColorBlastGame) : ColorBlastGame :=
  foldl (fun st o => step o st) st ops.

Definition session (sb : Scoreboard.ScoreboardManager) (names : list string)
    (lv : Z) (pick : nat) (env : nat -> Scoreboard.Env) (ops : list Op)
    : ColorBlastGame :=
  play ops (state_of (start_game names lv pick env (init sb))).

(** The part of the session state that turn order depends on. *)
Definition turn (st : ColorBlastGame) : Session.Turn :=
  {| Session.num_players := num_players st;
     Session.roster := length (players st);
     Session.current_player := current_player st;
     Session.game_active := game_active st |}.

(** What a round in progress rests on: everything but the clock, the
    question and the event queue. *)
Definition round (st : ColorBlastGame) :=
  (game_active st, score st, players st, current_player st, current_level st,
   num_players st, scoreboard st).

(** A live round, if there is one, belongs to a player who has not
    completed. *)
Definition live_round_open (st : ColorBlastGame) : Prop :=
  game_active st = true ->
  forall q, players st !! current_player st = Some q -> completed q = false.

(** What the event loop runs when a scheduled callback comes due; [pick]
    and [env] are what the callback finds outside the game object. *)
Definition run_callback (pick : nat) (env : nat -> Scoreboard.Env) (cb : Callback)
    : Game unit :=
  match cb with
  | CbCountdown => countdown env
  | CbNewQuestion => new_question pick
  end.

End ColorBlast.

(** ** games/memory_match.py *)

Module MemoryMatch.
Import Py.

Record CardData : Type := {
  symbol : string;
  is_flipped : bool;     (* the ['flipped'] entry *)
  is_matched : bool      (* the ['matched'] entry *)
}.

Record PlayerData : Type := {
  name : string;
  score : Z;
  matches : Z;
  streak : Z
}.

Record LevelConfig : Type := {
  grid : Z;
  pairs : Z;
  bonus : Z
}.

Definition LEVELS (lv : Z) : option LevelConfig :=
  match lv with
  | 1 => Some {| grid := 4; pairs := 8; bonus := 100 |}
  | 2 => Some {| grid := 4; pairs := 8; bonus := 150 |}
  | 3 => Some {| grid := 5; pairs := 12; bonus := 200 |}
  | 4 => Some {| grid := 6; pairs := 18; bonus := 300 |}
  | 5 => Some {| grid := 6; pairs := 18; bonus := 500 |}
  | _ => None
  end.

(** [len(self.LEVELS)] *)
Definition LEVELS_len : Z := 5.

Inductive Callback : Set :=
| CbCheckMatch                       (* [self.check_match] *)
| CbLevelComplete                    (* [self.level_complete] *)
| CbFlipBack (idx1 idx2 : nat).      (* [lambda: self.flip_back(idx1, idx2)] *)

Record MemoryMatchGame : Type := {
  parent : Tk.Parent Callback;
  cards : list CardData;
  flipped : list nat;
  matched : list nat;
  moves : Z;
  check_id : option nat;
  num_players : nat;
  current_player : nat;
  players : list PlayerData;
  current_level : Z;
  symbol_set : string;
  grid_size : Z;
  total_pairs : Z;
  scoreboard : Scoreboard.ScoreboardManager   (* the module-level [scoreboard] *)
}.

Definition set_parent v (g : MemoryMatchGame) : MemoryMatchGame :=
  {| parent := v; cards := cards g; flipped := flipped g; matched := matched g;
     moves := moves g; check_id := check_id g; num_players := num_players g;
     current_player := current_player g; players := players g;
     current_level := current_level g; symbol_set := symbol_set g;
     grid_size := grid_size g; total_pairs := total_pairs g;
     scoreboard := scoreboard g |}.

Definition set_cards v (g : MemoryMatchGame) : MemoryMatchGame :=
  {| parent := parent g; cards := v; flipped := flipped g; matched := matched g;
     moves := moves g; check_id := check_id g; num_players := num_players g;
     current_player := current_player g; players := players g;
     current_level := current_level g; symbol_set := symbol_set g;
     grid_size := grid_size g; total_pairs := total_pairs g;
     scoreboard := scoreboard g |}.

Definition set_flipped v (g : MemoryMatchGame) : MemoryMatchGame :=
  {| parent := parent g; cards := cards g; flipped := v; matched := matched g;
     moves := moves g; check_id := check_id g; num_players := num_players g;
     current_player := current_player g; players := players g;
     current_level := current_level g; symbol_set := symbol_set g;
     grid_size := grid_size g; total_pairs := total_pairs g;
     scoreboard := scoreboard g |}.

Definition set_matched v (g : MemoryMatchGame) : MemoryMatchGame :=
  {| parent := parent g; cards := cards g; flipped := flipped g; matched := v;
     moves := moves g; check_id := check_id g; num_players := num_players g;
     current_player := current_player g; players := players g;
     current_level := current_level g; symbol_set := symbol_set g;
     grid_size := grid_size g; total_pairs := total_pairs g;
     scoreboard := scoreboard g |}.

Definition set_moves v (g : MemoryMatchGame) : MemoryMatchGame :=
  {| parent := parent g; cards := cards g; flipped := flipped g;
     matched := matched g; moves := v; check_id := check_id g;
     num_players := num_players g; current_player := current_player g;
     players := players g; current_level := current_level g;
     symbol_set := symbol_set g; grid_size := grid_size g;
     total_pairs := total_pairs g; scoreboard := scoreboard g |}.

Definition set_check_id v (g : MemoryMatchGame) : MemoryMatchGame :=
  {| parent := parent g; cards := cards g; flipped := flipped g;
     matched := matched g; moves := moves g; check_id := v;
     num_players := num_players g; current_player := current_player g;
     players := players g; current_level := current_level g;
     symbol_set := symbol_set g; grid_size := grid_size g;
     total_pairs := total_pairs g; scoreboard := scoreboard g |}.

Definition set_num_players v (g : MemoryMatchGame) : MemoryMatchGame :=
  {| parent := parent g; cards := cards g; flipped := flipped g;
     matched := matched g; moves := moves g; check_id := check_id g;
     num_players := v; current_player := current_player g; players := players g;
     current_level := current_level g; symbol_set := symbol_set g;
     grid_size := grid_size g; total_pairs := total_pairs g;
     scoreboard := scoreboard g |}.

Definition set_current_player v (g : MemoryMatchGame) : MemoryMatchGame :=
  {| parent := parent g; cards := cards g; flipped := flipped g;
     matched := matched g; moves := moves g; check_id := check_id g;
     num_players := num_players g; current_player := v; players := players g;
     current_level := current_level g; symbol_set := symbol_set g;
     grid_size := grid_size g; total_pairs := total_pairs g;
     scoreboard := scoreboard g |}.

Definition set_players v (g : MemoryMatchGame) : MemoryMatchGame :=
  {| parent := parent g; cards := cards g; flipped := flipped g;
     matched := matched g; moves := moves g; check_id := check_id g;
     num_players := num_players g; current_player := current_player g; players := v;
     current_level := current_level g; symbol_set := symbol_set g;
     grid_size := grid_size g; total_pairs := total_pairs g;
     scoreboard := scoreboard g |}.

Definition set_current_level v (g : MemoryMatchGame) : MemoryMatchGame :=
  {| parent := parent g; cards := cards g; flipped := flipped g;
     matched := matched g; moves := moves g; check_id := check_id g;
     num_players := num_players g; current_player := current_player g;
     players := players g; current_level := v; symbol_set := symbol_set g;
     grid_size := grid_size g; total_pairs := total_pairs g;
     scoreboard := scoreboard g |}.

Definition set_symbol_set v (g : MemoryMatchGame) : MemoryMatchGame :=
  {| parent := parent g; cards := cards g; flipped := flipped g;
     matched := matched g; moves := moves g; check_id := check_id g;
     num_players := num_players g; current_player := current_player g;
     players := players g; current_level := current_level g; symbol_set := v;
     grid_size := grid_size g; total_pairs := total_pairs g;
     scoreboard := scoreboard g |}.

Definition set_grid_size v (g : MemoryMatchGame) : MemoryMatchGame :=
  {| parent := parent g; cards := cards g; flipped := flipped g;
     matched := matched g; moves := moves g; check_id := check_id g;
     num_players := num_players g; current_player := current_player g;
     players := players g; current_level := current_level g;
     symbol_set := symbol_set g; grid_size := v; total_pairs := total_pairs g;
     scoreboard := scoreboard g |}.

Definition set_total_pairs v (g : MemoryMatchGame) : MemoryMatchGame :=
  {| parent := parent g; cards := cards g; flipped := flipped g;
     matched := matched g; moves := moves g; check_id := check_id g;
     num_players := num_players g; current_player := current_player g;
     players := players g; current_level := current_level g;
     symbol_set := symbol_set g; grid_size := grid_size g; total_pairs := v;
     scoreboard := scoreboard g |}.

Definition set_scoreboard v (g : MemoryMatchGame) : MemoryMatchGame :=
  {| parent := parent g; cards := cards g; flipped := flipped g;
     matched := matched g; moves := moves g; check_id := check_id g;
     num_players := num_players g; current_player := current_player g;
     players := players g; current_level := current_level g;
     symbol_set := symbol_set g; grid_size := grid_size g;
     total_pairs := total_pairs g; scoreboard := v |}.

Definition set_is_flipped v (c : CardData) : CardData :=
  {| symbol := symbol c; is_flipped := v; is_matched := is_matched c |}.
Definition set_is_matched v (c : CardData) : CardData :=
  {| symbol := symbol c; is_flipped := is_flipped c; is_matched := v |}.

Definition set_score v (p : PlayerData) : PlayerData :=
  {| name := name p; score := v; matches := matches p; streak := streak p |}.
Definition set_matches v (p : PlayerData) : PlayerData :=
  {| name := name p; score := score p; matches := v; streak := streak p |}.
Definition set_streak v (p : PlayerData) : PlayerData :=
  {| name := name p; score := score p; matches := matches p; streak := v |}.

Abbreviation Game := (M MemoryMatchGame).

(** A call on one of the game's widgets that no [try] guards. *)
Definition widget_call : Game unit :=
  let* st := get in
  if Tk.widgets_alive (parent st) then ret tt else raise TclError.

(** The same inside [try: ... except tk.TclError: pass]. *)
Definition guarded_widget_call : Game unit :=
  try_except_TclError widget_call (ret tt).

(** [update_stats]: the labels and the progress bar, in one [try]. *)
Definition update_stats : Game unit := guarded_widget_call.

(** [update_player_display]: one card per player. *)
Definition update_player_display : Game unit :=
  let* st := get in
  for_each (players st) (fun _ => guarded_widget_call).

Definition after (ms : Z) (cb : Callback) : Game nat :=
  let* st := get in
  let '(p, id) := Tk.after ms cb (parent st) in
  modify (set_parent p) ;;
  ret id.

Definition on_scoreboard {A} (m : M Scoreboard.ScoreboardManager A) : Game A :=
  fun st =>
    match m (scoreboard st) with
    | (sb, r) => (set_scoreboard sb st, r)
    end.

(** In-place updates of the dictionaries [self.players[k]] and
    [self.cards[k]]. *)
Definition update_player (k : nat) (f : PlayerData -> PlayerData) : Game unit :=
  modify (fun st => set_players (alter f k (players st)) st).

Definition update_card (k : nat) (f : CardData -> CardData) : Game unit :=
  modify (fun st => set_cards (alter f k (cards st)) st).

Definition start_game_players (names : list string) : list PlayerData :=
  map (fun n => {| name := n; score := 0; matches := 0; streak := 0 |}) names.

(** [start_level]; [deck] is the shuffled list of symbols,
    [SYMBOL_SETS[self.symbol_set][:self.total_pairs] * 2] after
    [random.shuffle].  The walk over [grid_size] rows of [grid_size] cells
    deals the first [grid_size * grid_size] of them, in order. *)
Definition start_level (deck : list string) : Game unit :=
  modify (set_cards []) ;;
  modify (set_flipped []) ;;
  modify (set_matched []) ;;
  modify (set_moves 0) ;;
  modify (fun st =>
    set_players (map (fun p => set_streak 0 (set_matches 0 p)) (players st)) st) ;;
  modify (set_current_player 0%nat) ;;
  update_stats ;;
  update_player_display ;;
  widget_call ;;                        (* clearing [self.grid_container] *)
  let* st := get in
  for_each (take (Z.to_nat (grid_size st) * Z.to_nat (grid_size st)) deck) (fun sym =>
    modify (fun st =>
      set_cards (cards st ++
        [ {| symbol := sym; is_flipped := false; is_matched := false |} ]) st)).

Definition flip_card (idx : nat) : Game unit :=
  let* st := get in
  if (length (cards st) <=? idx)%nat then ret tt
  else
    let* card := getitem (cards st) idx in
    if is_flipped card || is_matched card || (2 <=? length (flipped st))%nat
    then ret tt
    else
      widget_call ;;                    (* drawing the card face *)
      update_card idx (set_is_flipped true) ;;
      modify (fun st => set_flipped (flipped st ++ [idx]) st) ;;
      let* st := get in
      if (length (flipped st) =? 2)%nat then
        modify (fun st => set_moves (moves st + 1) st) ;;
        update_stats ;;
        let* id := after 600 CbCheckMatch in
        modify (set_check_id (Some id))
      else ret tt.

Definition check_match : Game unit :=
  let* st := get in
  match flipped st with
  | [idx1; idx2] =>
      let* card1 := getitem (cards st) idx1 in
      let* card2 := getitem (cards st) idx2 in
      (if String.eqb (symbol card1) (symbol card2) then
         update_card idx1 (set_is_matched true) ;;
         update_card idx2 (set_is_matched true) ;;
         modify (fun st => set_matched (matched st ++ [idx1; idx2]) st) ;;
         widget_call ;;                 (* drawing the matched state *)
         let* st := get in
         let k := current_player st in
         let* _ := getitem (players st) k in
         update_player k (fun p => set_matches (matches p + 1) p) ;;
         update_player k (fun p => set_streak (streak p + 1) p) ;;
         let base_score := 10 * current_level st in
         update_player k (fun p =>
           let streak_multiplier := 1 + floordiv (streak p) 3 in
           set_score (score p + base_score * streak_multiplier) p) ;;
         update_player_display ;;
         update_stats ;;
         let* st := get in
         if (length (cards st) <=? length (matched st))%nat then
           let* _ := after 500 CbLevelComplete in
           ret tt
         else ret tt
       else
         widget_call ;;                 (* the red flash *)
         let* st := get in
         let* _ := getitem (players st) (current_player st) in
         update_player (current_player st) (set_streak 0) ;;
         (if (1 <? num_players st)%nat then
            modify (fun st =>
              set_current_player ((current_player st + 1) `mod` num_players st)%nat st) ;;
            update_player_display
          else ret tt) ;;
         let* _ := after 400 (CbFlipBack idx1 idx2) in
         ret tt) ;;
      modify (set_flipped [])
  | _ => ret tt
  end.

Definition flip_back (idx1 idx2 : nat) : Game unit :=
  for_each [idx1; idx2] (fun i =>
    let* st := get in
    if (i <? length (cards st))%nat then
      update_card i (set_is_flipped false) ;;
      widget_call
    else ret tt).

Definition save_results (env : nat -> Scoreboard.Env) : Game unit :=
  let* st := get in
  for_each (enumerate (players st)) (fun ip =>
    let* st := get in
    let* _ := on_scoreboard
                (Scoreboard.add_score (env ip.1) "Memory Match" (name ip.2)
                                      (score ip.2) (current_level st)) in
    ret tt).

(** [level_complete]; [continue] is the answer to the yes/no dialog and
    [deck] the shuffle of the next level, should there be one. *)
Definition level_complete (continue : bool) (deck : list string)
    (env : nat -> Scoreboard.Env) : Game unit :=
  let* st := get in
  match LEVELS (current_level st) with
  | None => raise KeyError
  | Some cfg =>
      modify (fun st =>
        set_players
          (map (fun p => if 0 <? matches p then set_score (score p + bonus cfg) p else p)
               (players st)) st) ;;
      update_player_display ;;
      if current_level st <? LEVELS_len then
        if continue then
          modify (set_current_level (current_level st + 1)) ;;
          match LEVELS (current_level st + 1) with
          | None => raise KeyError
          | Some next =>
              modify (set_grid_size (grid next)) ;;
              modify (set_total_pairs (pairs next)) ;;
              start_level deck
          end
        else save_results env
      else save_results env
  end.

(** The players of this game carry no ['completed'] entry, so
    [completed == true] holds for none of them. *)
Definition completed (p : PlayerData) : bool := false.

(** The leaderboard entries [save_results] sends: one for every player. *)
Definition entries_for_all (env : nat -> Scoreboard.Env) (lv : Z)
    (ps : list (nat * PlayerData)) : list Scoreboard.Call :=
  map (fun ip => {| Scoreboard.call_env := env ip.1;
                    Scoreboard.call_game := "Memory Match";
                    Scoreboard.call_name := name ip.2;
                    Scoreboard.call_score := score ip.2;
                    Scoreboard.call_level := lv |}) ps.

(** The body [back_to_menu] and [destroy] share: they cancel the pending
    check and destroy the widgets; the class has no flag that marks a round
    as live.  [back_to_menu] then hands control to the menu through
    [on_back]. *)
Definition teardown : Game unit :=
  let* st := get in
  match check_id st with
  | Some id =>
      modify (fun st => set_parent (Tk.after_cancel id (parent st)) st) ;;
      modify (set_check_id None)
  | None => ret tt
  end ;;
  modify (fun st => set_parent (Tk.destroy_widgets (parent st)) st).

Definition back_to_menu : Game unit := teardown.

Definition destroy : Game unit := teardown.

(** The game object as [__init__] leaves it. *)
Definition init (sb : Scoreboard.ScoreboardManager) : MemoryMatchGame :=
  {| parent := {| Tk.next_id := 0; Tk.scheduled := []; Tk.widgets_alive := false |};
     cards := []; flipped := []; matched := []; moves := 0; check_id := None;
     num_players := 1; current_player := 0; players := [];
     current_level := 1; symbol_set := "Animals"; grid_size := 4; total_pairs := 8;
     scoreboard := sb |}.

(** The setup dialog's [start_game], with the names as read from the
    entry fields. *)
Definition start_game (names : list string) (theme : string) (lv : Z)
    (deck : list string) : Game unit :=
  modify (set_players (start_game_players names)) ;;
  modify (set_num_players (length names)) ;;
  modify (set_symbol_set theme) ;;
  modify (set_current_level lv) ;;
  match LEVELS lv with
  | None => raise KeyError
  | Some cfg =>
      modify (set_grid_size (grid cfg)) ;;
      modify (set_total_pairs (pairs cfg)) ;;
      (* [setup_ui] builds the widgets *)
      modify (fun st =>
        set_parent {| Tk.next_id := Tk.next_id (parent st);
                      Tk.scheduled := Tk.scheduled (parent st);
                      Tk.widgets_alive := true |} st) ;;
      start_level deck
  end.

(** What the event loop runs when a scheduled callback comes due;
    [continue], [deck] and [env] are what [level_complete] finds outside the
    game object. *)
Definition run_callback (continue : bool) (deck : list string)
    (env : nat -> Scoreboard.Env) (cb : Callback) : Game unit :=
  match cb with
  | CbCheckMatch => check_match
  | CbLevelComplete => level_complete continue deck env
  | CbFlipBack idx1 idx2 => flip_back idx1 idx2
  end.

(** The callbacks still scheduled, oldest first. *)
Definition pending (st : MemoryMatchGame) : list Callback :=
  map (fun e => e.2.2) (Tk.scheduled (parent st)).

(** The callback scheduled under [id] comes due. *)
Definition fire (continue : bool) (deck : list string) (env : nat -> Scoreboard.Env)
    (id : nat) : Game unit :=
  let* st := get in
  match Tk.take_due id (parent st) with
  | Some (cb, p) => modify (set_parent p) ;; run_callback continue deck env cb
  | None => ret tt
  end.

(** What can happen to a game in progress: a click on a card, the
    restart button, and the callbacks the event loop fires. *)
Inductive Op : Type :=
| OpFlipCard (idx : nat)
| OpCheckMatch
| OpFlipBack (idx1 idx2 : nat)
| OpLevelComplete (continue : bool) (deck : list string) (env : nat -> Scoreboard.Env)
| OpStartLevel (deck : list string).

Definition run_op (o : Op) : Game unit :=
  match o with
  | OpFlipCard idx => flip_card idx
  | OpCheckMatch => check_match
  | OpFlipBack idx1 idx2 => flip_back idx1 idx2
  | OpLevelComplete continue deck env => level_complete continue deck env
  | OpStartLevel deck => start_level deck
  end.

(** The event loop reports an exception of a callback and carries on. *)
Definition step (o : Op) (st : MemoryMatchGame) : MemoryMatchGame :=
  state_of (run_op o st).

(** What a game has seen, as far as streaks go. *)
Inductive Event : Set :=
| Matched (k : nat)      (* [check_match] found a pair while it was player [k]'s turn *)
| Missed (k : nat)       (* [check_match] found two different cards *)
| LevelStarted.          (* [start_level] ran: game start, restart, next level *)

(** The events one operation adds, read off the branch the code takes:
    [check_match] compares the symbols only when exactly two cards are
    turned up and both indices are in range; [level_complete] calls
    [start_level] only on the way to a next level. *)
Definition events_of (o : Op) (st : MemoryMatchGame) : list Event :=
  match o with
  | OpCheckMatch =>
      match flipped st with
      | [idx1; idx2] =>
          match cards st !! idx1, cards st !! idx2 with
          | Some card1, Some card2 =>
              if String.eqb (symbol card1) (symbol card2)
              then [Matched (current_player st)]
              else [Missed (current_player st)]
          | _, _ => []
          end
      | _ => []
      end
  | OpStartLevel _ => [LevelStarted]
  | OpLevelComplete continue _ _ =>
      match LEVELS (current_level st) with
      | Some _ =>
          if (current_level st <? LEVELS_len) && continue then
            match LEVELS (current_level st + 1) with
            | Some _ => [LevelStarted]
            | None => []
            end
          else []
      | None => []
      end
  | OpFlipCard _ | OpFlipBack _ _ => []
  end.

(** A run of operations, with the events it adds; the latest event comes
    first. *)
Definition play_log (ops : list Op) (sl : MemoryMatchGame * list Event)
    : MemoryMatchGame * list Event :=
  foldl (fun sl o => (step o sl.1, events_of o sl.1 ++ sl.2)) sl ops.

(** A game from the setup dialog on; [start_game] reaches [start_level]
    when the level is one of the table. *)
Definition session_log (sb : Scoreboard.ScoreboardManager) (names : list string)
    (theme : string) (lv : Z) (deck : list string) (ops : list Op)
    : MemoryMatchGame * list Event :=
  play_log ops (state_of (start_game names theme lv deck (init sb)),
                match LEVELS lv with Some _ => [LevelStarted] | None => [] end).

(** In the words of the specification: player [k]'s consecutive matches
    since their last mismatch. *)
Fixpoint matches_in_a_row (k : nat) (log : list Event) : Z :=
  match log with
  | [] => 0
  | Matched j :: log' =>
      if decide (j = k) then 1 + matches_in_a_row k log' else matches_in_a_row k log'
  | Missed j :: log' =>
      if decide (j = k) then 0 else matches_in_a_row k log'
  | LevelStarted :: log' => matches_in_a_row k log'
  end.

(** The same count, ended by the start of a level as well. *)
Fixpoint matches_in_a_row_in_level (k : nat) (log : list Event) : Z :=
  match log with
  | [] => 0
  | Matched j :: log' =>
      if decide (j = k) then 1 + matches_in_a_row_in_level k log'
      else matches_in_a_row_in_level k log'
  | Missed j :: log' =>
      if decide (j = k) then 0 else matches_in_a_row_in_level k log'
  | LevelStarted :: _ => 0
  end.

End MemoryMatch.

(** ** Sample sessions *)

Module Samples.
Import Py.

Definition env0 : Scoreboard.Env :=
  {| Scoreboard.now := "2024-05-01 10:00"; Scoreboard.write := Scoreboard.Written |}.

(** The same moment, with [scores.json] on a medium that cannot be written. *)
Definition env_read_only : Scoreboard.Env :=
  {| Scoreboard.now := "2024-05-01 10:00"; Scoreboard.write := Scoreboard.OpenRaises |}.

(** The store of a first launch: no [scores.json] yet. *)
Definition fresh_board : Scoreboard.ScoreboardManager :=
  state_of (Scoreboard.init Scoreboard.Missing).

Definition call (g n : string) (s lv : Z) : Scoreboard.Call :=
  {| Scoreboard.call_env := env0; Scoreboard.call_game := g;
     Scoreboard.call_name := n; Scoreboard.call_score := s;
     Scoreboard.call_level := lv |}.

(** Twelve results for one title, ties included, and one for a title the
    store does not know. *)
Definition calls : list Scoreboard.Call :=
  [call "Number Rush" "Ann" 6000 3; call "Number Rush" "Bob" 1200 1;
   call "Number Rush" "Cy" 6000 5; call "Number Rush" "Dee" 300 2;
   call "Chess" "Eve" 9999 1; call "Number Rush" "Fay" 6000 3;
   call "Number Rush" "Gus" 0 1; call "Number Rush" "Hal" 4500 4;
   call "Number Rush" "Ida" 4500 2; call "Number Rush" "Jo" 7000 1;
   call "Number Rush" "Kim" 10 1; call "Number Rush" "Lee" 20 1;
   call "Number Rush" "Mo" 30 1].

(** The store after the first three of them. *)
Definition three_results : Scoreboard.ScoreboardManager :=
  Scoreboard.run_calls (take 3 calls) fresh_board.

(** Ann alone at level 3 of the ordered-click game; the round starts when
    the clock reads 100.0 and the numbers happen to stay in order. *)
Definition nr_started : NumberRush.NumberRushGame :=
  state_of (NumberRush.start_game ["Ann"] 3 (float_of_int 100) (fun l => l)
              (fun _ => env0) (NumberRush.init fresh_board)).

(** She clicks 1 to 25 in order, the last one when the clock reads 105.0. *)
Definition nr_finished : NumberRush.NumberRushGame :=
  run_all (map (NumberRush.number_clicked (float_of_int 105) (fun _ => env0))
               (range_from_1 25)) nr_started.

(** The same session as a series of operations. *)
Definition nr_ops : list NumberRush.Op :=
  map (NumberRush.OpNumberClicked (float_of_int 105) (fun _ => env0)) (range_from_1 25).

Definition nr_session : NumberRush.NumberRushGame :=
  NumberRush.session fresh_board ["Ann"] 3 (float_of_int 100) (fun l => l)
    (fun _ => env0) nr_ops.

(** Cy alone at level 1 of the discrimination game lets the 45 seconds run
    out: the round starts with the first tick, 44 more bring the time to 0
    and the next one ends the round. *)
Definition cb_ops : list ColorBlast.Op :=
  replicate 45 (ColorBlast.OpCountdown (fun _ => env0)).

Definition cb_session : ColorBlast.ColorBlastGame :=
  ColorBlast.session fresh_board ["Cy"] 1 0 (fun _ => env0) cb_ops.

(** She leaves for the menu in the middle of the round instead. *)
Definition nr_left : NumberRush.NumberRushGame :=
  state_of (NumberRush.back_to_menu nr_started).

(** Ann and Bob at level 2 of the discrimination game; Ann leaves for the
    menu in the middle of her round. *)
Definition cb_left : ColorBlast.ColorBlastGame :=
  run_all [ColorBlast.check_answer 2; ColorBlast.back_to_menu]
    (state_of (ColorBlast.start_game ["Ann"; "Bob"] 2 2 (fun _ => env0)
                 (ColorBlast.init fresh_board))).

(** Ann and Bob at level 2 of the discrimination game; the right answer
    is on the third button throughout. *)
Definition cb_started : ColorBlast.ColorBlastGame :=
  state_of (ColorBlast.start_game ["Ann"; "Bob"] 2 2 (fun _ => env0)
              (ColorBlast.init fresh_board)).

(** Ann has given one right answer. *)
Definition cb_answered : ColorBlast.ColorBlastGame :=
  state_of (ColorBlast.check_answer 2 cb_started).

(** Level 1 of the matching game deals sixteen cards. *)
Definition deck16 : list string :=
  ["🐶"; "🐶"; "🐱"; "🐭"; "🐱"; "🐭"; "🐹"; "🐹";
   "🐰"; "🐰"; "🦊"; "🦊"; "🐻"; "🐻"; "🐼"; "🐼"].

(** Ann and Bob at level 1 of the matching game. *)
Definition mm_started : MemoryMatch.MemoryMatchGame :=
  state_of (MemoryMatch.start_game ["Ann"; "Bob"] "Animals" 1 deck16
              (MemoryMatch.init fresh_board)).

(** Ann has turned up a dog and a cat; the check is still to come. *)
Definition mm_dog_and_cat_up : MemoryMatch.MemoryMatchGame :=
  run_all [MemoryMatch.flip_card 0; MemoryMatch.flip_card 2] mm_started.

(** Ann turns up a dog and a cat: her turn passes to Bob. *)
Definition mm_ann_missed : MemoryMatch.MemoryMatchGame :=
  run_all [MemoryMatch.flip_card 0; MemoryMatch.flip_card 2; MemoryMatch.check_match;
           MemoryMatch.flip_back 0 2] mm_started.

(** Bob turns up a mouse and a hamster: the turn passes on. *)
Definition mm_bob_missed : MemoryMatch.MemoryMatchGame :=
  run_all [MemoryMatch.flip_card 3; MemoryMatch.flip_card 6; MemoryMatch.check_match;
           MemoryMatch.flip_back 3 6] mm_ann_missed.

(** Ann and Bob at level 2; Ann has found three pairs in a row, and then
    finds a fourth. *)
Definition mm2_three_in_a_row : MemoryMatch.MemoryMatchGame :=
  run_all [MemoryMatch.flip_card 0; MemoryMatch.flip_card 1; MemoryMatch.check_match;
           MemoryMatch.flip_card 2; MemoryMatch.flip_card 4; MemoryMatch.check_match;
           MemoryMatch.flip_card 3; MemoryMatch.flip_card 5; MemoryMatch.check_match]
          (state_of (MemoryMatch.start_game ["Ann"; "Bob"] "Animals" 2 deck16
                       (MemoryMatch.init fresh_board))).

(** The two hamsters are up, the check is still to come. *)
Definition mm2_hamsters_up : MemoryMatch.MemoryMatchGame :=
  run_all [MemoryMatch.flip_card 6; MemoryMatch.flip_card 7] mm2_three_in_a_row.


(** Ann finds all eight pairs in a row, so Bob never gets a turn. *)
Definition mm_ann_clears_board : MemoryMatch.MemoryMatchGame :=
  run_all [MemoryMatch.flip_card 0; MemoryMatch.flip_card 1; MemoryMatch.check_match;
           MemoryMatch.flip_card 2; MemoryMatch.flip_card 4; MemoryMatch.check_match;
           MemoryMatch.flip_card 3; MemoryMatch.flip_card 5; MemoryMatch.check_match;
           MemoryMatch.flip_card 6; MemoryMatch.flip_card 7; MemoryMatch.check_match;
           MemoryMatch.flip_card 8; MemoryMatch.flip_card 9; MemoryMatch.check_match;
           MemoryMatch.flip_card 10; MemoryMatch.flip_card 11; MemoryMatch.check_match;
           MemoryMatch.flip_card 12; MemoryMatch.flip_card 13; MemoryMatch.check_match;
           MemoryMatch.flip_card 14; MemoryMatch.flip_card 15; MemoryMatch.check_match]
          mm_started.

(** Ann and Bob at level 2: Ann finds three pairs in a row, then a
    fourth. *)
Definition mm2_ops : list MemoryMatch.Op :=
  [MemoryMatch.OpFlipCard 0; MemoryMatch.OpFlipCard 1; MemoryMatch.OpCheckMatch;
   MemoryMatch.OpFlipCard 2; MemoryMatch.OpFlipCard 4; MemoryMatch.OpCheckMatch;
   MemoryMatch.OpFlipCard 3; MemoryMatch.OpFlipCard 5; MemoryMatch.OpCheckMatch;
   MemoryMatch.OpFlipCard 6; MemoryMatch.OpFlipCard 7].

(** The same three pairs, then the restart button, then the two dogs
    again: Ann's fourth match without a miss. *)
Definition mm2_ops_restart : list MemoryMatch.Op :=
  [MemoryMatch.OpFlipCard 0; MemoryMatch.OpFlipCard 1; MemoryMatch.OpCheckMatch;
   MemoryMatch.OpFlipCard 2; MemoryMatch.OpFlipCard 4; MemoryMatch.OpCheckMatch;
   MemoryMatch.OpFlipCard 3; MemoryMatch.OpFlipCard 5; MemoryMatch.OpCheckMatch;
   MemoryMatch.OpStartLevel deck16;
   MemoryMatch.OpFlipCard 0; MemoryMatch.OpFlipCard 1].

Definition mm2_fourth_up : MemoryMatch.MemoryMatchGame * list MemoryMatch.Event :=
  MemoryMatch.session_log fresh_board ["Ann"; "Bob"] "Animals" 2 deck16 mm2_ops.

Definition mm2_fourth_up_after_restart
    : MemoryMatch.MemoryMatchGame * list MemoryMatch.Event :=
  MemoryMatch.session_log fresh_board ["Ann"; "Bob"] "Animals" 2 deck16 mm2_ops_restart.

(** Ann clicks 7 when 1 is expected and leaves for the menu before the
    red flash has ended. *)
Definition nr_left_in_flash : NumberRush.NumberRushGame :=
  run_all [NumberRush.number_clicked (float_of_int 101) (fun _ => env0) 7;
           NumberRush.back_to_menu] nr_started.

(** The callbacks of the matching game in these sessions come due with
    nothing to be asked and no deck to deal. *)
Definition mm_fire (id : nat) : MemoryMatch.Game unit :=
  MemoryMatch.fire false [] (fun _ => env0) id.

(** Ann turns up a dog and a cat, the check comes due and finds them
    different, and she leaves for the menu before the cards have been turned
    back. *)
Definition mm_left_after_miss : MemoryMatch.MemoryMatchGame :=
  run_all [MemoryMatch.flip_card 0; MemoryMatch.flip_card 2; mm_fire 0;
           MemoryMatch.back_to_menu] mm_started.

(** Ann finds all eight pairs, each check coming due in its turn, and
    leaves for the menu before the level has been declared complete. *)
Definition mm_left_after_last_pair : MemoryMatch.MemoryMatchGame :=
  run_all [MemoryMatch.flip_card 0; MemoryMatch.flip_card 1; mm_fire 0;
           MemoryMatch.flip_card 2; MemoryMatch.flip_card 4; mm_fire 1;
           MemoryMatch.flip_card 3; MemoryMatch.flip_card 5; mm_fire 2;
           MemoryMatch.flip_card 6; MemoryMatch.flip_card 7; mm_fire 3;
           MemoryMatch.flip_card 8; MemoryMatch.flip_card 9; mm_fire 4;
           MemoryMatch.flip_card 10; MemoryMatch.flip_card 11; mm_fire 5;
           MemoryMatch.flip_card 12; MemoryMatch.flip_card 13; mm_fire 6;
           MemoryMatch.flip_card 14; MemoryMatch.flip_card 15; mm_fire 7;
           MemoryMatch.back_to_menu] mm_started.


End Samples.

(** * Properties *)

(** ** Loops *)

Section PyFacts.
Import Py.

Lemma for_each_modify {S A} (f : A -> S -> S) (xs : list A) (s : S) :
  for_each xs (fun x s => (f x s, Returned tt)) s
  = (foldl (fun s x => f x s) s xs, Returned tt).
Proof.
  revert s. induction xs as [|x xs IH]; intros s; simpl; [done|].
  unfold bind. apply IH.
Qed.

Lemma foldl_preserves {S A B} (proj : S -> B) (f : A -> S -> S) (xs : list A) (s : S) :
  (forall x s, proj (f x s) = proj s) ->
  proj (foldl (fun s x => f x s) s xs) = proj s.
Proof.
  intros H. revert s. induction xs as [|x xs IH]; intros s; simpl; [done|].
  by rewrite IH, H.
Qed.

Section Keeps.
Context {S T : Type} (view : S -> T).

Lemma keeps_ret {A} (a : A) : keeps view (ret a).
Proof. by intros s. Qed.

Lemma keeps_raise {A} (e : exn) : keeps view (raise (A := A) e).
Proof. by intros s. Qed.

Lemma keeps_get : keeps view get.
Proof. by intros s. Qed.

Lemma keeps_modify (f : S -> S) :
  (forall s, view (f s) = view s) -> keeps view (modify f).
Proof. intros H s. apply H. Qed.

Lemma keeps_bind {A B} (m : M S A) (k : A -> M S B) :
  keeps view m -> (forall a, keeps view (k a)) -> keeps view (bind m k).
Proof.
  unfold keeps, bind, state_of. intros Hm Hk s.
  specialize (Hm s). destruct (m s) as [s' [a|e]]; simpl in *; [|done].
  by rewrite Hk.
Qed.

Lemma keeps_for_each {A} (xs : list A) (body : A -> M S unit) :
  (forall x, keeps view (body x)) -> keeps view (for_each xs body).
Proof.
  intros H. induction xs as [|x xs IH]; simpl; [apply keeps_ret|].
  apply keeps_bind; [apply H | by intros _].
Qed.

(** After a prefix that keeps the view, what matters is the rest. *)
Lemma bind_after_keeps {A B} (m : M S A) (k : A -> M S B) (Q : T -> Prop) (s : S) :
  keeps view m ->
  Q (view s) ->
  (forall a s', view s' = view s -> Q (view (state_of (k a s')))) ->
  Q (view (state_of (bind m k s))).
Proof.
  unfold keeps, bind, state_of. intros Hm Hs Hk.
  specialize (Hm s). destruct (m s) as [s' [a|e]]; simpl in *.
  - by apply Hk.
  - by rewrite Hm.
Qed.

End Keeps.

Lemma drop_cons_inv {A} (l : list A) (n : nat) (x : A) (rest : list A) :
  drop n l = x :: rest -> l !! n = Some x /\ drop (S n) l = rest.
Proof.
  revert n. induction l as [|y l IH]; intros [|n]; simpl; try discriminate.
  - intros [= -> ->]. split; [done|]. by rewrite drop_0.
  - intros H. by apply IH.
Qed.

(** Updating the dictionary at index [k] in place. *)
Lemma alter_as_insert {A} (f : A -> A) (k : nat) (l : list A) (x : A) :
  l !! k = Some x -> alter f k l = <[k := f x]> l.
Proof.
  intros H. apply list_eq. intros i.
  destruct (decide (i = k)) as [->|Hne].
  - rewrite list_lookup_alter_eq, H. simpl.
    symmetry. apply list_lookup_insert_eq. by eapply lookup_lt_Some.
  - rewrite list_lookup_alter_ne, list_lookup_insert_ne; done.
Qed.

Lemma alter_insert {A} (f : A -> A) (k : nat) (l : list A) (x : A) :
  (k < length l)%nat -> alter f k (<[k := x]> l) = <[k := f x]> l.
Proof.
  intros H. rewrite (alter_as_insert f k _ x).
  - by rewrite list_insert_insert_eq.
  - by apply list_lookup_insert_eq.
Qed.

End PyFacts.

(** ** The leaderboard store *)

Section ScoreboardFacts.
Import Py Scoreboard.

Lemma key_ltb_false_ranks (x y : PlayerScore) :
  key_ltb (key x) (key y) = false -> ranks_before x y.
Proof.
  unfold key_ltb, ranks_before, key; simpl. intros H.
  apply orb_false_iff in H as [H1 H2].
  apply Z.ltb_ge in H1.
  apply andb_false_iff in H2 as [H2|H2].
  - apply Z.eqb_neq in H2. lia.
  - apply Z.ltb_ge in H2. lia.
Qed.

Lemma key_ltb_true_ranks (x y : PlayerScore) :
  key_ltb (key x) (key y) = true -> ranks_before y x.
Proof.
  unfold key_ltb, ranks_before, key; simpl. intros H.
  apply orb_true_iff in H as [H|H].
  - apply Z.ltb_lt in H. lia.
  - apply andb_true_iff in H as [H1 H2].
    apply Z.eqb_eq in H1. apply Z.ltb_lt in H2. lia.
Qed.

Lemma ranks_before_trans (a b c : PlayerScore) :
  ranks_before a b -> ranks_before b c -> ranks_before a c.
Proof. unfold ranks_before. lia. Qed.

Lemma insert_desc_perm x l : Permutation (insert_desc x l) (x :: l).
Proof.
  induction l as [|y l IH]; simpl; [reflexivity|].
  destruct (key_ltb (key x) (key y)); [|reflexivity].
  rewrite IH. apply perm_swap.
Qed.

Lemma sort_desc_perm l : Permutation (sort_desc l) l.
Proof.
  induction l as [|x l IH]; simpl; [reflexivity|].
  rewrite insert_desc_perm. by constructor.
Qed.

Lemma insert_desc_sorted x l :
  StronglySorted ranks_before l -> StronglySorted ranks_before (insert_desc x l).
Proof.
  induction 1 as [|y l Hl IH Hy]; simpl.
  - repeat constructor.
  - destruct (key_ltb (key x) (key y)) eqn:E.
    + constructor; [exact IH|].
      eapply Permutation_Forall; [symmetry; apply insert_desc_perm|].
      constructor; [by apply key_ltb_true_ranks | exact Hy].
    + apply key_ltb_false_ranks in E.
      constructor; [by constructor|].
      constructor; [exact E|].
      eapply Forall_impl; [exact Hy|].
      intros z Hz. by eapply ranks_before_trans.
Qed.

Lemma sort_desc_sorted l : StronglySorted ranks_before (sort_desc l).
Proof.
  induction l as [|x l IH]; simpl; [constructor|].
  by apply insert_desc_sorted.
Qed.

Lemma take_sorted n (l : list PlayerScore) :
  StronglySorted ranks_before l -> StronglySorted ranks_before (take n l).
Proof.
  intros H. revert n. induction H as [|y l Hl IH Hy]; intros [|n]; simpl;
    try constructor.
  - apply IH.
  - apply Forall_take. exact Hy.
Qed.

Lemma slice_to_10_ranked l : ranked (slice_to 10 (sort_desc l)).
Proof.
  unfold ranked, slice_to; simpl. split.
  - apply take_sorted, sort_desc_sorted.
  - rewrite length_take. lia.
Qed.

Lemma store_ok_known_games f : store_ok {| scores := known_games; SCORES_FILE := f |}.
Proof.
  intros g l; simpl. unfold known_games. intros H.
  repeat (apply lookup_insert_Some in H as [[_ <-]|[_ H]];
          [split; [constructor | simpl; lia]|]).
  by rewrite lookup_empty in H.
Qed.

Lemma save_scores_scores env st : scores (state_of (save_scores env st)) = scores st.
Proof. unfold save_scores, try_except, bind, modify, raise, ret. by destruct (write env). Qed.

Lemma save_scores_returns env st : result_of (save_scores env st) = Returned tt.
Proof. unfold save_scores, try_except, bind, modify, raise, ret. by destruct (write env). Qed.

(** What [add_score] leaves in the mapping, for a known and for an unknown
    title. *)
Lemma add_score_scores env g n s lv st :
  scores (state_of (add_score env g n s lv st)) =
    match scores st !! g with
    | None => scores st
    | Some entries =>
        <[g := slice_to 10 (sort_desc (entries ++
                 [ {| name := n; score := s; level := lv;
                      timestamp := now env; game := g |} ]))]> (scores st)
    end.
Proof.
  unfold add_score, bind, get. destruct (scores st !! g) as [entries|]; [|done].
  unfold modify at 1.
  destruct (save_scores env _) as [st' r] eqn:E.
  pose proof (save_scores_scores env (set_scores (<[g := slice_to 10 (sort_desc (entries ++
                 [ {| name := n; score := s; level := lv;
                      timestamp := now env; game := g |} ]))]> (scores st)) st)) as Hs.
  pose proof (save_scores_returns env (set_scores (<[g := slice_to 10 (sort_desc (entries ++
                 [ {| name := n; score := s; level := lv;
                      timestamp := now env; game := g |} ]))]> (scores st)) st)) as Hr.
  rewrite E in Hs, Hr. simpl in Hs, Hr. subst r. simpl. exact Hs.
Qed.

Lemma do_call_ok c st : store_ok st -> store_ok (do_call c st).
Proof.
  intros Hok g l. unfold do_call. rewrite add_score_scores.
  destruct (scores st !! call_game c) as [entries|] eqn:E; [|apply Hok].
  intros [[_ <-]|[_ H]]%lookup_insert_Some.
  - apply slice_to_10_ranked.
  - by apply (Hok g).
Qed.

Lemma do_call_file c st :
  SCORES_FILE (do_call c st) = SCORES_FILE st
  \/ SCORES_FILE (do_call c st) = Json (scores (do_call c st))
  \/ SCORES_FILE (do_call c st) = Corrupt.
Proof.
  unfold do_call, add_score, save_scores, try_except, bind, get, modify, raise, ret,
    state_of.
  destruct (scores st !! call_game c) as [entries|]; [|by left].
  destruct (write (call_env c)); simpl; auto.
Qed.

Lemma init_ok f :
  file_ok f -> store_ok (state_of (init f)) /\ file_ok (SCORES_FILE (state_of (init f))).
Proof.
  intros Hf. destruct f as [| | |m]; simpl in *;
    try (split; [apply store_ok_known_games|done]).
  by split.
Qed.

Lemma do_call_keeps_file_ok c st :
  store_ok st -> file_ok (SCORES_FILE st) -> file_ok (SCORES_FILE (do_call c st)).
Proof.
  intros Hs Hf. destruct (do_call_file c st) as [-> | [-> | ->]]; [done| |done].
  simpl. by apply do_call_ok.
Qed.

Lemma states_after_ok cs st : store_ok st -> Forall store_ok (states_after cs st).
Proof.
  revert st. induction cs as [|c cs IH]; intros st Hok; simpl.
  - constructor.
  - constructor; [by apply do_call_ok|]. apply IH. by apply do_call_ok.
Qed.

Lemma run_calls_ok cs st :
  store_ok st -> file_ok (SCORES_FILE st) ->
  store_ok (run_calls cs st) /\ file_ok (SCORES_FILE (run_calls cs st)).
Proof.
  revert st. induction cs as [|c cs IH]; intros st Hs Hf; simpl; [done|].
  apply IH; [by apply do_call_ok | by apply do_call_keeps_file_ok].
Qed.

Lemma launches_ok runs f : file_ok f -> Forall store_ok (launches runs f).
Proof.
  revert f. induction runs as [|cs runs IH]; intros f Hf; simpl; [constructor|].
  destruct (init_ok f Hf) as [Hs0 Hf0].
  constructor; [exact Hs0|].
  apply Forall_app. split; [by apply states_after_ok|].
  apply IH. by apply run_calls_ok.
Qed.

(** C1. After every [add_score] call the list of the title it was called
    with is sorted by (score, level) descending and holds at most 10
    entries, whatever the store held before; from a store whose lists are
    all so ranked, the lists of all titles are ranked after each call of any
    run of calls; and such are all the stores the program ever holds, over
    any number of launches that begin without a [scores.json] and each read
    the file the previous one wrote. *)
Theorem add_score_keeps_ranking :
  (forall st env g n s lv,
      is_Some (scores st !! g) ->
      exists l, scores (state_of (add_score env g n s lv st)) !! g = Some l /\ ranked l)
  /\ (forall st cs, store_ok st -> Forall store_ok (states_after cs st))
  /\ (forall runs, Forall store_ok (launches runs Missing)).
Proof.
  split; [|split].
  - intros st env g n s lv [entries E].
    rewrite add_score_scores, E. eexists. split.
    + apply lookup_insert_eq.
    + apply slice_to_10_ranked.
  - intros st cs. apply states_after_ok.
  - intros runs. by apply launches_ok.
Qed.

(** C7. Constructing the store when [scores.json] is missing, cannot be
    opened, or does not parse returns normally, and each of the three
    known titles then maps to the empty list. *)
Theorem init_without_usable_file (f : File) :
  f = Missing \/ f = Unreadable \/ f = Corrupt ->
  result_of (init f) = Returned tt
  /\ scores (state_of (init f)) !! "Memory Match" = Some []
  /\ scores (state_of (init f)) !! "Number Rush" = Some []
  /\ scores (state_of (init f)) !! "Color Blast" = Some [].
Proof. intros [->|[->| ->]]; by vm_compute. Qed.

Lemma slice_to_nonneg {A} (limit : Z) (l : list A) :
  0 <= limit -> slice_to limit l = take (Z.to_nat limit `min` length l) l.
Proof.
  intros H. unfold slice_to. destruct (0 <=? limit) eqn:E; [|lia].
  destruct (Nat.min_spec (Z.to_nat limit) (length l)) as [[Hlt ->]|[Hge ->]]; [done|].
  rewrite !take_ge; [done| lia | lia].
Qed.

(** C8. For a limit that is not negative, [get_top_scores] returns the
    first [min limit length] entries of the title's stored list (so the
    highest first when the list is ranked), the empty list for a title
    that is unknown or has no entries, returns normally, and leaves the
    store as it was; two calls in a row give the same list. *)
Theorem get_top_scores_prefix st g limit :
  0 <= limit ->
  let l := default [] (scores st !! g) in
  let top := take (Z.to_nat limit `min` length l) l in
  get_top_scores g limit st = (st, Returned top)
  /\ (scores st !! g = None \/ scores st !! g = Some [] -> top = [])
  /\ (StronglySorted ranks_before l -> StronglySorted ranks_before top)
  /\ (let* a := get_top_scores g limit in
      let* b := get_top_scores g limit in
      ret (a, b)) st = (st, Returned (top, top)).
Proof.
  intros Hlim l top.
  assert (Hget : get_top_scores g limit st = (st, Returned top)).
  { unfold get_top_scores, bind, get, ret. by rewrite slice_to_nonneg. }
  split; [exact Hget|]. split; [|split].
  - subst top l. intros [->| ->]; simpl; by rewrite take_nil.
  - apply take_sorted.
  - unfold bind at 1. rewrite Hget. unfold bind. by rewrite Hget.
Qed.

Lemma add_score_result st env g n s lv :
  (scores st !! g = None -> add_score env g n s lv st = (st, Returned false))
  /\ (is_Some (scores st !! g) ->
      result_of (add_score env g n s lv st) = Returned true).
Proof.
  split.
  - intros E. unfold add_score, bind, get. by rewrite E.
  - intros [entries E]. unfold add_score, bind, get. rewrite E.
    unfold modify at 1.
    match goal with |- context [save_scores env ?s] =>
      pose proof (save_scores_returns env s) as Hr;
      destruct (save_scores env s) as [st' r] end.
    simpl in Hr. by subst r.
Qed.

(** C10. [add_score] with a title that is not a key of the mapping
    returns [False] and changes neither the mapping nor the file; with a
    title that is a key it returns [True]. *)
Theorem add_score_unknown_game st env g n s lv :
  (scores st !! g = None -> add_score env g n s lv st = (st, Returned false))
  /\ (is_Some (scores st !! g) ->
      result_of (add_score env g n s lv st) = Returned true).
Proof. apply add_score_result. Qed.

Lemma add_score_keeps_ranking_witness :
  is_Some (scores Samples.fresh_board !! "Number Rush")
  /\ (exists l,
        scores (state_of (add_score Samples.env0 "Number Rush" "Ann" 6000 3
                            Samples.fresh_board)) !! "Number Rush" = Some l
        /\ ranked l)
  /\ store_ok Samples.fresh_board
  /\ Forall store_ok (states_after Samples.calls Samples.fresh_board).
Proof.
  assert (H1 : is_Some (scores Samples.fresh_board !! "Number Rush")).
  { exists []. reflexivity. }
  assert (H2 : store_ok Samples.fresh_board).
  { exact (store_ok_known_games Missing). }
  split; [exact H1|]. split.
  - exact (proj1 add_score_keeps_ranking Samples.fresh_board Samples.env0
             "Number Rush" "Ann" 6000 3 H1).
  - split; [exact H2|].
    exact (proj1 (proj2 add_score_keeps_ranking) Samples.fresh_board Samples.calls H2).
Defined.

Lemma init_without_usable_file_witness :
  result_of (init Corrupt) = Returned tt
  /\ scores (state_of (init Corrupt)) !! "Memory Match" = Some []
  /\ scores (state_of (init Corrupt)) !! "Number Rush" = Some []
  /\ scores (state_of (init Corrupt)) !! "Color Blast" = Some [].
Proof.
  exact (init_without_usable_file Corrupt (or_intror (or_intror eq_refl))).
Defined.

Lemma get_top_scores_prefix_witness :
  0 <= 3
  /\ get_top_scores "Number Rush" 3 (run_calls Samples.calls Samples.fresh_board)
     = (run_calls Samples.calls Samples.fresh_board,
        Returned (take 3 (default [] (scores (run_calls Samples.calls Samples.fresh_board)
                                        !! "Number Rush"))))
  /\ map name (take 3 (default [] (scores (run_calls Samples.calls Samples.fresh_board)
                                     !! "Number Rush")))
     = ["Jo"; "Cy"; "Ann"].
Proof.
  assert (H : 0 <= 3) by lia.
  split; [exact H|]. split.
  - exact (proj1 (get_top_scores_prefix (run_calls Samples.calls Samples.fresh_board)
                    "Number Rush" 3 H)).
  - reflexivity.
Defined.

Lemma add_score_unknown_game_witness :
  scores Samples.fresh_board !! "Chess" = None
  /\ add_score Samples.env0 "Chess" "Eve" 9999 1 Samples.fresh_board
     = (Samples.fresh_board, Returned false)
  /\ is_Some (scores Samples.fresh_board !! "Color Blast")
  /\ result_of (add_score Samples.env0 "Color Blast" "Eve" 90 1 Samples.fresh_board)
     = Returned true.
Proof.
  assert (H1 : scores Samples.fresh_board !! "Chess" = None) by reflexivity.
  assert (H2 : is_Some (scores Samples.fresh_board !! "Color Blast")).
  { exists []. reflexivity. }
  split; [exact H1|]. split.
  - exact (proj1 (add_score_unknown_game Samples.fresh_board Samples.env0
                    "Chess" "Eve" 9999 1) H1).
  - split; [exact H2|].
    exact (proj2 (add_score_unknown_game Samples.fresh_board Samples.env0
                    "Color Blast" "Eve" 90 1) H2).
Defined.

End ScoreboardFacts.

(** ** Tactics for running the monad *)

(** ** Display updates

    The label updates are guarded against destroyed widgets: they return
    normally and leave the game object as it was. *)

Section Display.
Import Py.

Lemma for_each_noop {S A} (xs : list A) (m : M S unit) (s : S) :
  (forall s, m s = (s, Returned tt)) ->
  for_each xs (fun _ => m) s = (s, Returned tt).
Proof.
  intros H. induction xs as [|x xs IH]; simpl; [done|].
  unfold bind. by rewrite H.
Qed.

Lemma nr_guarded_widget_call st :
  NumberRush.guarded_widget_call st = (st, Returned tt).
Proof.
  unfold NumberRush.guarded_widget_call, NumberRush.widget_call, try_except_TclError,
    bind, get, ret, raise.
  by destruct (Tk.widgets_alive (NumberRush.parent st)).
Qed.

Lemma nr_update_display st : NumberRush.update_display st = (st, Returned tt).
Proof. apply nr_guarded_widget_call. Qed.

Lemma nr_update_player_display st :
  NumberRush.update_player_display st = (st, Returned tt).
Proof.
  unfold NumberRush.update_player_display, bind, get.
  apply for_each_noop, nr_guarded_widget_call.
Qed.

Lemma cb_guarded_widget_call st :
  ColorBlast.guarded_widget_call st = (st, Returned tt).
Proof.
  unfold ColorBlast.guarded_widget_call, ColorBlast.widget_call, try_except_TclError,
    bind, get, ret, raise.
  by destruct (Tk.widgets_alive (ColorBlast.parent st)).
Qed.

Lemma cb_update_stats st : ColorBlast.update_stats st = (st, Returned tt).
Proof. apply cb_guarded_widget_call. Qed.

Lemma cb_update_player_display st :
  ColorBlast.update_player_display st = (st, Returned tt).
Proof.
  unfold ColorBlast.update_player_display, bind, get.
  apply for_each_noop, cb_guarded_widget_call.
Qed.

Lemma mm_guarded_widget_call st :
  MemoryMatch.guarded_widget_call st = (st, Returned tt).
Proof.
  unfold MemoryMatch.guarded_widget_call, MemoryMatch.widget_call, try_except_TclError,
    bind, get, ret, raise.
  by destruct (Tk.widgets_alive (MemoryMatch.parent st)).
Qed.

Lemma mm_update_stats st : MemoryMatch.update_stats st = (st, Returned tt).
Proof. apply mm_guarded_widget_call. Qed.

Lemma mm_update_player_display st :
  MemoryMatch.update_player_display st = (st, Returned tt).
Proof.
  unfold MemoryMatch.update_player_display, bind, get.
  apply for_each_noop, mm_guarded_widget_call.
Qed.

Lemma nr_timer_label_shown st :
  try_except_TclError (NumberRush.widget_call ;; ret true) (ret false) st
  = (st, Returned (Tk.widgets_alive (NumberRush.parent st))).
Proof.
  unfold NumberRush.widget_call, try_except_TclError, bind, get, ret, raise.
  by destruct (Tk.widgets_alive (NumberRush.parent st)).
Qed.

End Display.

Create Rewrite HintDb display.

#[local] Hint Rewrite nr_guarded_widget_call nr_update_display nr_update_player_display
  nr_timer_label_shown cb_guarded_widget_call cb_update_stats cb_update_player_display
  mm_guarded_widget_call mm_update_stats mm_update_player_display : display.

Ltac keeps_tac :=
  repeat match goal with
  | |- Py.keeps _ (Py.bind _ _) => apply keeps_bind; [|intros ?]
  | |- Py.keeps _ (Py.ret _) => apply keeps_ret
  | |- Py.keeps _ (Py.raise _) => apply keeps_raise
  | |- Py.keeps _ Py.get => apply keeps_get
  | |- Py.keeps _ (Py.modify _) => apply keeps_modify; intros ?; reflexivity
  | |- Py.keeps _ (Py.for_each _ _) => apply keeps_for_each; intros ?
  | |- Py.keeps _ (if ?b then _ else _) => destruct b
  | |- Py.keeps _ (match ?x with _ => _ end) => destruct x
  end.

Ltac display := repeat (progress (autorewrite with display; simpl)).

Ltac run :=
  repeat (unfold Py.bind, Py.get, Py.ret, Py.modify, Py.raise,
            Py.getitem, Py.state_of, Py.result_of in *; simpl in *;
          autorewrite with display in * ).


(** ** Finalising a session *)

Section Finalize.
Import Py.

Lemma add_score_total env g n s lv sb :
  exists b,
    Scoreboard.add_score env g n s lv sb
    = (Scoreboard.do_call
         {| Scoreboard.call_env := env; Scoreboard.call_game := g;
            Scoreboard.call_name := n; Scoreboard.call_score := s;
            Scoreboard.call_level := lv |} sb, Returned b).
Proof.
  unfold Scoreboard.do_call; simpl.
  destruct (Scoreboard.scores sb !! g) as [entries|] eqn:E.
  - exists true.
    pose proof (proj2 (add_score_result sb env g n s lv) (ex_intro _ _ E)) as Hr.
    destruct (Scoreboard.add_score env g n s lv sb) as [sb' r].
    simpl in *. by subst r.
  - exists false.
    by rewrite (proj1 (add_score_result sb env g n s lv) E).
Qed.

Lemma enumerate_filter_length {A} (P : A -> bool) (l : list A) :
  length (filter (fun ip : nat * A => P ip.2 = true) (enumerate l))
  = length (filter (fun x => P x = true) l).
Proof.
  unfold enumerate. generalize 0%nat.
  induction l as [|x l IH]; intros k; simpl; [done|].
  rewrite !filter_cons. simpl.
  destruct (decide (P x = true)); simpl; by rewrite IH.
Qed.

Lemma enumerate_length {A} (l : list A) : length (enumerate l) = length l.
Proof. unfold enumerate. rewrite length_zip, length_seq. lia. Qed.

Lemma nr_set_scoreboard_id st : NumberRush.set_scoreboard (NumberRush.scoreboard st) st = st.
Proof. by destruct st. Qed.

Lemma nr_save_loop env xs st :
  for_each xs (fun ip : nat * NumberRush.PlayerData =>
    if NumberRush.completed ip.2
    then let* st := get in
         let* _ := NumberRush.on_scoreboard
                     (Scoreboard.add_score (env ip.1) "Number Rush"
                        (NumberRush.name ip.2) (NumberRush.score ip.2)
                        (NumberRush.current_level st)) in
         ret tt
    else ret tt) st
  = (NumberRush.set_scoreboard
       (Scoreboard.run_calls
          (NumberRush.entries_for_completed env (NumberRush.current_level st) xs)
          (NumberRush.scoreboard st)) st, Returned tt).
Proof.
  revert st. induction xs as [|[i p] xs IH]; intros st; simpl.
  - by rewrite nr_set_scoreboard_id.
  - unfold NumberRush.entries_for_completed. rewrite filter_cons. simpl.
    destruct (NumberRush.completed p) eqn:Ec; simpl.
    + destruct (add_score_total (env i) "Number Rush" (NumberRush.name p)
                  (NumberRush.score p) (NumberRush.current_level st)
                  (NumberRush.scoreboard st)) as [b Hb].
      unfold bind at 1. unfold bind at 1. unfold get at 1.
      unfold bind at 1. unfold NumberRush.on_scoreboard at 1. rewrite Hb.
      unfold ret at 1. rewrite IH. by destruct st.
    + unfold bind at 1. unfold ret at 1. rewrite IH.
      by destruct (decide (false = true)).
Qed.

Lemma nr_cancel_timer_returns st :
  result_of (NumberRush.cancel_timer st) = Returned tt.
Proof. unfold NumberRush.cancel_timer. run. by destruct (NumberRush.timer_id st). Qed.

Lemma nr_end_game_eq env st :
  NumberRush.end_game env st
  = (let st1 := state_of (NumberRush.cancel_timer (NumberRush.set_game_active false st)) in
     NumberRush.set_scoreboard
       (Scoreboard.run_calls
          (NumberRush.entries_for_completed env (NumberRush.current_level st)
             (enumerate (NumberRush.players st)))
          (NumberRush.scoreboard st)) st1, Returned tt).
Proof.
  unfold NumberRush.end_game.
  unfold bind at 1. unfold modify at 1.
  unfold bind at 1.
  pose proof (nr_cancel_timer_returns (NumberRush.set_game_active false st)) as Hr.
  destruct (NumberRush.cancel_timer (NumberRush.set_game_active false st)) as [st1 r] eqn:E.
  simpl in Hr. subst r.
  unfold bind at 1. unfold get at 1.
  rewrite nr_save_loop. simpl.
  assert (NumberRush.players st1 = NumberRush.players st
          /\ NumberRush.current_level st1 = NumberRush.current_level st
          /\ NumberRush.scoreboard st1 = NumberRush.scoreboard st) as (-> & -> & ->); [|done].
  revert E. unfold NumberRush.cancel_timer. run.
  destruct (NumberRush.timer_id st); intros [= <-]; done.
Qed.

Lemma cb_set_scoreboard_id st : ColorBlast.set_scoreboard (ColorBlast.scoreboard st) st = st.
Proof. by destruct st. Qed.

Lemma cb_save_loop env xs st :
  for_each xs (fun ip : nat * ColorBlast.PlayerData =>
    if ColorBlast.completed ip.2
    then let* st := get in
         let* _ := ColorBlast.on_scoreboard
                     (Scoreboard.add_score (env ip.1) "Color Blast"
                        (ColorBlast.name ip.2) (ColorBlast.points ip.2)
                        (ColorBlast.current_level st)) in
         ret tt
    else ret tt) st
  = (ColorBlast.set_scoreboard
       (Scoreboard.run_calls
          (ColorBlast.entries_for_completed env (ColorBlast.current_level st) xs)
          (ColorBlast.scoreboard st)) st, Returned tt).
Proof.
  revert st. induction xs as [|[i p] xs IH]; intros st; simpl.
  - by rewrite cb_set_scoreboard_id.
  - unfold ColorBlast.entries_for_completed. rewrite filter_cons. simpl.
    destruct (ColorBlast.completed p) eqn:Ec; simpl.
    + destruct (add_score_total (env i) "Color Blast" (ColorBlast.name p)
                  (ColorBlast.points p) (ColorBlast.current_level st)
                  (ColorBlast.scoreboard st)) as [b Hb].
      unfold bind at 1. unfold bind at 1. unfold get at 1.
      unfold bind at 1. unfold ColorBlast.on_scoreboard at 1. rewrite Hb.
      unfold ret at 1. rewrite IH. by destruct st.
    + unfold bind at 1. unfold ret at 1. rewrite IH.
      by destruct (decide (false = true)).
Qed.

Lemma cb_cancel_timer_returns st :
  result_of (ColorBlast.cancel_timer st) = Returned tt.
Proof. unfold ColorBlast.cancel_timer. run. by destruct (ColorBlast.timer_id st). Qed.

Lemma cb_end_game_eq env st :
  ColorBlast.end_game env st
  = (let st1 := state_of (ColorBlast.cancel_timer (ColorBlast.set_game_active false st)) in
     ColorBlast.set_scoreboard
       (Scoreboard.run_calls
          (ColorBlast.entries_for_completed env (ColorBlast.current_level st)
             (enumerate (ColorBlast.players st)))
          (ColorBlast.scoreboard st)) st1, Returned tt).
Proof.
  unfold ColorBlast.end_game.
  unfold bind at 1. unfold modify at 1.
  unfold bind at 1.
  pose proof (cb_cancel_timer_returns (ColorBlast.set_game_active false st)) as Hr.
  destruct (ColorBlast.cancel_timer (ColorBlast.set_game_active false st)) as [st1 r] eqn:E.
  simpl in Hr. subst r.
  unfold bind at 1. unfold get at 1.
  rewrite cb_save_loop. simpl.
  assert (ColorBlast.players st1 = ColorBlast.players st
          /\ ColorBlast.current_level st1 = ColorBlast.current_level st
          /\ ColorBlast.scoreboard st1 = ColorBlast.scoreboard st) as (-> & -> & ->); [|done].
  revert E. unfold ColorBlast.cancel_timer. run.
  destruct (ColorBlast.timer_id st); intros [= <-]; done.
Qed.

Lemma mm_set_scoreboard_id st : MemoryMatch.set_scoreboard (MemoryMatch.scoreboard st) st = st.
Proof. by destruct st. Qed.

Lemma mm_save_loop env xs st :
  for_each xs (fun ip : nat * MemoryMatch.PlayerData =>
    let* st := get in
    let* _ := MemoryMatch.on_scoreboard
                (Scoreboard.add_score (env ip.1) "Memory Match"
                   (MemoryMatch.name ip.2) (MemoryMatch.score ip.2)
                   (MemoryMatch.current_level st)) in
    ret tt) st
  = (MemoryMatch.set_scoreboard
       (Scoreboard.run_calls
          (MemoryMatch.entries_for_all env (MemoryMatch.current_level st) xs)
          (MemoryMatch.scoreboard st)) st, Returned tt).
Proof.
  revert st. induction xs as [|[i p] xs IH]; intros st; simpl.
  - by rewrite mm_set_scoreboard_id.
  - destruct (add_score_total (env i) "Memory Match" (MemoryMatch.name p)
                (MemoryMatch.score p) (MemoryMatch.current_level st)
                (MemoryMatch.scoreboard st)) as [b Hb].
    unfold bind at 1. unfold bind at 1. unfold get at 1.
    unfold bind at 1. unfold MemoryMatch.on_scoreboard at 1. rewrite Hb.
    unfold ret at 1. rewrite IH. by destruct st.
Qed.

Lemma mm_save_results_eq env st :
  MemoryMatch.save_results env st
  = (MemoryMatch.set_scoreboard
       (Scoreboard.run_calls
          (MemoryMatch.entries_for_all env (MemoryMatch.current_level st)
             (enumerate (MemoryMatch.players st)))
          (MemoryMatch.scoreboard st)) st, Returned tt).
Proof.
  unfold MemoryMatch.save_results. unfold bind at 1. unfold get at 1.
  apply mm_save_loop.
Qed.

(** C5, as the claim puts it, fails in the matching game. Its players
    carry no completed flag, and [save_results] sends an entry for every
    one of them: after Ann has cleared the board without Bob ever getting
    a turn, finalising the session records both. *)
Lemma memory_match_records_every_player :
  let st := Samples.mm_ann_clears_board in
  let st' := state_of (MemoryMatch.level_complete false [] (fun _ => Samples.env0) st) in
  filter (fun p => MemoryMatch.completed p = true) (MemoryMatch.players st) = []
  /\ map MemoryMatch.matches (MemoryMatch.players st) = [8; 0]
  /\ Scoreboard.scores (MemoryMatch.scoreboard st) !! "Memory Match" = Some []
  /\ map (fun e => (Scoreboard.name e, Scoreboard.score e))
      (default [] (Scoreboard.scores (MemoryMatch.scoreboard st') !! "Memory Match"))
    = [("Ann", 270); ("Bob", 0)].
Proof. by vm_compute. Qed.

(** C5, amended. In the ordered-click and the discrimination game,
    [end_game] returns normally and sends the scoreboard exactly one entry
    for each player whose [completed] flag is set, in player order, and
    none for the others: at most one per player, and none at all (the
    scoreboard is left as it was) when nobody completed.  In the matching
    game, whose players have no such flag, [save_results] sends exactly
    one entry for every player. *)
Theorem finalize_emits_entries :
  (forall st env,
      let entries := NumberRush.entries_for_completed env (NumberRush.current_level st)
                       (enumerate (NumberRush.players st)) in
      result_of (NumberRush.end_game env st) = Returned tt
      /\ NumberRush.scoreboard (state_of (NumberRush.end_game env st))
         = Scoreboard.run_calls entries (NumberRush.scoreboard st)
      /\ length entries
         = length (filter (fun p => NumberRush.completed p = true) (NumberRush.players st))
      /\ (length entries <= length (NumberRush.players st))%nat)
  /\ (forall st env,
      let entries := ColorBlast.entries_for_completed env (ColorBlast.current_level st)
                       (enumerate (ColorBlast.players st)) in
      result_of (ColorBlast.end_game env st) = Returned tt
      /\ ColorBlast.scoreboard (state_of (ColorBlast.end_game env st))
         = Scoreboard.run_calls entries (ColorBlast.scoreboard st)
      /\ length entries
         = length (filter (fun p => ColorBlast.completed p = true) (ColorBlast.players st))
      /\ (length entries <= length (ColorBlast.players st))%nat)
  /\ (forall st env,
      let entries := MemoryMatch.entries_for_all env (MemoryMatch.current_level st)
                       (enumerate (MemoryMatch.players st)) in
      MemoryMatch.save_results env st
      = (MemoryMatch.set_scoreboard
           (Scoreboard.run_calls entries (MemoryMatch.scoreboard st)) st, Returned tt)
      /\ length entries = length (MemoryMatch.players st)).
Proof.
  split; [|split].
  - intros st env entries. rewrite nr_end_game_eq. simpl.
    assert (Hlen : length entries
                   = length (filter (fun p => NumberRush.completed p = true)
                                    (NumberRush.players st))).
    { subst entries. unfold NumberRush.entries_for_completed.
      rewrite length_map. apply (enumerate_filter_length NumberRush.completed). }
    split; [done|]. split; [done|]. split; [exact Hlen|].
    rewrite Hlen. apply length_filter.
  - intros st env entries. rewrite cb_end_game_eq. simpl.
    assert (Hlen : length entries
                   = length (filter (fun p => ColorBlast.completed p = true)
                                    (ColorBlast.players st))).
    { subst entries. unfold ColorBlast.entries_for_completed.
      rewrite length_map. apply (enumerate_filter_length ColorBlast.completed). }
    split; [done|]. split; [done|]. split; [exact Hlen|].
    rewrite Hlen. apply length_filter.
  - intros st env entries. split; [apply mm_save_results_eq|].
    subst entries. unfold MemoryMatch.entries_for_all.
    by rewrite length_map, enumerate_length.
Qed.

End Finalize.

(** ** Scores *)

Section Scoring.
Import Py.

Lemma binary_round_aux_sign sx mx ex lx s m e :
  binary_round_aux 53 1024 sx mx ex lx = S754_finite s m e -> s = sx.
Proof.
  unfold binary_round_aux.
  destruct (shr_fexp 53 1024 mx ex lx) as [mrs' e'].
  destruct (shr_fexp 53 1024 _ e' loc_Exact) as [mrs'' e''].
  destruct (shr_m mrs''); try discriminate.
  destruct (e'' <=? 1024 - 53); [|discriminate]. by intros [= -> _ _].
Qed.

Lemma ten_thousand : float_of_int 10000 = S754_finite false 5497558138880000 (-39).
Proof. reflexivity. Qed.

Lemma truediv_pos {S} (x y : float) (s : S) :
  float_pos y = true -> truediv x y s = (s, Returned (SFdiv 53 1024 x y)).
Proof. unfold float_pos, SFltb, truediv. by destruct y. Qed.

(** Dividing 10000.0 by a positive float gives a float whose floor, when
    it has one, is what [int] returns. *)
Lemma int_of_quotient {S} (elapsed : float) (n : Z) (s : S) :
  float_pos elapsed = true ->
  floor_of_float (SFdiv 53 1024 (float_of_int 10000) elapsed) = Some n ->
  int_of_float (SFdiv 53 1024 (float_of_int 10000) elapsed) s = (s, Returned n).
Proof.
  rewrite ten_thousand. unfold float_pos, SFltb.
  destruct elapsed as [sy|sy| |sy my ey]; simpl; try discriminate.
  - destruct sy; [discriminate|]. simpl. by intros _ [= <-].
  - destruct sy; [discriminate|]. intros _.
    destruct (SFdiv_core_binary 53 1024 _ _ _ _) as [[mz ez] lz].
    destruct (binary_round_aux 53 1024 false mz ez lz) as [sz|sz| |sz m e] eqn:E;
      simpl; try discriminate.
    + by intros [= <-].
    + apply binary_round_aux_sign in E as ->. simpl. by intros [= <-].
Qed.

Lemma nr_cancel_timer_eq st :
  NumberRush.cancel_timer st
  = (match NumberRush.timer_id st with
     | Some id =>
         NumberRush.set_timer_id None
           (NumberRush.set_parent (Tk.after_cancel id (NumberRush.parent st)) st)
     | None => st
     end, Returned tt).
Proof. unfold NumberRush.cancel_timer. run. by destruct (NumberRush.timer_id st). Qed.

Lemma nr_end_game_players env st :
  NumberRush.players (state_of (NumberRush.end_game env st)) = NumberRush.players st.
Proof.
  rewrite nr_end_game_eq, nr_cancel_timer_eq. simpl.
  by destruct (NumberRush.timer_id st).
Qed.

Lemma nr_end_game_returns env st :
  result_of (NumberRush.end_game env st) = Returned tt.
Proof. by rewrite nr_end_game_eq. Qed.

(** C2. When a round of the ordered-click game completes [elapsed > 0]
    seconds after its start, with [10000 / elapsed] not overflowing, the
    current player is recorded as completed with score
    [floor(10000 / elapsed) * level] (the division being the float
    division of the code), and [round_complete] returns normally; at
    level 3 with 5.0 seconds elapsed the score is 6000. *)
Theorem round_complete_score :
  (forall st now env t0 p n,
      NumberRush.start_time st = Some t0 ->
      NumberRush.players st !! NumberRush.current_player st = Some p ->
      float_pos (float_sub now t0) = true ->
      floor_of_float (SFdiv 53 1024 (float_of_int 10000) (float_sub now t0)) = Some n ->
      let st' := state_of (NumberRush.round_complete now env st) in
      NumberRush.players st' !! NumberRush.current_player st
      = Some {| NumberRush.name := NumberRush.name p;
                NumberRush.score := n * NumberRush.current_level st;
                NumberRush.time := float_sub now t0;
                NumberRush.completed := true |}
      /\ (Tk.widgets_alive (NumberRush.parent st) = true ->
          result_of (NumberRush.round_complete now env st) = Returned tt))
  /\ (NumberRush.current_level Samples.nr_started = 3
      /\ NumberRush.start_time Samples.nr_started = Some (float_of_int 100)
      /\ float_sub (float_of_int 105) (float_of_int 100) = float_of_int 5
      /\ map (fun p => (NumberRush.score p, NumberRush.completed p))
             (NumberRush.players Samples.nr_finished) = [(6000, true)]).
Proof.
  split; [|by vm_compute].
  intros st now env t0 p n Ht0 Hp Hpos Hfl st'. subst st'.
  set (p' := {| NumberRush.name := NumberRush.name p;
                NumberRush.score := n * NumberRush.current_level st;
                NumberRush.time := float_sub now t0;
                NumberRush.completed := true |}).
  assert (Heq : exists st2,
             NumberRush.players st2
             = <[NumberRush.current_player st := p']> (NumberRush.players st)
             /\ Tk.widgets_alive (NumberRush.parent st2)
                = Tk.widgets_alive (NumberRush.parent st)
             /\ NumberRush.round_complete now env st
                = (if (NumberRush.current_player st2 <? NumberRush.num_players st2)%nat
                   then NumberRush.widget_call st2
                   else NumberRush.end_game env st2)).
  { unfold NumberRush.round_complete, NumberRush.cancel_timer, NumberRush.update_player.
    run.
    destruct (NumberRush.timer_id st); simpl; rewrite Ht0; simpl; rewrite Hp; simpl;
      rewrite (truediv_pos _ _ _ Hpos), (int_of_quotient _ _ _ Hpos Hfl); simpl;
      rewrite nr_update_player_display; simpl.
    all: match goal with |- exists st2, _ /\ _ /\ _ ?s = _ => exists s end.
    all: pose proof (lookup_lt_Some _ _ _ Hp) as Hlt.
    all: split; [|split]; simpl.
    all: try (rewrite (alter_as_insert _ _ _ _ Hp), !alter_insert by done).
    all: try done.
    all: by destruct (S (NumberRush.current_player st) <? NumberRush.num_players st)%nat. }
  destruct Heq as (st2 & Hpl & Hw & Heq). rewrite Heq.
  pose proof (lookup_lt_Some _ _ _ Hp) as Hlt.
  destruct (NumberRush.current_player st2 <? NumberRush.num_players st2)%nat.
  - unfold NumberRush.widget_call. run. rewrite Hw.
    destruct (Tk.widgets_alive (NumberRush.parent st)); simpl;
      (split; [rewrite Hpl; by apply list_lookup_insert_eq | done]).
  - rewrite nr_end_game_players, nr_end_game_returns, Hpl.
    split; [by apply list_lookup_insert_eq | done].
Qed.

Lemma round_complete_score_witness :
  NumberRush.start_time Samples.nr_started = Some (float_of_int 100)
  /\ float_pos (float_sub (float_of_int 105) (float_of_int 100)) = true
  /\ floor_of_float (SFdiv 53 1024 (float_of_int 10000)
                       (float_sub (float_of_int 105) (float_of_int 100))) = Some 2000
  /\ NumberRush.players
       (state_of (NumberRush.round_complete (float_of_int 105) (fun _ => Samples.env0)
                    Samples.nr_started))
     !! NumberRush.current_player Samples.nr_started
     = Some {| NumberRush.name := "Ann";
               NumberRush.score := 2000 * NumberRush.current_level Samples.nr_started;
               NumberRush.time := float_sub (float_of_int 105) (float_of_int 100);
               NumberRush.completed := true |}.
Proof.
  assert (H1 : NumberRush.start_time Samples.nr_started = Some (float_of_int 100))
    by reflexivity.
  assert (H2 : NumberRush.players Samples.nr_started
               !! NumberRush.current_player Samples.nr_started
               = Some {| NumberRush.name := "Ann"; NumberRush.score := 0;
                         NumberRush.time := S754_zero false;
                         NumberRush.completed := false |}) by reflexivity.
  assert (H3 : float_pos (float_sub (float_of_int 105) (float_of_int 100)) = true)
    by reflexivity.
  assert (H4 : floor_of_float (SFdiv 53 1024 (float_of_int 10000)
                 (float_sub (float_of_int 105) (float_of_int 100))) = Some 2000)
    by reflexivity.
  split; [exact H1|]. split; [exact H3|]. split; [exact H4|].
  exact (proj1 (proj1 round_complete_score Samples.nr_started (float_of_int 105)
                  (fun _ => Samples.env0) (float_of_int 100) _ 2000 H1 H2 H3 H4)).
Defined.



End Scoring.

(** ** Turn order *)

Section Turns.
Import Py.

Lemma turn_step_ok t t' :
  Session.turn_ok t -> Session.turn_step t t' -> Session.turn_ok t'.
Proof.
  intros (Hnp & Hle & Hga) Hstep. unfold Session.turn_ok.
  destruct Hstep as [|Hact|cp' H1 H2|cp' H1 H2]; simpl.
  - done.
  - specialize (Hga Hact). split; [done|]. split; [lia|done].
  - split; [done|]. split; [lia|]. intros _. lia.
  - split; [done|]. split; [lia|done].
Qed.

Lemma turn_step_forward t t' :
  Session.turn_step t t' ->
  (Session.current_player t <= Session.current_player t')%nat
  /\ Session.num_players t' = Session.num_players t.
Proof. intros [|Hact|cp' H1 H2|cp' H1 H2]; simpl; split; lia. Qed.

(** Once the counter has reached the number of players, no round is live
    and nothing moves the counter or starts a round again. *)
Lemma turn_step_over t t' :
  Session.turn_ok t ->
  Session.current_player t = Session.num_players t ->
  Session.turn_step t t' ->
  Session.game_active t = false
  /\ Session.current_player t' = Session.current_player t
  /\ Session.game_active t' = false.
Proof.
  intros (Hnp & Hle & Hga) Hend Hstep.
  assert (Hoff : Session.game_active t = false).
  { destruct (Session.game_active t); [|done]. specialize (Hga eq_refl). lia. }
  split; [done|].
  destruct Hstep as [|Hact|cp' H1 H2|cp' H1 H2]; simpl.
  - done.
  - congruence.
  - lia.
  - split; [lia|done].
Qed.

(** *** The ordered-click game *)

Lemma nr_turn_cancel_timer st :
  NumberRush.turn (state_of (NumberRush.cancel_timer st)) = NumberRush.turn st.
Proof. rewrite nr_cancel_timer_eq. simpl. by destruct (NumberRush.timer_id st). Qed.

Lemma nr_turn_end_game env st :
  NumberRush.turn (state_of (NumberRush.end_game env st))
  = {| Session.num_players := NumberRush.num_players st;
       Session.roster := length (NumberRush.players st);
       Session.current_player := NumberRush.current_player st;
       Session.game_active := false |}.
Proof.
  rewrite nr_end_game_eq, nr_cancel_timer_eq. simpl.
  by destruct (NumberRush.timer_id st).
Qed.

Lemma nr_turn_update_timer st :
  NumberRush.turn (state_of (NumberRush.update_timer st)) = NumberRush.turn st.
Proof.
  unfold NumberRush.update_timer. unfold bind at 1, get at 1.
  destruct (NumberRush.game_active st && _); [|done].
  unfold bind at 1. rewrite nr_timer_label_shown.
  destruct (Tk.widgets_alive (NumberRush.parent st)); [|done].
  unfold NumberRush.after. by run.
Qed.

Lemma nr_turn_teardown st :
  NumberRush.turn (state_of (NumberRush.teardown st))
  = {| Session.num_players := NumberRush.num_players st;
       Session.roster := length (NumberRush.players st);
       Session.current_player := NumberRush.current_player st;
       Session.game_active := false |}.
Proof.
  unfold NumberRush.teardown. unfold bind at 1, modify at 1.
  unfold bind at 1. rewrite nr_cancel_timer_eq. simpl.
  by destruct (NumberRush.timer_id st).
Qed.

Lemma nr_turn_create_game_grid shuffle st :
  NumberRush.turn (state_of (NumberRush.create_game_grid shuffle st)) = NumberRush.turn st.
Proof.
  unfold NumberRush.create_game_grid, NumberRush.widget_call. run.
  destruct (Tk.widgets_alive _); simpl; [|done].
  rewrite for_each_modify. simpl.
  by rewrite (foldl_preserves NumberRush.turn).
Qed.

Lemma nr_turn_widget_call st :
  NumberRush.turn (state_of (NumberRush.widget_call st)) = NumberRush.turn st.
Proof.
  unfold NumberRush.widget_call. run. by destruct (Tk.widgets_alive _).
Qed.

Lemma truediv_state {S} (x y : float) (s : S) : exists r, truediv x y s = (s, r).
Proof. unfold truediv. destruct y; by eexists. Qed.

Lemma int_of_float_state {S} (x : float) (s : S) : exists r, int_of_float x s = (s, r).
Proof. unfold int_of_float. destruct x; by eexists. Qed.

Local Arguments Py.truediv : simpl never.
Local Arguments Py.int_of_float : simpl never.

(** A completed round ends the turn: the round is no longer live and the
    counter has moved by one, or not at all when the score computation
    raised. *)
Lemma nr_turn_round_complete now env st :
  exists cp',
    (cp' = NumberRush.current_player st \/ cp' = S (NumberRush.current_player st))
    /\ NumberRush.turn (state_of (NumberRush.round_complete now env st))
       = {| Session.num_players := NumberRush.num_players st;
            Session.roster := length (NumberRush.players st);
            Session.current_player := cp';
            Session.game_active := false |}.
Proof.
  unfold NumberRush.round_complete.
  unfold bind at 1, modify at 1. unfold bind at 1.
  rewrite nr_cancel_timer_eq.
  set (st1 := match NumberRush.timer_id (NumberRush.set_game_active false st) with
              | Some id => _ | None => _ end).
  assert (H1 : NumberRush.turn st1
               = {| Session.num_players := NumberRush.num_players st;
                    Session.roster := length (NumberRush.players st);
                    Session.current_player := NumberRush.current_player st;
                    Session.game_active := false |}).
  { subst st1. simpl. by destruct (NumberRush.timer_id st). }
  clearbody st1.
  assert (Hnp := f_equal Session.num_players H1).
  assert (Hlen := f_equal Session.roster H1).
  assert (Hcp := f_equal Session.current_player H1).
  assert (Hga := f_equal Session.game_active H1).
  simpl in Hnp, Hlen, Hcp, Hga. clear H1.
  pose proof nr_turn_end_game as He. unfold state_of in He.
  pose proof nr_turn_widget_call as Hwc. unfold state_of in Hwc.
  unfold bind, get, modify, getitem, ret, raise, NumberRush.update_player, state_of.
  destruct (NumberRush.start_time st1) as [t0|]; simpl.
  - destruct (NumberRush.players st1 !! NumberRush.current_player st1); simpl.
    + match goal with |- context [truediv ?a ?b ?s] =>
        destruct (truediv_state a b s) as [r Hr] end.
      rewrite Hr. clear Hr. destruct r as [q|e]; simpl.
      * match goal with |- context [int_of_float q ?s] =>
          destruct (int_of_float_state q s) as [r Hr]; rewrite Hr; clear Hr end.
        destruct r as [n|e]; simpl.
        -- rewrite nr_update_player_display; simpl.
           exists (S (NumberRush.current_player st)).
           split; [by right|]. rewrite Hcp, Hnp.
           destruct (_ <? _)%nat; simpl; rewrite ?Hwc, ?He;
             unfold NumberRush.turn; simpl; rewrite ?length_alter; congruence.
        -- exists (NumberRush.current_player st). split; [by left|].
           unfold NumberRush.turn; simpl. rewrite ?length_alter. congruence.
      * exists (NumberRush.current_player st). split; [by left|].
        unfold NumberRush.turn; simpl. rewrite ?length_alter. congruence.
    + exists (NumberRush.current_player st). split; [by left|].
      unfold NumberRush.turn. congruence.
  - exists (S (NumberRush.current_player st)).
    split; [by right|]. rewrite Hcp, Hnp.
    destruct (_ <? _)%nat; simpl; rewrite ?Hwc, ?He;
      unfold NumberRush.turn; simpl; congruence.
Qed.

Lemma nr_keeps_widget_call : keeps NumberRush.turn NumberRush.widget_call.
Proof. unfold NumberRush.widget_call. keeps_tac. Qed.

Lemma nr_keeps_after ms cb : keeps NumberRush.turn (NumberRush.after ms cb).
Proof. unfold NumberRush.after. keeps_tac. Qed.

Lemma nr_keeps_update_timer : keeps NumberRush.turn NumberRush.update_timer.
Proof. intros st. apply nr_turn_update_timer. Qed.

Lemma nr_keeps_create_game_grid shuffle :
  keeps NumberRush.turn (NumberRush.create_game_grid shuffle).
Proof. intros st. apply nr_turn_create_game_grid. Qed.

Lemma nr_step_round_complete now env st :
  NumberRush.game_active st = true ->
  Session.turn_step (NumberRush.turn st)
    (NumberRush.turn (state_of (NumberRush.round_complete now env st))).
Proof.
  intros Hga.
  destruct (nr_turn_round_complete now env st) as (cp' & [->| ->] & ->).
  - apply (Session.turn_stopped (NumberRush.turn st)); simpl; lia.
  - by apply (Session.turn_completed (NumberRush.turn st)).
Qed.

Lemma nr_step_number_clicked now env num st :
  Session.turn_step (NumberRush.turn st)
    (NumberRush.turn (state_of (NumberRush.number_clicked now env num st))).
Proof.
  unfold NumberRush.number_clicked.
  unfold bind at 1, get at 1.
  destruct (NumberRush.game_active st) eqn:Ega; simpl; [|constructor].
  destruct (num =? NumberRush.current_number st).
  - apply (bind_after_keeps NumberRush.turn); [keeps_tac; apply nr_keeps_widget_call|constructor|].
    intros _ s1 H1.
    apply (bind_after_keeps NumberRush.turn);
      [keeps_tac|rewrite H1; apply Session.turn_same|].
    intros _ s2 H2. rewrite H1 in H2. clear s1 H1.
    unfold bind at 1. rewrite nr_update_display.
    unfold bind, get.
    destruct (NumberRush.total_numbers s2 <? NumberRush.current_number s2).
    + rewrite <- H2. apply nr_step_round_complete.
      apply (f_equal Session.game_active) in H2. simpl in H2. congruence.
    + simpl. rewrite H2. apply Session.turn_same.
  - assert (Hk : keeps NumberRush.turn
              (match NumberRush.find_button (fun b => negb (NumberRush.clicked b)) num 0
                       (NumberRush.buttons st) with
               | Some _ =>
                   NumberRush.widget_call ;;
                   let* _ := NumberRush.after 200 (NumberRush.CbRestoreColour num) in
                   ret tt
               | None => ret tt
               end)).
    { keeps_tac; [apply nr_keeps_widget_call | apply nr_keeps_after]. }
    rewrite Hk. constructor.
Qed.

(** Skipping the players who are done: either a round starts for the
    first who is not, or the end of the roster is reached and the game
    ends. *)
Lemma nr_turn_start_round_from now shuffle env rest st :
  drop (NumberRush.current_player st) (NumberRush.players st) = rest ->
  exists cp' b,
    NumberRush.turn (state_of (NumberRush.start_round_from rest now shuffle env st))
    = {| Session.num_players := NumberRush.num_players st;
         Session.roster := length (NumberRush.players st);
         Session.current_player := cp';
         Session.game_active := b |}
    /\ (NumberRush.current_player st <= cp')%nat
    /\ (if b then (cp' < length (NumberRush.players st))%nat
        else (cp' <= NumberRush.current_player st `max` length (NumberRush.players st))%nat).
Proof.
  revert st. induction rest as [|player rest' IH]; intros st Hdrop; simpl.
  - exists (NumberRush.current_player st), false.
    rewrite nr_turn_end_game. split; [done|]. lia.
  - assert (Hlt : (NumberRush.current_player st < length (NumberRush.players st))%nat).
    { apply Nat.nle_gt. intros Hge. by rewrite drop_ge in Hdrop. }
    destruct (NumberRush.completed player).
    + unfold bind at 1, modify at 1.
      destruct (IH (NumberRush.set_current_player (S (NumberRush.current_player st)) st))
        as (cp' & b & Ht & Hle & Hb).
      { simpl. by apply drop_cons_inv in Hdrop as [_ ?]. }
      exists cp', b. rewrite Ht. simpl in *. split; [done|]. split; [lia|].
      destruct b; lia.
    + exists (NumberRush.current_player st), true.
      split; [|split; [lia|done]].
      assert (Hk : keeps NumberRush.turn
                (NumberRush.create_game_grid shuffle ;;
                 NumberRush.update_display ;; NumberRush.update_timer)).
      { keeps_tac; [apply nr_keeps_create_game_grid | intros s; by rewrite nr_update_display
                    | apply nr_keeps_update_timer]. }
      unfold bind at 1, modify at 1. unfold bind at 1, modify at 1.
      unfold bind at 1, modify at 1.
      unfold bind at 1. rewrite nr_guarded_widget_call.
      unfold bind at 1. rewrite nr_update_player_display.
      by rewrite Hk.
Qed.

Lemma nr_step_start_round now shuffle env st :
  Session.turn_step (NumberRush.turn st)
    (NumberRush.turn (state_of (NumberRush.start_round now shuffle env st))).
Proof.
  unfold NumberRush.start_round. unfold bind at 1, get at 1.
  destruct (nr_turn_start_round_from now shuffle env _ st eq_refl)
    as (cp' & b & -> & Hle & Hb).
  destruct b.
  - by apply (Session.turn_started (NumberRush.turn st)).
  - by apply (Session.turn_stopped (NumberRush.turn st)).
Qed.

Lemma nr_step_op o st :
  Session.turn_step (NumberRush.turn st) (NumberRush.turn (NumberRush.step o st)).
Proof.
  destruct o as [now shuffle env|now env num| | |]; unfold NumberRush.step; simpl.
  - apply nr_step_start_round.
  - apply nr_step_number_clicked.
  - rewrite nr_turn_update_timer. apply Session.turn_same.
  - unfold NumberRush.back_to_menu. rewrite nr_turn_teardown.
    apply (Session.turn_stopped (NumberRush.turn st)); simpl; lia.
  - unfold NumberRush.destroy. rewrite nr_turn_teardown.
    apply (Session.turn_stopped (NumberRush.turn st)); simpl; lia.
Qed.

Lemma nr_start_game_ok sb names lv now shuffle env :
  Session.turn_ok
    (NumberRush.turn
       (state_of (NumberRush.start_game names lv now shuffle env (NumberRush.init sb)))).
Proof.
  unfold NumberRush.start_game.
  unfold bind at 1, modify at 1. unfold bind at 1, modify at 1.
  unfold bind at 1, modify at 1.
  destruct (NumberRush.LEVELS lv) as [cfg|].
  - unfold bind at 1, modify at 1. unfold bind at 1, modify at 1.
    eapply turn_step_ok; [|apply nr_step_start_round].
    unfold Session.turn_ok, NumberRush.start_game_players; simpl.
    rewrite length_map. split; [done|]. split; [lia|done].
  - unfold Session.turn_ok, NumberRush.start_game_players; simpl.
    rewrite length_map. split; [done|]. split; [lia|done].
Qed.

Lemma nr_play_ok ops st :
  Session.turn_ok (NumberRush.turn st) ->
  Session.turn_ok (NumberRush.turn (NumberRush.play ops st)).
Proof.
  revert st. induction ops as [|o ops IH]; intros st Hok; simpl; [done|].
  apply IH. eapply turn_step_ok; [exact Hok | apply nr_step_op].
Qed.

(** *** The discrimination game *)

Lemma cb_cancel_timer_eq st :
  ColorBlast.cancel_timer st
  = (match ColorBlast.timer_id st with
     | Some id =>
         ColorBlast.set_timer_id None
           (ColorBlast.set_parent (Tk.after_cancel id (ColorBlast.parent st)) st)
     | None => st
     end, Returned tt).
Proof. unfold ColorBlast.cancel_timer. run. by destruct (ColorBlast.timer_id st). Qed.

Lemma cb_turn_end_game env st :
  ColorBlast.turn (state_of (ColorBlast.end_game env st))
  = {| Session.num_players := ColorBlast.num_players st;
       Session.roster := length (ColorBlast.players st);
       Session.current_player := ColorBlast.current_player st;
       Session.game_active := false |}.
Proof.
  rewrite cb_end_game_eq, cb_cancel_timer_eq. simpl.
  by destruct (ColorBlast.timer_id st).
Qed.

Lemma cb_turn_teardown st :
  ColorBlast.turn (state_of (ColorBlast.teardown st))
  = {| Session.num_players := ColorBlast.num_players st;
       Session.roster := length (ColorBlast.players st);
       Session.current_player := ColorBlast.current_player st;
       Session.game_active := false |}.
Proof.
  unfold ColorBlast.teardown. unfold bind at 1, modify at 1.
  unfold bind at 1. rewrite cb_cancel_timer_eq. simpl.
  by destruct (ColorBlast.timer_id st).
Qed.

Lemma cb_keeps_widget_call : keeps ColorBlast.turn ColorBlast.widget_call.
Proof. unfold ColorBlast.widget_call. keeps_tac. Qed.

Lemma cb_keeps_answer_button_call idx :
  keeps ColorBlast.turn (ColorBlast.answer_button_call idx).
Proof. unfold ColorBlast.answer_button_call. keeps_tac. apply cb_keeps_widget_call. Qed.

Lemma cb_keeps_after ms cb : keeps ColorBlast.turn (ColorBlast.after ms cb).
Proof. unfold ColorBlast.after. keeps_tac. Qed.

Lemma cb_keeps_new_question pick : keeps ColorBlast.turn (ColorBlast.new_question pick).
Proof. unfold ColorBlast.new_question. keeps_tac; apply cb_keeps_widget_call. Qed.

Lemma cb_keeps_check_answer idx : keeps ColorBlast.turn (ColorBlast.check_answer idx).
Proof.
  unfold ColorBlast.check_answer.
  keeps_tac;
    first [apply cb_keeps_answer_button_call | apply cb_keeps_after
          | intros s; by rewrite cb_update_stats].
Qed.

Lemma cb_turn_round_over env st :
  exists cp',
    (cp' = ColorBlast.current_player st \/ cp' = S (ColorBlast.current_player st))
    /\ ColorBlast.turn (state_of (ColorBlast.round_over env st))
       = {| Session.num_players := ColorBlast.num_players st;
            Session.roster := length (ColorBlast.players st);
            Session.current_player := cp';
            Session.game_active := false |}.
Proof.
  pose proof cb_turn_end_game as He. unfold state_of in He.
  pose proof cb_keeps_widget_call as Hwc. unfold keeps, state_of in Hwc.
  unfold ColorBlast.round_over.
  unfold bind, get, modify, getitem, ret, raise, ColorBlast.update_player, state_of.
  simpl.
  destruct (length (ColorBlast.players st) <=? ColorBlast.current_player st)%nat.
  - exists (ColorBlast.current_player st). split; [by left|]. by rewrite He.
  - destruct (ColorBlast.players st !! ColorBlast.current_player st); simpl.
    + rewrite cb_update_player_display; simpl.
      exists (S (ColorBlast.current_player st)). split; [by right|].
      destruct (_ <? _)%nat; simpl; rewrite ?Hwc, ?He;
        unfold ColorBlast.turn; simpl; rewrite ?length_alter; congruence.
    + exists (ColorBlast.current_player st). by split; [left|].
Qed.

Lemma cb_step_countdown env st :
  Session.turn_step (ColorBlast.turn st)
    (ColorBlast.turn (state_of (ColorBlast.countdown env st))).
Proof.
  unfold ColorBlast.countdown. unfold bind at 1, get at 1.
  destruct (ColorBlast.game_active st) eqn:Ega; simpl; [|apply Session.turn_same].
  destruct (0 <? ColorBlast.time_left st).
  - assert (Hk : keeps ColorBlast.turn
              (modify (fun st => ColorBlast.set_time_left (ColorBlast.time_left st - 1) st) ;;
               ColorBlast.update_stats ;;
               let* id := ColorBlast.after 1000 ColorBlast.CbCountdown in
               modify (ColorBlast.set_timer_id (Some id)))).
    { keeps_tac; [intros s; by rewrite cb_update_stats | apply cb_keeps_after]. }
    rewrite Hk. apply Session.turn_same.
  - destruct (cb_turn_round_over env st) as (cp' & [->| ->] & ->).
    + apply (Session.turn_stopped (ColorBlast.turn st)); simpl; lia.
    + by apply (Session.turn_completed (ColorBlast.turn st)).
Qed.

Lemma cb_turn_start_round_from pick env rest st :
  drop (ColorBlast.current_player st) (ColorBlast.players st) = rest ->
  exists cp' b,
    ColorBlast.turn (state_of (ColorBlast.start_round_from rest pick env st))
    = {| Session.num_players := ColorBlast.num_players st;
         Session.roster := length (ColorBlast.players st);
         Session.current_player := cp';
         Session.game_active := b |}
    /\ (ColorBlast.current_player st <= cp')%nat
    /\ (if b then (cp' < length (ColorBlast.players st))%nat
        else (cp' <= ColorBlast.current_player st `max` length (ColorBlast.players st))%nat).
Proof.
  revert st. induction rest as [|player rest' IH]; intros st Hdrop; simpl.
  - exists (ColorBlast.current_player st), false.
    rewrite cb_turn_end_game. split; [done|]. lia.
  - assert (Hlt : (ColorBlast.current_player st < length (ColorBlast.players st))%nat).
    { apply Nat.nle_gt. intros Hge. by rewrite drop_ge in Hdrop. }
    destruct (ColorBlast.completed player).
    + unfold bind at 1, modify at 1.
      destruct (IH (ColorBlast.set_current_player (S (ColorBlast.current_player st)) st))
        as (cp' & b & Ht & Hle & Hb).
      { simpl. by apply drop_cons_inv in Hdrop as [_ ?]. }
      exists cp', b. rewrite Ht. simpl in *. split; [done|]. split; [lia|].
      destruct b; lia.
    + unfold bind at 1, modify at 1. unfold bind at 1, get at 1. simpl.
      destruct (ColorBlast.LEVELS (ColorBlast.current_level st)) as [cfg|].
      * unfold bind at 1, modify at 1. unfold bind at 1, modify at 1.
        set (s2 := ColorBlast.set_game_active true _).
        assert (Ht2 : ColorBlast.turn s2
                      = {| Session.num_players := ColorBlast.num_players st;
                           Session.roster := length (ColorBlast.players st);
                           Session.current_player := ColorBlast.current_player st;
                           Session.game_active := true |}) by done.
        clearbody s2.
        unfold bind at 1. rewrite cb_guarded_widget_call.
        unfold bind at 1. rewrite cb_update_stats.
        unfold bind at 1. rewrite cb_update_player_display.
        apply (bind_after_keeps ColorBlast.turn _ _
                 (fun t => exists cp' b,
                    t = {| Session.num_players := ColorBlast.num_players st;
                           Session.roster := length (ColorBlast.players st);
                           Session.current_player := cp';
                           Session.game_active := b |}
                    /\ (ColorBlast.current_player st <= cp')%nat
                    /\ (if b then (cp' < length (ColorBlast.players st))%nat
                        else (cp' <= ColorBlast.current_player st
                                       `max` length (ColorBlast.players st))%nat))).
        -- apply cb_keeps_new_question.
        -- exists (ColorBlast.current_player st), true.
           rewrite Ht2. split; [done|]. split; simpl; lia.
        -- intros _ s3 H3. rewrite Ht2 in H3.
           pose proof (cb_step_countdown env s3) as Hstep. rewrite H3 in Hstep.
           set (t' := ColorBlast.turn (state_of (ColorBlast.countdown env s3))) in *.
           clearbody t'.
           destruct Hstep as [|Hact|cp' H1 H2|cp' H1 H2]; simpl in *.
           ++ exists (ColorBlast.current_player st), true.
              split; [done|]. split; simpl; lia.
           ++ exists (S (ColorBlast.current_player st)), false.
              split; [done|]. split; simpl; lia.
           ++ exists cp', true. split; [done|]. split; simpl; lia.
           ++ exists cp', false. split; [done|]. split; simpl; lia.
      * exists (ColorBlast.current_player st), (ColorBlast.game_active st).
        split; [done|]. split; [lia|]. destruct (ColorBlast.game_active st); lia.
Qed.

Lemma cb_step_start_round pick env st :
  Session.turn_step (ColorBlast.turn st)
    (ColorBlast.turn (state_of (ColorBlast.start_round pick env st))).
Proof.
  unfold ColorBlast.start_round. unfold bind at 1, get at 1.
  destruct (cb_turn_start_round_from pick env _ st eq_refl)
    as (cp' & b & -> & Hle & Hb).
  destruct b.
  - by apply (Session.turn_started (ColorBlast.turn st)).
  - by apply (Session.turn_stopped (ColorBlast.turn st)).
Qed.

Lemma cb_step_op o st :
  Session.turn_step (ColorBlast.turn st) (ColorBlast.turn (ColorBlast.step o st)).
Proof.
  destruct o as [pick env|pick|idx|env| |]; unfold ColorBlast.step; simpl.
  - apply cb_step_start_round.
  - rewrite cb_keeps_new_question. apply Session.turn_same.
  - rewrite cb_keeps_check_answer. apply Session.turn_same.
  - apply cb_step_countdown.
  - unfold ColorBlast.back_to_menu. rewrite cb_turn_teardown.
    apply (Session.turn_stopped (ColorBlast.turn st)); simpl; lia.
  - unfold ColorBlast.destroy. rewrite cb_turn_teardown.
    apply (Session.turn_stopped (ColorBlast.turn st)); simpl; lia.
Qed.

Lemma cb_start_game_ok sb names lv pick env :
  Session.turn_ok
    (ColorBlast.turn
       (state_of (ColorBlast.start_game names lv pick env (ColorBlast.init sb)))).
Proof.
  unfold ColorBlast.start_game.
  unfold bind at 1, modify at 1. unfold bind at 1, modify at 1.
  unfold bind at 1, modify at 1.
  destruct (ColorBlast.LEVELS lv) as [cfg|].
  - unfold bind at 1, modify at 1. unfold bind at 1, modify at 1.
    unfold bind at 1, modify at 1. unfold bind at 1, modify at 1.
    eapply turn_step_ok; [|apply cb_step_start_round].
    unfold Session.turn_ok, ColorBlast.start_game_players; simpl.
    rewrite length_map. split; [done|]. split; [lia|done].
  - unfold Session.turn_ok, ColorBlast.start_game_players; simpl.
    rewrite length_map. split; [done|]. split; [lia|done].
Qed.

Lemma cb_play_ok ops st :
  Session.turn_ok (ColorBlast.turn st) ->
  Session.turn_ok (ColorBlast.turn (ColorBlast.play ops st)).
Proof.
  revert st. induction ops as [|o ops IH]; intros st Hok; simpl; [done|].
  apply IH. eapply turn_step_ok; [exact Hok | apply cb_step_op].
Qed.

(** *** The claim and the matching game *)

(** C4, as the claim puts it, fails in the matching game: with two
    players the turn goes from Ann (0) to Bob (1) on her miss and back to
    Ann (0) on his, so the counter does move back. *)
Lemma memory_match_turn_wraps :
  MemoryMatch.num_players Samples.mm_started = 2%nat
  /\ MemoryMatch.current_player Samples.mm_started = 0%nat
  /\ MemoryMatch.current_player Samples.mm_ann_missed = 1%nat
  /\ MemoryMatch.current_player Samples.mm_bob_missed = 0%nat
  /\ (MemoryMatch.current_player Samples.mm_bob_missed
      < MemoryMatch.current_player Samples.mm_ann_missed)%nat.
Proof. vm_compute. repeat split; lia. Qed.

(** C4, amended. In the ordered-click and the discrimination game, at
    every point of every session and for whatever happens next,
    [current_player] does not decrease and does not exceed [num_players],
    which itself stays fixed; and once it equals [num_players] no round is
    live, and nothing moves the counter or starts a round any more.  In the
    matching game the counter is the player whose turn it is: a miss moves
    it to [(current_player + 1) % num_players] when there are several
    players, and every start of a level resets it to 0. *)
Theorem turn_order :
  (forall sb names lv now shuffle env ops o,
      let st := NumberRush.session sb names lv now shuffle env ops in
      let st' := NumberRush.step o st in
      (NumberRush.current_player st <= NumberRush.current_player st')%nat
      /\ (NumberRush.current_player st' <= NumberRush.num_players st')%nat
      /\ NumberRush.num_players st' = NumberRush.num_players st
      /\ (NumberRush.current_player st = NumberRush.num_players st ->
          NumberRush.game_active st = false
          /\ NumberRush.current_player st' = NumberRush.current_player st
          /\ NumberRush.game_active st' = false))
  /\ (forall sb names lv pick env ops o,
      let st := ColorBlast.session sb names lv pick env ops in
      let st' := ColorBlast.step o st in
      (ColorBlast.current_player st <= ColorBlast.current_player st')%nat
      /\ (ColorBlast.current_player st' <= ColorBlast.num_players st')%nat
      /\ ColorBlast.num_players st' = ColorBlast.num_players st
      /\ (ColorBlast.current_player st = ColorBlast.num_players st ->
          ColorBlast.game_active st = false
          /\ ColorBlast.current_player st' = ColorBlast.current_player st
          /\ ColorBlast.game_active st' = false))
  /\ (forall st idx1 idx2 c1 c2 p,
      MemoryMatch.flipped st = [idx1; idx2] ->
      MemoryMatch.cards st !! idx1 = Some c1 ->
      MemoryMatch.cards st !! idx2 = Some c2 ->
      MemoryMatch.symbol c1 <> MemoryMatch.symbol c2 ->
      Tk.widgets_alive (MemoryMatch.parent st) = true ->
      MemoryMatch.players st !! MemoryMatch.current_player st = Some p ->
      MemoryMatch.current_player (state_of (MemoryMatch.check_match st))
      = if (1 <? MemoryMatch.num_players st)%nat
        then ((MemoryMatch.current_player st + 1) `mod` MemoryMatch.num_players st)%nat
        else MemoryMatch.current_player st)
  /\ (forall st deck,
      MemoryMatch.current_player (state_of (MemoryMatch.start_level deck st)) = 0%nat).
Proof.
  split; [|split; [|split]].
  - intros sb names lv now shuffle env ops o st st'.
    assert (Hok : Session.turn_ok (NumberRush.turn st)).
    { apply nr_play_ok, nr_start_game_ok. }
    pose proof (nr_step_op o st) as Hstep. fold st' in Hstep.
    pose proof (turn_step_ok _ _ Hok Hstep) as (_ & Hle' & _).
    pose proof (turn_step_forward _ _ Hstep) as [Hfw Hnp].
    split; [exact Hfw|]. split; [exact Hle'|]. split; [exact Hnp|].
    intros Hend. by apply (turn_step_over _ _ Hok Hend Hstep).
  - intros sb names lv pick env ops o st st'.
    assert (Hok : Session.turn_ok (ColorBlast.turn st)).
    { apply cb_play_ok, cb_start_game_ok. }
    pose proof (cb_step_op o st) as Hstep. fold st' in Hstep.
    pose proof (turn_step_ok _ _ Hok Hstep) as (_ & Hle' & _).
    pose proof (turn_step_forward _ _ Hstep) as [Hfw Hnp].
    split; [exact Hfw|]. split; [exact Hle'|]. split; [exact Hnp|].
    intros Hend. by apply (turn_step_over _ _ Hok Hend Hstep).
  - intros st idx1 idx2 c1 c2 p Hf H1 H2 Hne Hw Hp.
    unfold MemoryMatch.check_match, MemoryMatch.update_card, MemoryMatch.update_player,
      MemoryMatch.widget_call, MemoryMatch.after.
    run. rewrite Hf, H1; simpl. rewrite H2; simpl.
    destruct (String.eqb_spec (MemoryMatch.symbol c1) (MemoryMatch.symbol c2)) as [He|He];
      [done|].
    simpl; rewrite Hw; simpl; rewrite Hp; simpl.
    destruct (1 <? MemoryMatch.num_players st)%nat; simpl; display; done.
  - intros st deck.
    unfold MemoryMatch.start_level, MemoryMatch.widget_call. run.
    destruct (Tk.widgets_alive (MemoryMatch.parent st)); simpl; [|done].
    rewrite for_each_modify. simpl.
    by rewrite (foldl_preserves MemoryMatch.current_player).
Qed.

Lemma turn_order_witness :
  (NumberRush.current_player Samples.nr_session = NumberRush.num_players Samples.nr_session
   /\ NumberRush.game_active Samples.nr_session = false
   /\ NumberRush.current_player
        (NumberRush.step (NumberRush.OpStartRound (float_of_int 200) (fun l => l)
                            (fun _ => Samples.env0)) Samples.nr_session)
      = NumberRush.current_player Samples.nr_session
   /\ NumberRush.game_active
        (NumberRush.step (NumberRush.OpStartRound (float_of_int 200) (fun l => l)
                            (fun _ => Samples.env0)) Samples.nr_session) = false)
  /\ (ColorBlast.current_player Samples.cb_session = ColorBlast.num_players Samples.cb_session
      /\ ColorBlast.game_active Samples.cb_session = false
      /\ ColorBlast.current_player
           (ColorBlast.step (ColorBlast.OpStartRound 1 (fun _ => Samples.env0))
              Samples.cb_session)
         = ColorBlast.current_player Samples.cb_session
      /\ ColorBlast.game_active
           (ColorBlast.step (ColorBlast.OpStartRound 1 (fun _ => Samples.env0))
              Samples.cb_session) = false)
  /\ MemoryMatch.flipped Samples.mm_dog_and_cat_up = [0; 2]%nat
  /\ Tk.widgets_alive (MemoryMatch.parent Samples.mm_dog_and_cat_up) = true
  /\ MemoryMatch.current_player
       (state_of (MemoryMatch.check_match Samples.mm_dog_and_cat_up))
     = (if (1 <? MemoryMatch.num_players Samples.mm_dog_and_cat_up)%nat
        then ((MemoryMatch.current_player Samples.mm_dog_and_cat_up + 1)
                `mod` MemoryMatch.num_players Samples.mm_dog_and_cat_up)%nat
        else MemoryMatch.current_player Samples.mm_dog_and_cat_up).
Proof.
  unfold Samples.nr_session, Samples.cb_session.
  assert (Hnr : NumberRush.current_player
                  (NumberRush.session Samples.fresh_board ["Ann"] 3 (float_of_int 100)
                     (fun l => l) (fun _ => Samples.env0) Samples.nr_ops)
                = NumberRush.num_players
                    (NumberRush.session Samples.fresh_board ["Ann"] 3 (float_of_int 100)
                       (fun l => l) (fun _ => Samples.env0) Samples.nr_ops)).
  { vm_compute. reflexivity. }
  assert (Hcb : ColorBlast.current_player
                  (ColorBlast.session Samples.fresh_board ["Cy"] 1 0%nat
                     (fun _ => Samples.env0) Samples.cb_ops)
                = ColorBlast.num_players
                    (ColorBlast.session Samples.fresh_board ["Cy"] 1 0%nat
                       (fun _ => Samples.env0) Samples.cb_ops)).
  { vm_compute. reflexivity. }
  assert (Hf : MemoryMatch.flipped Samples.mm_dog_and_cat_up = [0; 2]%nat) by reflexivity.
  assert (H1 : MemoryMatch.cards Samples.mm_dog_and_cat_up !! 0%nat
               = Some {| MemoryMatch.symbol := "🐶"; MemoryMatch.is_flipped := true;
                         MemoryMatch.is_matched := false |}) by reflexivity.
  assert (H2 : MemoryMatch.cards Samples.mm_dog_and_cat_up !! 2%nat
               = Some {| MemoryMatch.symbol := "🐱"; MemoryMatch.is_flipped := true;
                         MemoryMatch.is_matched := false |}) by reflexivity.
  assert (Hne : "🐶" <> "🐱") by discriminate.
  assert (Hw : Tk.widgets_alive (MemoryMatch.parent Samples.mm_dog_and_cat_up) = true)
    by reflexivity.
  assert (Hp : MemoryMatch.players Samples.mm_dog_and_cat_up
               !! MemoryMatch.current_player Samples.mm_dog_and_cat_up
               = Some {| MemoryMatch.name := "Ann"; MemoryMatch.score := 0;
                         MemoryMatch.matches := 0; MemoryMatch.streak := 0 |})
    by reflexivity.
  destruct turn_order as (Tnr & Tcb & Tmiss & _).
  split; [|split].
  - split; [exact Hnr|].
    exact (proj2 (proj2 (proj2 (Tnr Samples.fresh_board ["Ann"] 3 (float_of_int 100)
             (fun l => l) (fun _ => Samples.env0) Samples.nr_ops
             (NumberRush.OpStartRound (float_of_int 200) (fun l => l)
                (fun _ => Samples.env0))))) Hnr).
  - split; [exact Hcb|].
    exact (proj2 (proj2 (proj2 (Tcb Samples.fresh_board ["Cy"] 1 0%nat
             (fun _ => Samples.env0) Samples.cb_ops
             (ColorBlast.OpStartRound 1 (fun _ => Samples.env0))))) Hcb).
  - split; [exact Hf|]. split; [exact Hw|].
    exact (Tmiss Samples.mm_dog_and_cat_up 0%nat 2%nat _ _ _ Hf H1 H2 Hne Hw Hp).
Defined.

End Turns.

(** ** Input and timer callbacks outside a live round *)

Section Inactive.
Import Py.

(** C6. While [game_active] is false, a click on a number (ordered-click
    game) or on an answer button (discrimination game) returns at once:
    no exception, and the whole game object, the scheduled callbacks and
    the scoreboard included, is what it was. *)
Theorem inactive_input_is_noop :
  (forall st now env num,
      NumberRush.game_active st = false ->
      NumberRush.number_clicked now env num st = (st, Returned tt))
  /\ (forall st idx,
      ColorBlast.game_active st = false ->
      ColorBlast.check_answer idx st = (st, Returned tt)).
Proof.
  split.
  - intros st now env num H. unfold NumberRush.number_clicked. run. by rewrite H.
  - intros st idx H. unfold ColorBlast.check_answer. run. by rewrite H.
Qed.

Lemma inactive_input_is_noop_witness :
  NumberRush.game_active Samples.nr_left = false
  /\ NumberRush.number_clicked (float_of_int 101) (fun _ => Samples.env0) 1 Samples.nr_left
     = (Samples.nr_left, Returned tt)
  /\ ColorBlast.game_active Samples.cb_left = false
  /\ ColorBlast.check_answer 2 Samples.cb_left = (Samples.cb_left, Returned tt).
Proof.
  assert (H1 : NumberRush.game_active Samples.nr_left = false) by reflexivity.
  assert (H2 : ColorBlast.game_active Samples.cb_left = false) by reflexivity.
  split; [exact H1|]. split.
  - exact (proj1 inactive_input_is_noop Samples.nr_left (float_of_int 101)
             (fun _ => Samples.env0) 1 H1).
  - split; [exact H2|].
    exact (proj2 inactive_input_is_noop Samples.cb_left 2%nat H2).
Defined.





End Inactive.

(** ** More on the leaderboard store: ranks, ties, persistence, clearing *)

Section StoreUse.
Import Py Scoreboard.

Lemma ranks_before_key_ltb (x y : PlayerScore) :
  ranks_before x y -> key_ltb (key x) (key y) = false.
Proof.
  unfold key_ltb, ranks_before, key; simpl. intros H.
  apply orb_false_iff. split.
  - apply Z.ltb_ge. lia.
  - apply andb_false_iff.
    destruct (Z.eq_dec (score x) (score y)) as [E|E].
    + right. apply Z.ltb_ge. lia.
    + left. by apply Z.eqb_neq.
Qed.

Lemma insert_desc_head x l :
  Forall (ranks_before x) l -> insert_desc x l = x :: l.
Proof.
  destruct 1 as [|y l Hy Hl]; simpl; [done|].
  by rewrite (ranks_before_key_ltb x y Hy).
Qed.

Lemma filter_all {A} (P : A -> Prop) `{forall x, Decision (P x)} (l : list A) :
  Forall P l -> filter P l = l.
Proof.
  induction 1 as [|x l Hx Hl IH]; [done|].
  rewrite filter_cons. destruct (decide (P x)); [by rewrite IH | done].
Qed.

Lemma filter_none {A} (P : A -> Prop) `{forall x, Decision (P x)} (l : list A) :
  Forall (fun x => ~ P x) l -> filter P l = [].
Proof.
  induction 1 as [|x l Hx Hl IH]; [done|].
  rewrite filter_cons. destruct (decide (P x)); [done | exact IH].
Qed.

Lemma Forall_filter_of {A} (P Q : A -> Prop) `{forall x, Decision (Q x)} (l : list A) :
  Forall P l -> Forall P (filter Q l).
Proof.
  induction 1 as [|x l Hx Hl IH]; [constructor|].
  rewrite filter_cons. destruct (decide (Q x)); [by constructor | exact IH].
Qed.

(** Where the sort puts an entry appended to a ranked list. *)
Lemma sort_desc_snoc (x : PlayerScore) (l : list PlayerScore) :
  StronglySorted ranks_before l ->
  sort_desc (l ++ [x])
  = filter (fun e => key_ltb (key e) (key x) = false) l
    ++ x :: filter (fun e => key_ltb (key e) (key x) = true) l.
Proof.
  induction 1 as [|y l Hl IH Hy]; simpl; [done|].
  rewrite IH. rewrite !filter_cons.
  destruct (key_ltb (key y) (key x)) eqn:E.
  - destruct (decide (true = false)) as [?|_]; [done|].
    destruct (decide (true = true)) as [_|?]; [|done].
    assert (Hlow : Forall (fun e => key_ltb (key e) (key x) = true) l).
    { eapply Forall_impl; [exact Hy|]. intros e He. simpl in He.
      revert E He. unfold key_ltb, ranks_before, key; simpl.
      rewrite !orb_true_iff, !andb_true_iff, !Z.ltb_lt, !Z.eqb_eq. lia. }
    rewrite (filter_all _ l Hlow).
    rewrite (filter_none (fun e => key_ltb (key e) (key x) = false) l).
    + simpl. rewrite E. by rewrite (insert_desc_head y l Hy).
    + eapply Forall_impl; [exact Hlow|]. intros e He. simpl in He. by rewrite He.
  - destruct (decide (false = false)) as [_|?]; [|done].
    destruct (decide (false = true)) as [?|_]; [done|].
    simpl. apply insert_desc_head.
    apply Forall_app. split.
    + by apply Forall_filter_of.
    + constructor; [by apply key_ltb_false_ranks|]. by apply Forall_filter_of.
Qed.

Lemma sorted_app_ranks (l1 l2 : list PlayerScore) :
  StronglySorted ranks_before (l1 ++ l2) ->
  forall k d, k ∈ l1 -> d ∈ l2 -> ranks_before k d.
Proof.
  induction l1 as [|x l1 IH]; simpl; intros Hs k d Hk Hd.
  - by apply elem_of_nil in Hk.
  - apply StronglySorted_inv in Hs as [Hs Hx].
    apply elem_of_cons in Hk as [->|Hk].
    + rewrite Forall_forall in Hx. apply Hx. apply elem_of_app. by right.
    + by apply IH.
Qed.

Lemma index_of_name_spec (n : string) (l : list PlayerScore) (i : Z) :
  let r := index_of_name n i l in
  (r = -1 /\ Forall (fun x => name x <> n) l)
  \/ (i <= r < i + Z.of_nat (length l)
      /\ exists x, l !! Z.to_nat (r - i) = Some x /\ name x = n
                   /\ Forall (fun y => name y <> n) (take (Z.to_nat (r - i)) l)).
Proof.
  revert i. induction l as [|x l IH]; intros i; simpl.
  - left. by split.
  - destruct (String.eqb (name x) n) eqn:E.
    + right. split; [lia|]. exists x.
      replace (i - i) with 0 by lia. simpl.
      split; [done|]. split; [by apply String.eqb_eq | constructor].
    + apply String.eqb_neq in E.
      destruct (IH (i + 1)) as [[Hr Hall]|[Hr (y & Hy & Hn & Hbefore)]].
      * left. split; [exact Hr | by constructor].
      * right. split; [lia|]. exists y.
        replace (Z.to_nat (index_of_name n (i + 1) l - i))
          with (S (Z.to_nat (index_of_name n (i + 1) l - (i + 1)))) by lia.
        simpl. split; [exact Hy|]. split; [exact Hn | by constructor].
Qed.

(** X1. [get_player_rank] returns the 1-based position of the first entry
    of the title's list that carries the name, and -1 exactly when no entry
    does (or the title is unknown); it never changes the store. *)
Theorem get_player_rank_first_match st g n :
  let l := default [] (scores st !! g) in
  exists r,
    get_player_rank g n st = (st, Returned r)
    /\ ((r = -1 /\ Forall (fun x => name x <> n) l)
        \/ (1 <= r <= Z.of_nat (length l)
            /\ exists x, l !! Z.to_nat (r - 1) = Some x /\ name x = n
                         /\ Forall (fun y => name y <> n) (take (Z.to_nat (r - 1)) l))).
Proof.
  intros l. exists (index_of_name n 1 l). split; [done|].
  destruct (index_of_name_spec n l 1) as [H|[Hr H]]; [by left|].
  right. split; [lia | exact H].
Qed.

(** X2. A player just recorded on a board that was not yet full has a
    rank: [get_player_rank] after [add_score] returns a position between 1
    and the new length of the list. *)
Theorem add_score_then_rank st env g n s lv entries :
  scores st !! g = Some entries ->
  (length entries < 10)%nat ->
  exists r,
    (add_score env g n s lv ;; get_player_rank g n) st
    = (state_of (add_score env g n s lv st), Returned r)
    /\ 1 <= r <= Z.of_nat (length entries) + 1.
Proof.
  intros E Hlen.
  pose proof (proj2 (add_score_result st env g n s lv) (ex_intro _ _ E)) as Hres.
  pose proof (add_score_scores env g n s lv st) as Hsc. rewrite E in Hsc.
  unfold bind. destruct (add_score env g n s lv st) as [st' r0].
  simpl in Hres, Hsc. subst r0. simpl.
  set (new := {| name := n; score := s; level := lv; timestamp := now env; game := g |})
    in *.
  assert (Hl : default [] (scores st' !! g) = sort_desc (entries ++ [new])).
  { rewrite Hsc, lookup_insert_eq. simpl. unfold slice_to. simpl.
    apply take_ge. rewrite (Permutation_length (sort_desc_perm _)), length_app. simpl. lia. }
  exists (index_of_name n 1 (default [] (scores st' !! g))). split; [done|].
  rewrite Hl.
  destruct (index_of_name_spec n (sort_desc (entries ++ [new])) 1) as [[_ Hall]|[Hr _]].
  - exfalso. rewrite Forall_forall in Hall. apply (Hall new); [|done].
    rewrite sort_desc_perm. apply elem_of_app. right. by left.
  - rewrite (Permutation_length (sort_desc_perm _)), length_app in Hr. simpl in Hr. lia.
Qed.

Lemma add_score_then_rank_witness :
  exists r,
    (add_score Samples.env0 "Number Rush" "Ann" 6000 3 ;; get_player_rank "Number Rush" "Ann")
      Samples.fresh_board
    = (state_of (add_score Samples.env0 "Number Rush" "Ann" 6000 3 Samples.fresh_board),
       Returned r)
    /\ 1 <= r <= Z.of_nat (length (@nil PlayerScore)) + 1.
Proof.
  apply (add_score_then_rank Samples.fresh_board Samples.env0 "Number Rush" "Ann" 6000 3 []).
  - reflexivity.
  - simpl. lia.
Defined.

(** X3. [add_score] loses nothing but what falls off the end: the kept
    list and the dropped entries together are the old list plus the new
    entry, the kept list has [min 10 (old length + 1)] entries, every kept
    entry ranks at least as high as every dropped one, and the lists of the
    other titles are untouched. *)
Theorem add_score_drops_only_the_lowest st env g n s lv entries :
  scores st !! g = Some entries ->
  let new := {| name := n; score := s; level := lv; timestamp := now env; game := g |} in
  let st' := state_of (add_score env g n s lv st) in
  exists kept dropped,
    scores st' !! g = Some kept
    /\ Permutation (kept ++ dropped) (entries ++ [new])
    /\ length kept = (10 `min` (length entries + 1))%nat
    /\ (forall k d, k ∈ kept -> d ∈ dropped -> ranks_before k d)
    /\ (forall g', g' <> g -> scores st' !! g' = scores st !! g').
Proof.
  intros E new st'.
  exists (take 10 (sort_desc (entries ++ [new]))), (drop 10 (sort_desc (entries ++ [new]))).
  assert (Hsc : scores st' = <[g := take 10 (sort_desc (entries ++ [new]))]> (scores st)).
  { subst st'. rewrite add_score_scores, E. done. }
  split; [by rewrite Hsc, lookup_insert_eq|].
  split; [rewrite take_drop; apply sort_desc_perm|].
  split.
  { rewrite length_take, (Permutation_length (sort_desc_perm _)), length_app. simpl. lia. }
  split.
  - apply sorted_app_ranks. rewrite take_drop. apply sort_desc_sorted.
  - intros g' Hne. rewrite Hsc. by apply lookup_insert_ne.
Qed.

Lemma add_score_drops_only_the_lowest_witness :
  exists kept dropped,
    scores (state_of (add_score Samples.env0 "Number Rush" "Ann" 6000 3 Samples.fresh_board))
      !! "Number Rush" = Some kept
    /\ Permutation (kept ++ dropped)
         ([] ++ [ {| name := "Ann"; score := 6000; level := 3;
                     timestamp := now Samples.env0; game := "Number Rush" |} ])
    /\ length kept = (10 `min` (length (@nil PlayerScore) + 1))%nat
    /\ (forall k d, k ∈ kept -> d ∈ dropped -> ranks_before k d)
    /\ (forall g', g' <> "Number Rush" ->
          scores (state_of (add_score Samples.env0 "Number Rush" "Ann" 6000 3
                              Samples.fresh_board)) !! g'
          = scores Samples.fresh_board !! g').
Proof.
  apply (add_score_drops_only_the_lowest Samples.fresh_board Samples.env0
           "Number Rush" "Ann" 6000 3 []).
  reflexivity.
Defined.

(** X4. On a ranked list the new entry goes behind every entry whose key
    (score, level) is at least its own, ties included, and ahead of every
    entry with a smaller key, while the old entries keep their order; so of
    two equal results the earlier one ranks higher, and on a full board a
    result that does not beat the last entry is not kept. *)
Theorem add_score_places_after_ties st env g n s lv entries :
  scores st !! g = Some entries ->
  StronglySorted ranks_before entries ->
  let new := {| name := n; score := s; level := lv; timestamp := now env; game := g |} in
  let st' := state_of (add_score env g n s lv st) in
  scores st' !! g
  = Some (take 10 (filter (fun e => key_ltb (key e) (key new) = false) entries
                   ++ new :: filter (fun e => key_ltb (key e) (key new) = true) entries))
  /\ (length entries = 10%nat ->
      Forall (fun e => key_ltb (key e) (key new) = false) entries ->
      scores st' !! g = Some entries).
Proof.
  intros E Hs new st'.
  assert (Hsc : scores st' !! g
                = Some (take 10 (filter (fun e => key_ltb (key e) (key new) = false) entries
                   ++ new :: filter (fun e => key_ltb (key e) (key new) = true) entries))).
  { subst st' new. rewrite add_score_scores, E, lookup_insert_eq.
    unfold slice_to. simpl Z.leb. simpl Z.to_nat. cbv iota.
    by rewrite (sort_desc_snoc _ entries Hs). }
  split; [exact Hsc|].
  intros Hlen Hall. rewrite Hsc. f_equal.
  rewrite (filter_all _ entries Hall).
  rewrite take_app_le by lia. apply take_ge. lia.
Qed.

Lemma add_score_places_after_ties_witness :
  map name (default [] (scores Samples.three_results !! "Number Rush"))
  = ["Cy"; "Ann"; "Bob"]
  /\ StronglySorted ranks_before
       (default [] (scores Samples.three_results !! "Number Rush"))
  /\ map name
       (default []
          (scores (state_of (add_score Samples.env0 "Number Rush" "Fay" 6000 3
                              Samples.three_results))
             !! "Number Rush"))
     = ["Cy"; "Ann"; "Fay"; "Bob"].
Proof.
  assert (E : scores Samples.three_results !! "Number Rush"
              = Some (default [] (scores Samples.three_results !! "Number Rush")))
    by reflexivity.
  assert (Hs : StronglySorted ranks_before
                 (default [] (scores Samples.three_results !! "Number Rush"))).
  { exact (proj1 (proj1 (run_calls_ok (take 3 Samples.calls) Samples.fresh_board
                            (store_ok_known_games Missing) I) _ _ E)). }
  split; [reflexivity|]. split; [exact Hs|].
  rewrite (proj1 (add_score_places_after_ties Samples.three_results Samples.env0
                    "Number Rush" "Fay" 6000 3 _ E Hs)).
  reflexivity.
Defined.

(** X5. A result recorded while the file can be written survives a
    restart: the store constructed from the file [add_score] left is the
    store as it was after the call.  When the file cannot be opened for
    writing, the call still returns [True] and updates the mapping in memory
    exactly as it would have, and leaves the file as it was. *)
Theorem add_score_persists st env g n s lv :
  is_Some (scores st !! g) ->
  let st' := state_of (add_score env g n s lv st) in
  (write env = Written -> state_of (init (SCORES_FILE st')) = st')
  /\ (write env = OpenRaises ->
      SCORES_FILE st' = SCORES_FILE st
      /\ result_of (add_score env g n s lv st) = Returned true
      /\ scores st'
         = scores (state_of (add_score {| now := now env; write := Written |}
                               g n s lv st))).
Proof.
  intros [entries E] st'. subst st'. split.
  - intros Hw.
    unfold add_score, save_scores, try_except, bind, get, modify, raise, ret, state_of.
    rewrite E, Hw. reflexivity.
  - intros Hw. split; [|split].
    + unfold add_score, save_scores, try_except, bind, get, modify, raise, ret, state_of.
      rewrite E, Hw. reflexivity.
    + apply add_score_result. by exists entries.
    + by rewrite !add_score_scores.
Qed.

Lemma add_score_persists_witness :
  is_Some (scores Samples.three_results !! "Number Rush")
  /\ state_of (init (SCORES_FILE
                 (state_of (add_score Samples.env0 "Number Rush" "Fay" 6000 3
                              Samples.three_results))))
     = state_of (add_score Samples.env0 "Number Rush" "Fay" 6000 3 Samples.three_results)
  /\ SCORES_FILE (state_of (add_score Samples.env_read_only "Number Rush" "Fay" 6000 3
                              Samples.three_results))
     = SCORES_FILE Samples.three_results.
Proof.
  assert (H : is_Some (scores Samples.three_results !! "Number Rush")).
  { eexists. reflexivity. }
  split; [exact H|]. split.
  - exact (proj1 (add_score_persists Samples.three_results Samples.env0
                    "Number Rush" "Fay" 6000 3 H) eq_refl).
  - exact (proj1 (proj2 (add_score_persists Samples.three_results Samples.env_read_only
                           "Number Rush" "Fay" 6000 3 H) eq_refl)).
Defined.

Lemma clear_scores_eq env game_ st :
  clear_scores env game_ st
  = save_scores env
      (set_scores
         match game_ with
         | Some (String c g) => <[String c g := []]> (scores st)
         | _ => (fun _ => []) <$> scores st
         end st).
Proof. by destruct game_ as [[|c g]|]. Qed.

(** X6. [clear_scores] returns normally whatever the write does.  Without
    a title, or with the empty title, every key of the mapping is kept and
    maps to the empty list.  With any other title that title maps to the
    empty list and the others are untouched, whether the store knew the
    title or not: after it [add_score] accepts the title and the list holds
    the new entry alone.  Ranked lists stay ranked. *)
Theorem clear_scores_effect st env :
  (forall game_, result_of (clear_scores env game_ st) = Returned tt)
  /\ (forall game_ g,
        game_ = None \/ game_ = Some EmptyString ->
        scores (state_of (clear_scores env game_ st)) !! g
        = (fun _ => []) <$> (scores st !! g))
  /\ (forall c t n s lv,
        let g := String c t in
        let st' := state_of (clear_scores env (Some g) st) in
        scores st' !! g = Some []
        /\ (forall g', g' <> g -> scores st' !! g' = scores st !! g')
        /\ result_of (add_score env g n s lv st') = Returned true
        /\ scores (state_of (add_score env g n s lv st')) !! g
           = Some [ {| name := n; score := s; level := lv;
                       timestamp := now env; game := g |} ])
  /\ (forall game_, store_ok st -> store_ok (state_of (clear_scores env game_ st))).
Proof.
  split; [|split; [|split]].
  - intros game_. rewrite clear_scores_eq. apply save_scores_returns.
  - intros game_ g [-> | ->]; rewrite clear_scores_eq, save_scores_scores; simpl;
      apply lookup_fmap.
  - intros c t n s lv g st'.
    assert (Hsc : scores st' = <[g := []]> (scores st)).
    { subst st'. by rewrite clear_scores_eq, save_scores_scores. }
    assert (Hg : scores st' !! g = Some []) by (by rewrite Hsc, lookup_insert_eq).
    split; [exact Hg|]. split; [|split].
    + intros g' Hne. rewrite Hsc. by apply lookup_insert_ne.
    + apply add_score_result. by exists [].
    + rewrite add_score_scores, Hg, lookup_insert_eq. done.
  - intros game_ Hok g l. rewrite clear_scores_eq, save_scores_scores. simpl.
    assert (Hnil : ranked []) by (split; [constructor | simpl; lia]).
    destruct game_ as [[|c t]|].
    + rewrite lookup_fmap. destruct (scores st !! g); simpl; [|done].
      by intros [= <-].
    + intros [[_ <-]|[_ H]]%lookup_insert_Some; [done | by apply (Hok g)].
    + rewrite lookup_fmap. destruct (scores st !! g); simpl; [|done].
      by intros [= <-].
Qed.

End StoreUse.

(** ** More on the ordered-click game: the grid, clicks, the end of a round *)

Section RushMore.
Import Py NumberRush.

Lemma nr_widget_call_alive st :
  Tk.widgets_alive (parent st) = true -> widget_call st = (st, Returned tt).
Proof. intros H. unfold widget_call, bind, get, ret. by rewrite H. Qed.

Lemma nr_widget_call_dead st :
  Tk.widgets_alive (parent st) = false -> widget_call st = (st, Raised TclError).
Proof. intros H. unfold widget_call, bind, get, raise. by rewrite H. Qed.

Lemma nr_foldl_buttons (xs : list Z) (st : NumberRushGame) :
  foldl (fun s x => set_buttons (buttons s ++ [ {| number := x; clicked := false |} ]) s)
        st xs
  = set_buttons (buttons st ++ map (fun x => {| number := x; clicked := false |}) xs) st.
Proof.
  revert st. induction xs as [|x xs IH]; intros st; simpl.
  - rewrite app_nil_r. by destruct st.
  - rewrite IH. simpl. by rewrite <- app_assoc.
Qed.

Lemma find_button_some ok num (l : list ButtonData) (k : nat) :
  (exists b, b ∈ l /\ number b = num /\ ok b = true) ->
  exists i b, find_button ok num k l = Some (k + i)%nat
              /\ l !! i = Some b /\ number b = num /\ ok b = true.
Proof.
  revert k. induction l as [|x l IH]; intros k (b & Hb & Hn & Hok).
  - by apply elem_of_nil in Hb.
  - simpl. destruct ((number x =? num) && ok x) eqn:E.
    + exists 0%nat, x. apply andb_true_iff in E as [E1 E2]. apply Z.eqb_eq in E1.
      rewrite Nat.add_0_r. done.
    + apply elem_of_cons in Hb as [->|Hb].
      * rewrite Hok, andb_true_r in E. apply Z.eqb_neq in E. done.
      * destruct (IH (S k)) as (i & b' & Hf & Hl & Hn' & Hok'); [by exists b|].
        exists (S i), b'. rewrite Hf. split; [f_equal; lia | done].
Qed.

Lemma elem_of_range_from_1 (n k : Z) : k ∈ range_from_1 n <-> 1 <= k <= n.
Proof.
  unfold range_from_1. rewrite list_elem_of_fmap. split.
  - intros (i & -> & Hi). apply elem_of_seq in Hi. lia.
  - intros H. exists (Z.to_nat k). split; [lia|]. apply elem_of_seq. lia.
Qed.

(** X7. [create_game_grid] on live widgets replaces the buttons by one
    unclicked button per shuffled number, in the order of the shuffle; when
    the shuffle permutes the numbers there are [total_numbers] buttons and
    every number from 1 to [total_numbers] is on a button that has not been
    clicked.  On destroyed widgets it raises [TclError] and changes
    nothing. *)
Theorem create_game_grid_buttons shuffle st :
  let numbers_ := shuffle (range_from_1 (total_numbers st)) in
  let st' := state_of (create_game_grid shuffle st) in
  (Tk.widgets_alive (parent st) = true ->
   create_game_grid shuffle st
   = (set_buttons (map (fun num => {| number := num; clicked := false |}) numbers_) st,
      Returned tt)
   /\ (Permutation numbers_ (range_from_1 (total_numbers st)) ->
       length (buttons st') = Z.to_nat (total_numbers st)
       /\ forall k, 1 <= k <= total_numbers st ->
            exists i, find_button (fun b => negb (clicked b)) k 0 (buttons st') = Some i
                      /\ buttons st' !! i = Some {| number := k; clicked := false |}))
  /\ (Tk.widgets_alive (parent st) = false ->
      create_game_grid shuffle st = (st, Raised TclError)).
Proof.
  intros numbers_ st'. split.
  - intros Halive.
    assert (Heq : create_game_grid shuffle st
                  = (set_buttons (map (fun num => {| number := num; clicked := false |})
                                      numbers_) st, Returned tt)).
    { unfold create_game_grid. unfold bind at 1. rewrite (nr_widget_call_alive st Halive).
      unfold bind, modify, get. simpl.
      change (fun num s => (set_buttons (buttons s ++ [ {| number := num; clicked := false |} ]) s,
                            Returned tt))
        with (fun num s => ((fun num s => set_buttons
                               (buttons s ++ [ {| number := num; clicked := false |} ]) s) num s,
                            @Returned unit tt)).
      rewrite (for_each_modify
                 (fun num s => set_buttons
                    (buttons s ++ [ {| number := num; clicked := false |} ]) s)).
      by rewrite nr_foldl_buttons. }
    split; [exact Heq|]. intros Hperm. subst st'. rewrite Heq. simpl. split.
    + rewrite length_map, (Permutation_length Hperm). unfold range_from_1.
      by rewrite length_map, length_seq.
    + intros k Hk.
      destruct (find_button_some (fun b => negb (clicked b)) k
                  (map (fun num => {| number := num; clicked := false |}) numbers_) 0)
        as (i & b & Hf & Hl & Hn & _).
      { exists {| number := k; clicked := false |}. split; [|done].
        apply list_elem_of_fmap. exists k. split; [done|].
        rewrite Hperm. by apply elem_of_range_from_1. }
      exists i. split; [exact Hf|]. rewrite Hl. f_equal.
      apply list_lookup_fmap_Some in Hl as (x & -> & _). simpl in Hn. by subst x.
  - intros Hdead. unfold create_game_grid. unfold bind at 1.
    by rewrite (nr_widget_call_dead st Hdead).
Qed.

Lemma create_game_grid_buttons_witness :
  Tk.widgets_alive (parent Samples.nr_started) = true
  /\ length (buttons (state_of (create_game_grid (fun l => l) Samples.nr_started)))
     = Z.to_nat (total_numbers Samples.nr_started)
  /\ exists i,
       find_button (fun b => negb (clicked b)) 25 0
         (buttons (state_of (create_game_grid (fun l => l) Samples.nr_started))) = Some i
       /\ buttons (state_of (create_game_grid (fun l => l) Samples.nr_started)) !! i
          = Some {| number := 25; clicked := false |}.
Proof.
  assert (H : Tk.widgets_alive (parent Samples.nr_started) = true) by reflexivity.
  split; [exact H|].
  destruct (proj1 (create_game_grid_buttons (fun l => l) Samples.nr_started) H)
    as [_ Hperm].
  destruct (Hperm (Permutation_refl _)) as [Hlen Hall].
  split; [exact Hlen|]. apply Hall. vm_compute. split; discriminate.
Defined.

(** X8. A click on a number other than the expected one, in a live round,
    never advances the counter, marks no button, touches no player and does
    not end the round: the game object changes only in its event queue,
    which gains at most the one callback that ends the red flash. *)
Theorem number_clicked_mismatch now env num st :
  game_active st = true ->
  num <> current_number st ->
  let st' := state_of (number_clicked now env num st) in
  st' = set_parent (parent st') st
  /\ Tk.widgets_alive (parent st') = Tk.widgets_alive (parent st)
  /\ (Tk.scheduled (parent st') = Tk.scheduled (parent st)
      \/ Tk.scheduled (parent st')
         = Tk.scheduled (parent st)
           ++ [(Tk.next_id (parent st), (200, CbRestoreColour num))]).
Proof.
  intros Hact Hne st'. subst st'.
  unfold number_clicked, widget_call, after. run. rewrite Hact. simpl.
  apply Z.eqb_neq in Hne. rewrite Hne.
  destruct (find_button _ num 0 (buttons st)); simpl.
  - destruct (Tk.widgets_alive (parent st)) eqn:Hw; simpl.
    + split; [done|]. split; [done|]. by right.
    + split; [by destruct st|]. split; [done|]. by left.
  - split; [by destruct st|]. split; [done|]. by left.
Qed.

Lemma number_clicked_mismatch_witness :
  game_active Samples.nr_started = true
  /\ 7 <> current_number Samples.nr_started
  /\ state_of (number_clicked (float_of_int 101) (fun _ => Samples.env0) 7
                 Samples.nr_started)
     = set_parent
         (parent (state_of (number_clicked (float_of_int 101) (fun _ => Samples.env0) 7
                              Samples.nr_started)))
         Samples.nr_started.
Proof.
  assert (H1 : game_active Samples.nr_started = true) by reflexivity.
  assert (H2 : 7 <> current_number Samples.nr_started) by (vm_compute; discriminate).
  split; [exact H1|]. split; [exact H2|].
  exact (proj1 (number_clicked_mismatch (float_of_int 101) (fun _ => Samples.env0) 7
                  Samples.nr_started H1 H2)).
Defined.

Lemma nr_players_widget_call st : players (fst (widget_call st)) = players st.
Proof. unfold widget_call, bind, get, ret, raise. by destruct (Tk.widgets_alive _). Qed.

(** What [round_complete] leaves of the player whose round it was, on every
    path through it. *)
Lemma nr_round_complete_marks now env st t0 p :
  start_time st = Some t0 ->
  players st !! current_player st = Some p ->
  let st' := state_of (round_complete now env st) in
  game_active st' = false
  /\ exists sc,
       players st'
       = <[current_player st := {| name := name p; score := sc;
                                   time := float_sub now t0; completed := true |}]>
           (players st).
Proof.
  intros Ht0 Hp st'. split.
  { destruct (nr_turn_round_complete now env st) as (cp' & _ & Ht).
    by apply (f_equal Session.game_active) in Ht. }
  subst st'. unfold round_complete.
  unfold bind at 1, modify at 1. unfold bind at 1.
  rewrite nr_cancel_timer_eq.
  set (st1 := match timer_id (set_game_active false st) with
              | Some id => _ | None => _ end).
  assert (H1 : players st1 = players st /\ start_time st1 = start_time st
               /\ current_player st1 = current_player st).
  { subst st1. simpl. by destruct (timer_id st). }
  clearbody st1. destruct H1 as (Hpl & Hst & Hcp).
  pose proof (nr_end_game_players env) as He. unfold state_of in He.
  pose proof nr_players_widget_call as Hwc.
  pose proof (lookup_lt_Some _ _ _ Hp) as Hlt.
  unfold bind, get, modify, getitem, ret, raise, update_player, state_of.
  rewrite Hst, Ht0. simpl. rewrite Hpl, Hcp, Hp. simpl.
  match goal with |- context [truediv ?a ?b ?s] =>
    destruct (truediv_state a b s) as [r Hr] end.
  rewrite Hr. clear Hr. destruct r as [q|e]; simpl.
  - match goal with |- context [int_of_float q ?s] =>
      destruct (int_of_float_state q s) as [r Hr]; rewrite Hr; clear Hr end.
    destruct r as [n|e]; simpl.
    + rewrite nr_update_player_display; simpl.
      exists (n * current_level st1).
      destruct (_ <? _)%nat; simpl; rewrite ?Hwc, ?He; simpl;
        by rewrite ?Hpl, ?Hcp, (alter_as_insert _ _ _ _ Hp), !alter_insert.
    + exists (score p).
      by rewrite ?Hpl, ?Hcp, (alter_as_insert _ _ _ _ Hp), !alter_insert.
  - exists (score p).
    by rewrite ?Hpl, ?Hcp, (alter_as_insert _ _ _ _ Hp), !alter_insert.
Qed.

(** X9. When the clock reads the same at the last click as at the start
    of the round, [round_complete] raises [ZeroDivisionError] out of the
    score computation: the player is already marked completed, with the
    score held before, the turn has not moved on, the round is over and
    nothing has gone to the leaderboard. *)
Theorem round_complete_zero_elapsed st now env t0 p sgn :
  start_time st = Some t0 ->
  players st !! current_player st = Some p ->
  float_sub now t0 = S754_zero sgn ->
  let st' := state_of (round_complete now env st) in
  result_of (round_complete now env st) = Raised ZeroDivisionError
  /\ players st'
     = <[current_player st := {| name := name p; score := score p;
                                 time := S754_zero sgn; completed := true |}]>
         (players st)
  /\ current_player st' = current_player st
  /\ game_active st' = false
  /\ scoreboard st' = scoreboard st.
Proof.
  intros Ht0 Hp Hz st'. subst st'.
  pose proof (lookup_lt_Some _ _ _ Hp) as Hlt.
  unfold round_complete, cancel_timer, update_player, truediv. run.
  destruct (timer_id st); simpl; rewrite Ht0; simpl; rewrite Hp; simpl;
    rewrite Hz; simpl;
    by rewrite (alter_as_insert _ _ _ _ Hp), !alter_insert.
Qed.

Lemma round_complete_zero_elapsed_witness :
  start_time Samples.nr_started = Some (float_of_int 100)
  /\ float_sub (float_of_int 100) (float_of_int 100) = S754_zero false
  /\ result_of (round_complete (float_of_int 100) (fun _ => Samples.env0)
                  Samples.nr_started)
     = Raised ZeroDivisionError
  /\ map completed
       (players (state_of (round_complete (float_of_int 100) (fun _ => Samples.env0)
                             Samples.nr_started)))
     = [true].
Proof.
  assert (H1 : start_time Samples.nr_started = Some (float_of_int 100)) by reflexivity.
  assert (H2 : players Samples.nr_started !! current_player Samples.nr_started
               = Some {| name := "Ann"; score := 0; time := S754_zero false;
                         completed := false |}) by reflexivity.
  assert (H3 : float_sub (float_of_int 100) (float_of_int 100) = S754_zero false)
    by reflexivity.
  split; [exact H1|]. split; [exact H3|].
  destruct (round_complete_zero_elapsed Samples.nr_started (float_of_int 100)
              (fun _ => Samples.env0) _ _ _ H1 H2 H3) as (Hr & Hpl & _).
  split; [exact Hr|]. rewrite Hpl. reflexivity.
Defined.

(** A click on the expected number that is not the last one. *)
Lemma nr_click_expected now env st :
  game_active st = true ->
  Tk.widgets_alive (parent st) = true ->
  current_number st < total_numbers st ->
  let st' := state_of (number_clicked now env (current_number st) st) in
  round st' = round st /\ current_number st' = current_number st + 1.
Proof.
  intros Hact Hw Hlt st'. subst st'.
  unfold number_clicked, widget_call. run. rewrite Hact. simpl.
  rewrite Z.eqb_refl.
  assert (Hno : (total_numbers st <? current_number st + 1) = false) by (apply Z.ltb_ge; lia).
  destruct (find_button _ _ 0 (buttons st)); simpl; rewrite ?Hw; simpl;
    rewrite nr_update_display; simpl; rewrite Hno; simpl;
    unfold round; simpl; by rewrite ?Hact, ?Hw.
Qed.

(** A click on the expected number that is the last one. *)
Lemma nr_click_last now env st t0 p :
  game_active st = true ->
  Tk.widgets_alive (parent st) = true ->
  current_number st = total_numbers st ->
  start_time st = Some t0 ->
  players st !! current_player st = Some p ->
  let st' := state_of (number_clicked now env (current_number st) st) in
  game_active st' = false
  /\ exists sc,
       players st'
       = <[current_player st := {| name := name p; score := sc;
                                   time := float_sub now t0; completed := true |}]>
           (players st).
Proof.
  intros Hact Hw Hlast Ht0 Hp st'. subst st'.
  assert (Hyes : (total_numbers st <? current_number st + 1) = true) by (apply Z.ltb_lt; lia).
  assert (Hrc : exists st2,
             number_clicked now env (current_number st) st = round_complete now env st2
             /\ start_time st2 = start_time st /\ players st2 = players st
             /\ current_player st2 = current_player st).
  { unfold number_clicked, widget_call. run. rewrite Hact. simpl. rewrite Z.eqb_refl.
    destruct (find_button _ _ 0 (buttons st)); simpl; rewrite ?Hw; simpl;
      rewrite nr_update_display; simpl; rewrite Hyes;
      (eexists; split; [reflexivity | done]). }
  destruct Hrc as (st2 & -> & Hst & Hpl & Hcp).
  rewrite <- Hst in Ht0. rewrite <- Hpl, <- Hcp in Hp.
  destruct (nr_round_complete_marks now env st2 t0 p Ht0 Hp) as (Hga & sc & Hsc).
  split; [exact Hga|]. exists sc. by rewrite Hsc, Hpl, Hcp.
Qed.

Lemma nr_clicks_prefix (nows : Z -> float) env (n : nat) : forall st (c : nat),
  game_active st = true ->
  Tk.widgets_alive (parent st) = true ->
  current_number st = Z.of_nat c ->
  Z.of_nat (c + n) <= total_numbers st ->
  let st' := run_all (map (fun k => number_clicked (nows k) env k)
                          (map Z.of_nat (seq c n))) st in
  round st' = round st /\ current_number st' = Z.of_nat (c + n).
Proof.
  induction n as [|n IH]; intros st c Hact Hw Hc Hle; simpl.
  - split; [done|]. rewrite Hc. f_equal. lia.
  - rewrite <- Hc.
    destruct (nr_click_expected (nows (current_number st)) env st Hact Hw) as [Hr Hn];
      [lia|].
    unfold state_of in Hr, Hn.
    set (st1 := fst (number_clicked (nows (current_number st)) env (current_number st) st))
      in *.
    assert (Hr' := Hr). unfold round in Hr'.
    injection Hr' as Hga Hal _ _ _ Htot _ _ _.
    destruct (IH st1 (S c)) as [Hr2 Hn2]; [congruence | congruence | lia | lia |].
    split; [by rewrite Hr2|]. rewrite Hn2. f_equal. lia.
Qed.

(** X10. Clicking 1, 2, ... up to [total_numbers] in that order, on live
    widgets and from the start of a round, completes the round: before the
    last click the round stays live with the counter one past the clicks
    made and no player touched, and the last click ends the round and marks
    the current player completed with the time between the start of the
    round and that click. *)
Theorem clicks_in_order_complete_round (nows : Z -> float) env st t0 p :
  game_active st = true ->
  Tk.widgets_alive (parent st) = true ->
  current_number st = 1 ->
  1 <= total_numbers st ->
  start_time st = Some t0 ->
  players st !! current_player st = Some p ->
  let clicks := map (fun k => number_clicked (nows k) env k)
                    (range_from_1 (total_numbers st)) in
  (forall j, (j < length clicks)%nat ->
     round (run_all (take j clicks) st) = round st
     /\ current_number (run_all (take j clicks) st) = Z.of_nat j + 1)
  /\ game_active (run_all clicks st) = false
  /\ exists sc,
       players (run_all clicks st)
       = <[current_player st := {| name := name p; score := sc;
                                   time := float_sub (nows (total_numbers st)) t0;
                                   completed := true |}]>
           (players st).
Proof.
  intros Hact Hw Hc Htot Ht0 Hp clicks. subst clicks. unfold range_from_1.
  split.
  - intros j Hj. rewrite !length_map, length_seq in Hj.
    rewrite <- !fmap_take, take_seq, Nat.min_l by lia.
    destruct (nr_clicks_prefix nows env j st 1 Hact Hw) as [Hr Hn]; [lia | lia |].
    split; [exact Hr|]. etrans; [exact Hn|]. lia.
  - set (T := Z.to_nat (total_numbers st)).
    replace T with (Init.Nat.pred T + 1)%nat by lia.
    rewrite seq_app, !fmap_app. unfold run_all. rewrite foldl_app. simpl.
    destruct (nr_clicks_prefix nows env (Init.Nat.pred T) st 1 Hact Hw) as [Hr Hn];
      [lia | lia |].
    unfold run_all in Hr, Hn.
    set (st1 := foldl _ st _) in *.
    unfold round in Hr. injection Hr as Hga Hal Hpl Hcp Hst Htn _ _ _.
    assert (Hlast : Z.of_nat (S (Init.Nat.pred T)) = current_number st1)
      by (rewrite Hn; done).
    rewrite Hlast.
    assert (Htotal : total_numbers st = current_number st1) by lia.
    rewrite Htotal.
    destruct (nr_click_last (nows (current_number st1)) env st1 t0 p) as (Hga' & sc & Hsc);
      [congruence | congruence | lia | congruence | congruence |].
    unfold state_of in Hga', Hsc.
    split; [exact Hga'|]. exists sc. by rewrite Hsc, Hpl, Hcp.
Qed.

Lemma clicks_in_order_complete_round_witness :
  game_active Samples.nr_started = true
  /\ Tk.widgets_alive (parent Samples.nr_started) = true
  /\ current_number Samples.nr_started = 1
  /\ total_numbers Samples.nr_started = 25
  /\ game_active
       (run_all (map (fun k => number_clicked (float_of_int 105) (fun _ => Samples.env0) k)
                     (range_from_1 (total_numbers Samples.nr_started)))
                Samples.nr_started) = false.
Proof.
  assert (H1 : game_active Samples.nr_started = true) by reflexivity.
  assert (H2 : Tk.widgets_alive (parent Samples.nr_started) = true) by reflexivity.
  assert (H3 : current_number Samples.nr_started = 1) by reflexivity.
  assert (H4 : 1 <= total_numbers Samples.nr_started) by (vm_compute; discriminate).
  assert (H5 : start_time Samples.nr_started = Some (float_of_int 100)) by reflexivity.
  assert (H6 : players Samples.nr_started !! current_player Samples.nr_started
               = Some {| name := "Ann"; score := 0; time := S754_zero false;
                         completed := false |}) by reflexivity.
  split; [exact H1|]. split; [exact H2|]. split; [exact H3|]. split; [reflexivity|].
  exact (proj1 (proj2 (clicks_in_order_complete_round (fun _ => float_of_int 105)
                         (fun _ => Samples.env0) Samples.nr_started _ _
                         H1 H2 H3 H4 H5 H6))).
Defined.

Lemma nr_round_start_keeps shuffle :
  keeps (fun s => (players s, current_player s, game_active s))
    (guarded_widget_call ;; update_player_display ;; create_game_grid shuffle ;;
     update_display ;; update_timer).
Proof.
  apply keeps_bind; [intros s; by rewrite nr_guarded_widget_call | intros _].
  apply keeps_bind; [intros s; by rewrite nr_update_player_display | intros _].
  apply keeps_bind; [unfold create_game_grid, widget_call; keeps_tac | intros _].
  apply keeps_bind; [intros s; by rewrite nr_update_display | intros _].
  unfold update_timer.
  apply keeps_bind; [apply keeps_get | intros s0].
  destruct (game_active s0 && _); [|apply keeps_ret].
  apply keeps_bind; [intros s; by rewrite nr_timer_label_shown | intros shown].
  destruct shown; [|apply keeps_ret].
  unfold after. keeps_tac.
Qed.

Lemma nr_start_round_from_skips now shuffle env rest : forall st,
  drop (current_player st) (players st) = rest ->
  let st' := state_of (start_round_from rest now shuffle env st) in
  players st' = players st
  /\ (current_player st <= current_player st')%nat
  /\ (forall k p, (current_player st <= k < current_player st')%nat ->
        players st !! k = Some p -> completed p = true)
  /\ (game_active st' = true ->
        exists p, players st !! current_player st' = Some p /\ completed p = false)
  /\ (game_active st' = false -> (length (players st) <= current_player st')%nat).
Proof.
  induction rest as [|player rest IH]; intros st Hdrop; simpl.
  - pose proof (nr_turn_end_game env st) as Ht.
    pose proof (f_equal Session.current_player Ht) as Hcp.
    pose proof (f_equal Session.game_active Ht) as Hga. simpl in Hcp, Hga.
    rewrite nr_end_game_players, Hcp, Hga.
    split; [done|]. split; [done|]. split; [intros; lia|]. split; [done|].
    intros _. apply (f_equal length) in Hdrop. rewrite length_drop in Hdrop.
    simpl in Hdrop. lia.
  - apply drop_cons_inv in Hdrop as [Hp Hrest].
    destruct (completed player) eqn:Hdone.
    + unfold bind, modify. simpl.
      specialize (IH (set_current_player (S (current_player st)) st) Hrest).
      simpl in IH.
      destruct IH as (H1 & H2 & H3 & H4 & H5).
      split; [exact H1|]. split; [lia|]. split; [|by split].
      intros k p Hk Hkp.
      destruct (decide (k = current_player st)) as [->|Hne].
      * rewrite Hp in Hkp. by injection Hkp as <-.
      * apply (H3 k p); [lia | done].
    + assert (Heq : (modify (set_current_number 1) ;;
                     modify (set_start_time (Some now)) ;;
                     modify (set_game_active true) ;;
                     guarded_widget_call ;; update_player_display ;;
                     create_game_grid shuffle ;; update_display ;; update_timer) st
                    = (guarded_widget_call ;; update_player_display ;;
                       create_game_grid shuffle ;; update_display ;; update_timer)
                        (set_game_active true
                           (set_start_time (Some now) (set_current_number 1 st))))
        by reflexivity.
      rewrite Heq. clear Heq.
      pose proof (nr_round_start_keeps shuffle
                    (set_game_active true
                       (set_start_time (Some now) (set_current_number 1 st)))) as Hk.
      simpl in Hk. injection Hk as Hpl Hcp Hga.
      rewrite Hpl, Hcp, Hga.
      split; [done|]. split; [done|]. split; [intros; lia|]. split; [|done].
      intros _. by exists player.
Qed.

(** X11. [start_round] never starts a round for a player who has one
    behind: it leaves the player records alone, moves [current_player]
    forward over completed players only, and when it leaves a round live the
    current player is one who has not completed; when it leaves none live,
    no player is left from [current_player] on. *)
Theorem start_round_skips_completed now shuffle env st :
  let st' := state_of (start_round now shuffle env st) in
  players st' = players st
  /\ (current_player st <= current_player st')%nat
  /\ (forall k p, (current_player st <= k < current_player st')%nat ->
        players st !! k = Some p -> completed p = true)
  /\ (game_active st' = true ->
        exists p, players st !! current_player st' = Some p /\ completed p = false)
  /\ (game_active st' = false -> (length (players st) <= current_player st')%nat).
Proof.
  unfold start_round, bind, get.
  by apply nr_start_round_from_skips.
Qed.

(** *** Results are final *)

Lemma nr_update_timer_keeps :
  keeps (fun s => (players s, current_player s, game_active s)) update_timer.
Proof.
  unfold update_timer.
  apply keeps_bind; [apply keeps_get | intros s0].
  destruct (game_active s0 && _); [|apply keeps_ret].
  apply keeps_bind; [intros s; by rewrite nr_timer_label_shown | intros shown].
  destruct shown; [|apply keeps_ret].
  unfold after. keeps_tac.
Qed.

(** [round_complete] writes to the record of the current player and to no
    other. *)
Lemma nr_round_complete_alter now env st :
  exists f,
    players (state_of (round_complete now env st))
    = alter f (current_player st) (players st).
Proof.
  unfold round_complete.
  unfold bind at 1, modify at 1. unfold bind at 1.
  rewrite nr_cancel_timer_eq.
  set (st1 := match timer_id (set_game_active false st) with
              | Some id => _ | None => _ end).
  assert (H1 : players st1 = players st /\ current_player st1 = current_player st).
  { subst st1. simpl. by destruct (timer_id st). }
  clearbody st1. destruct H1 as (Hpl & Hcp).
  pose proof (nr_end_game_players env) as He. unfold state_of in He.
  pose proof nr_players_widget_call as Hwc.
  assert (Hid : forall l : list PlayerData, l = alter (fun x => x) (current_player st) l).
  { intros l. apply list_eq. intros i.
    destruct (decide (i = current_player st)) as [->|Hne].
    - rewrite list_lookup_alter_eq. by destruct (l !! current_player st).
    - by rewrite list_lookup_alter_ne. }
  unfold bind, get, modify, getitem, ret, raise, update_player, state_of.
  destruct (start_time st1) as [t0|]; simpl.
  - destruct (players st1 !! current_player st1); simpl.
    + match goal with |- context [truediv ?a ?b ?s] =>
        destruct (truediv_state a b s) as [r Hr] end.
      rewrite Hr. clear Hr. destruct r as [q|e]; simpl.
      * match goal with |- context [int_of_float q ?s] =>
          destruct (int_of_float_state q s) as [r Hr]; rewrite Hr; clear Hr end.
        destruct r as [n|e]; simpl.
        -- rewrite nr_update_player_display; simpl.
           exists (set_score (n * current_level st1)
                   ∘ set_completed true ∘ set_time (float_sub now t0)).
           destruct (_ <? _)%nat; simpl; rewrite ?Hwc, ?He; simpl;
             by rewrite Hpl, Hcp, !list_alter_alter_eq.
        -- exists (set_completed true ∘ set_time (float_sub now t0)).
           by rewrite Hpl, Hcp, !list_alter_alter_eq.
      * exists (set_completed true ∘ set_time (float_sub now t0)).
        by rewrite Hpl, Hcp, !list_alter_alter_eq.
    + exists (fun x => x). rewrite Hpl. apply Hid.
  - exists (fun x => x).
    destruct (_ <? _)%nat; simpl; rewrite ?Hwc, ?He; simpl; rewrite Hpl; apply Hid.
Qed.

Lemma nr_final_keeps {A} (m : M NumberRushGame A) st :
  keeps (fun s => (players s, current_player s, game_active s)) m ->
  live_round_open st ->
  live_round_open (state_of (m st))
  /\ players (state_of (m st)) = players st.
Proof.
  intros Hk Hopen. specialize (Hk st). simpl in Hk. injection Hk as Hpl Hcp Hga.
  split; [|exact Hpl]. unfold live_round_open. by rewrite Hpl, Hcp, Hga.
Qed.

Lemma nr_final_round_complete now env st k p :
  live_round_open st ->
  game_active st = true ->
  players st !! k = Some p -> completed p = true ->
  players (state_of (round_complete now env st)) !! k = Some p.
Proof.
  intros Hopen Hact Hk Hdone.
  destruct (nr_round_complete_alter now env st) as [f ->].
  rewrite list_lookup_alter_ne; [done|].
  intros <-. specialize (Hopen Hact p Hk). congruence.
Qed.

Lemma nr_round_complete_inactive now env st :
  game_active (state_of (round_complete now env st)) = false.
Proof.
  destruct (nr_turn_round_complete now env st) as (cp' & _ & Ht).
  by apply (f_equal Session.game_active) in Ht.
Qed.

Lemma nr_final_number_clicked now env num st :
  live_round_open st ->
  live_round_open (state_of (number_clicked now env num st))
  /\ forall k p, players st !! k = Some p -> completed p = true ->
                 players (state_of (number_clicked now env num st)) !! k = Some p.
Proof.
  intros Hopen.
  set (view := fun s => (players s, current_player s, game_active s)).
  set (Q := fun v : list PlayerData * nat * bool =>
              (v.2 = true -> forall q, v.1.1 !! v.1.2 = Some q -> completed q = false)
              /\ forall k p, players st !! k = Some p -> completed p = true ->
                             v.1.1 !! k = Some p).
  change (Q (view (state_of (number_clicked now env num st)))).
  assert (HQ : Q (view st)) by (split; [exact Hopen | done]).
  unfold number_clicked. unfold bind at 1, get at 1.
  destruct (game_active st) eqn:Hact; [|exact HQ].
  change (negb true) with false. cbv iota.
  destruct (num =? current_number st).
  - apply (bind_after_keeps view); [unfold widget_call; keeps_tac | exact HQ |].
    intros _ s1 H1.
    apply (bind_after_keeps view); [keeps_tac | by rewrite H1 |].
    intros _ s2 H2. rewrite H1 in H2. clear s1 H1.
    unfold bind at 1. rewrite nr_update_display. unfold bind, get.
    subst view. simpl in H2. injection H2 as Hpl Hcp Hga.
    destruct (total_numbers s2 <? current_number s2).
    + subst Q. simpl. split.
      * intros Ha. by rewrite nr_round_complete_inactive in Ha.
      * intros k p Hk Hdone. apply nr_final_round_complete; try congruence.
        unfold live_round_open. rewrite Hpl, Hcp, Hga. exact Hopen.
    + subst Q. simpl. rewrite Hpl, Hcp, Hga. split; [exact Hopen | done].
  - assert (Hk : keeps view
              (match find_button (fun b => negb (clicked b)) num 0 (buttons st) with
               | Some _ =>
                   widget_call ;;
                   let* _ := after 200 (CbRestoreColour num) in
                   ret tt
               | None => ret tt
               end)).
    { unfold widget_call, after. keeps_tac. }
    by rewrite Hk.
Qed.

Lemma nr_final_start_round now shuffle env st :
  live_round_open (state_of (start_round now shuffle env st))
  /\ players (state_of (start_round now shuffle env st)) = players st.
Proof.
  unfold start_round, bind, get.
  destruct (nr_start_round_from_skips now shuffle env _ st eq_refl)
    as (Hpl & _ & _ & Hlive & _).
  split; [|exact Hpl].
  intros Ha q Hq. destruct (Hlive Ha) as (p & Hp & Hdone).
  rewrite Hpl in Hq. congruence.
Qed.

Lemma nr_final_teardown st :
  live_round_open (state_of (teardown st))
  /\ players (state_of (teardown st)) = players st.
Proof.
  pose proof (nr_turn_teardown st) as Ht.
  split.
  - intros Ha. apply (f_equal Session.game_active) in Ht. simpl in Ht. congruence.
  - unfold teardown. unfold bind at 1, modify at 1. unfold bind at 1.
    rewrite nr_cancel_timer_eq. simpl. by destruct (timer_id st).
Qed.

Lemma nr_final_of_same st st' :
  live_round_open st' ->
  players st' = players st ->
  live_round_open st'
  /\ forall k p, players st !! k = Some p -> completed p = true ->
                 players st' !! k = Some p.
Proof. intros H1 H2. split; [exact H1|]. intros k p Hk _. by rewrite H2. Qed.

Lemma nr_final_step o st :
  live_round_open st ->
  live_round_open (step o st)
  /\ forall k p, players st !! k = Some p -> completed p = true ->
                 players (step o st) !! k = Some p.
Proof.
  intros Hopen. unfold step. destruct o as [now shuffle env|now env num| | |].
  - exact (nr_final_of_same st _ (proj1 (nr_final_start_round now shuffle env st))
             (proj2 (nr_final_start_round now shuffle env st))).
  - exact (nr_final_number_clicked now env num st Hopen).
  - exact (nr_final_of_same st _
             (proj1 (nr_final_keeps _ st nr_update_timer_keeps Hopen))
             (proj2 (nr_final_keeps _ st nr_update_timer_keeps Hopen))).
  - exact (nr_final_of_same st _ (proj1 (nr_final_teardown st))
             (proj2 (nr_final_teardown st))).
  - exact (nr_final_of_same st _ (proj1 (nr_final_teardown st))
             (proj2 (nr_final_teardown st))).
Qed.

Lemma nr_final_play ops : forall st,
  live_round_open st ->
  live_round_open (play ops st)
  /\ forall k p, players st !! k = Some p -> completed p = true ->
                 players (play ops st) !! k = Some p.
Proof.
  induction ops as [|o ops IH]; intros st Hopen; simpl; [by split|].
  destruct (nr_final_step o st Hopen) as [H1 H2].
  destruct (IH (step o st) H1) as [H3 H4].
  split; [exact H3|]. intros k p Hk Hdone. apply H4; [by apply H2 | done].
Qed.

Lemma nr_start_game_open sb names lv now shuffle env :
  live_round_open (state_of (start_game names lv now shuffle env (init sb))).
Proof.
  unfold start_game. run.
  destruct (LEVELS lv) as [cfg|]; simpl; [|done].
  match goal with |- live_round_open (fst (start_round _ _ _ ?s)) =>
    apply (nr_final_start_round now shuffle env s) end.
Qed.

(** X12. Results are final.  In every session of the ordered-click game,
    once a player's record carries the completed flag, no later operation
    (a click, a timer tick, a new round, leaving for the menu) changes that
    record: name, score and time stay what they were. *)
Theorem completed_result_is_final sb names lv now shuffle env ops1 ops2 k p :
  players (session sb names lv now shuffle env ops1) !! k = Some p ->
  completed p = true ->
  players (session sb names lv now shuffle env (ops1 ++ ops2)) !! k = Some p.
Proof.
  intros Hk Hdone. unfold session in *. unfold play in *. rewrite foldl_app.
  destruct (nr_final_play ops1 _ (nr_start_game_open sb names lv now shuffle env))
    as [Hopen _].
  by apply (nr_final_play ops2 _ Hopen).
Qed.

Lemma completed_result_is_final_witness :
  players (session Samples.fresh_board ["Ann"] 3 (float_of_int 100) (fun l => l)
             (fun _ => Samples.env0) Samples.nr_ops) !! 0%nat
  = Some {| name := "Ann"; score := 6000; time := float_of_int 5; completed := true |}
  /\ players (session Samples.fresh_board ["Ann"] 3 (float_of_int 100) (fun l => l)
                (fun _ => Samples.env0)
                (Samples.nr_ops
                 ++ [OpNumberClicked (float_of_int 107) (fun _ => Samples.env0) 1;
                     OpStartRound (float_of_int 108) (fun l => l) (fun _ => Samples.env0);
                     OpBackToMenu])) !! 0%nat
     = Some {| name := "Ann"; score := 6000; time := float_of_int 5; completed := true |}.
Proof.
  assert (H : players (session Samples.fresh_board ["Ann"] 3 (float_of_int 100)
                         (fun l => l) (fun _ => Samples.env0) Samples.nr_ops) !! 0%nat
              = Some {| name := "Ann"; score := 6000; time := float_of_int 5;
                        completed := true |}).
  { vm_compute. reflexivity. }
  split; [exact H|].
  exact (completed_result_is_final Samples.fresh_board ["Ann"] 3 (float_of_int 100)
           (fun l => l) (fun _ => Samples.env0) Samples.nr_ops _ 0%nat _ H eq_refl).
Defined.

End RushMore.

(** ** More on the discrimination game: answers, the clock, the end of a round *)

Section BlastMore.
Import Py ColorBlast.

Lemma cb_widget_call_alive st :
  Tk.widgets_alive (parent st) = true -> widget_call st = (st, Returned tt).
Proof. intros H. unfold widget_call, bind, get, ret. by rewrite H. Qed.

Lemma cb_players_widget_call st : players (fst (widget_call st)) = players st.
Proof. unfold widget_call, bind, get, ret, raise. by destruct (Tk.widgets_alive _). Qed.

Lemma cb_round_widget_call st : round (fst (widget_call st)) = round st.
Proof. unfold widget_call, bind, get, ret, raise. by destruct (Tk.widgets_alive _). Qed.

Lemma cb_end_game_round env st :
  let st' := fst (end_game env st) in
  players st' = players st /\ current_player st' = current_player st
  /\ game_active st' = false /\ score st' = score st.
Proof.
  rewrite cb_end_game_eq. simpl. rewrite cb_cancel_timer_eq. simpl.
  by destruct (timer_id st).
Qed.

Lemma cb_round_over_state env st p :
  players st !! current_player st = Some p ->
  let st' := state_of (round_over env st) in
  players st'
  = <[current_player st := {| name := name p;
                              points := score st * current_level st * 10;
                              completed := true |}]> (players st)
  /\ current_player st' = S (current_player st)
  /\ game_active st' = false
  /\ score st' = score st.
Proof.
  intros Hp st'. subst st'.
  pose proof (lookup_lt_Some _ _ _ Hp) as Hlt.
  assert (Hle : (length (players st) <=? current_player st)%nat = false)
    by (apply Nat.leb_gt; lia).
  assert (Heq : exists st2,
             players st2
             = <[current_player st := {| name := name p;
                                         points := score st * current_level st * 10;
                                         completed := true |}]> (players st)
             /\ current_player st2 = S (current_player st)
             /\ game_active st2 = false /\ score st2 = score st
             /\ round_over env st
                = (if (current_player st2 <? num_players st2)%nat
                   then widget_call st2 else end_game env st2)).
  { unfold round_over, update_player. run. rewrite Hle. simpl. rewrite Hp. simpl.
    rewrite cb_update_player_display. simpl.
    match goal with |- exists st2, _ /\ _ /\ _ /\ _ /\ _ ?s = _ => exists s end.
    simpl. split; [|split; [|split; [|split]]]; try done.
    - by rewrite (alter_as_insert _ _ _ _ Hp), !alter_insert.
    - by destruct (S (current_player st) <? num_players st)%nat. }
  destruct Heq as (st2 & Hpl & Hcp & Hga & Hsc & ->).
  unfold state_of.
  destruct (current_player st2 <? num_players st2)%nat.
  - pose proof (cb_round_widget_call st2) as Hr. unfold round in Hr.
    injection Hr as -> -> -> -> _ _ _. done.
  - destruct (cb_end_game_round env st2) as (-> & -> & -> & ->). done.
Qed.

(** X13. [round_over] gives the current player [score * level * 10]
    points, whether or not the target was reached, marks the player
    completed, leaves the other players alone, moves the turn on by one and
    leaves no round live. *)
Theorem round_over_points env st p :
  players st !! current_player st = Some p ->
  let st' := state_of (round_over env st) in
  players st'
  = <[current_player st := {| name := name p;
                              points := score st * current_level st * 10;
                              completed := true |}]> (players st)
  /\ current_player st' = S (current_player st)
  /\ game_active st' = false
  /\ score st' = score st.
Proof. apply cb_round_over_state. Qed.

Lemma round_over_points_witness :
  players Samples.cb_answered !! current_player Samples.cb_answered
  = Some {| name := "Ann"; points := 0; completed := false |}
  /\ score Samples.cb_answered = 1
  /\ current_level Samples.cb_answered = 2
  /\ players (state_of (round_over (fun _ => Samples.env0) Samples.cb_answered))
     = <[current_player Samples.cb_answered :=
           {| name := "Ann";
              points := score Samples.cb_answered * current_level Samples.cb_answered * 10;
              completed := true |}]> (players Samples.cb_answered).
Proof.
  assert (H : players Samples.cb_answered !! current_player Samples.cb_answered
              = Some {| name := "Ann"; points := 0; completed := false |})
    by reflexivity.
  split; [exact H|]. split; [reflexivity|]. split; [reflexivity|].
  exact (proj1 (round_over_points (fun _ => Samples.env0) Samples.cb_answered _ H)).
Defined.

(** X14. An answer given in a live round, on live widgets, never ends the
    round, whatever the score has reached: the right button adds one to the
    score, any other leaves it, and in both cases the round stays live, the
    clock and the players are untouched, and one [new_question] callback is
    scheduled, after 200 ms for a right answer and 800 ms for a wrong one. *)
Theorem check_answer_effect idx st :
  game_active st = true ->
  Tk.widgets_alive (parent st) = true ->
  (idx < answer_buttons st)%nat ->
  (correct_answer st < answer_buttons st)%nat ->
  let st' := state_of (check_answer idx st) in
  let right := (idx =? correct_answer st)%nat in
  result_of (check_answer idx st) = Returned tt
  /\ score st' = score st + (if right then 1 else 0)
  /\ game_active st' = true
  /\ time_left st' = time_left st
  /\ players st' = players st
  /\ current_player st' = current_player st
  /\ Tk.scheduled (parent st')
     = Tk.scheduled (parent st)
       ++ [(Tk.next_id (parent st), ((if right then 200 else 800), CbNewQuestion))].
Proof.
  intros Hact Hw Hidx Hca st' right. subst st' right.
  apply Nat.ltb_lt in Hidx, Hca.
  unfold check_answer, answer_button_call, widget_call, after. run.
  rewrite Hact. simpl.
  destruct (idx =? correct_answer st)%nat; simpl;
    repeat (progress (rewrite ?cb_update_stats, ?Hidx, ?Hca, ?Hw; simpl));
    by rewrite ?Hact, ?Z.add_0_r.
Qed.

Lemma check_answer_effect_witness :
  game_active Samples.cb_started = true
  /\ Tk.widgets_alive (parent Samples.cb_started) = true
  /\ (2 < answer_buttons Samples.cb_started)%nat
  /\ (correct_answer Samples.cb_started < answer_buttons Samples.cb_started)%nat
  /\ result_of (check_answer 2 Samples.cb_started) = Returned tt
  /\ score (state_of (check_answer 2 Samples.cb_started))
     = score Samples.cb_started
       + (if (2 =? correct_answer Samples.cb_started)%nat then 1 else 0).
Proof.
  assert (H1 : game_active Samples.cb_started = true) by reflexivity.
  assert (H2 : Tk.widgets_alive (parent Samples.cb_started) = true) by reflexivity.
  assert (H3 : (2 < answer_buttons Samples.cb_started)%nat) by (vm_compute; lia).
  assert (H4 : (correct_answer Samples.cb_started < answer_buttons Samples.cb_started)%nat)
    by (vm_compute; lia).
  split; [exact H1|]. split; [exact H2|]. split; [exact H3|]. split; [exact H4|].
  destruct (check_answer_effect 2 Samples.cb_started H1 H2 H3 H4) as (Hr & Hs & _).
  split; [exact Hr | exact Hs].
Defined.

(** One tick of the clock while time is left. *)
Lemma cb_countdown_tick env st :
  game_active st = true ->
  0 < time_left st ->
  let st' := state_of (countdown env st) in
  round st' = round st /\ time_left st' = time_left st - 1.
Proof.
  intros Hact Hpos st'. subst st'. apply Z.ltb_lt in Hpos.
  unfold countdown, after. run. rewrite Hact. simpl. rewrite Hpos. simpl.
  rewrite cb_update_stats. simpl. unfold round. simpl. by rewrite Hact.
Qed.

Lemma cb_countdown_ticks env (n : nat) : forall st,
  game_active st = true ->
  Z.of_nat n <= time_left st ->
  let st' := run_all (replicate n (countdown env)) st in
  round st' = round st /\ time_left st' = time_left st - Z.of_nat n.
Proof.
  induction n as [|n IH]; intros st Hact Hle; simpl.
  - split; [done | lia].
  - destruct (cb_countdown_tick env st Hact) as [Hr Ht]; [lia|].
    unfold state_of in Hr, Ht.
    assert (Hr' := Hr). unfold round in Hr'. injection Hr' as Hga _ _ _ _ _ _.
    destruct (IH (fst (countdown env st))) as [Hr2 Ht2]; [congruence | lia |].
    split; [etrans; [exact Hr2 | exact Hr] | etrans; [exact Ht2 | rewrite Ht; lia]].
Qed.

(** X15. A round ends by the clock and by nothing else.  From a live
    round with [time_left = t], each of the next [t] ticks of [countdown]
    takes one second off and leaves the round live and the score and the
    players as they are; the tick after those ends the round, gives the
    current player [score * level * 10] points, marks the player completed
    and moves the turn on. *)
Theorem countdown_runs_out env st p :
  game_active st = true ->
  0 <= time_left st ->
  players st !! current_player st = Some p ->
  let t := Z.to_nat (time_left st) in
  (forall j, (j <= t)%nat ->
     round (run_all (replicate j (countdown env)) st) = round st
     /\ time_left (run_all (replicate j (countdown env)) st) = time_left st - Z.of_nat j)
  /\ let st' := run_all (replicate (S t) (countdown env)) st in
     game_active st' = false
     /\ players st'
        = <[current_player st := {| name := name p;
                                    points := score st * current_level st * 10;
                                    completed := true |}]> (players st)
     /\ current_player st' = S (current_player st).
Proof.
  intros Hact Hnn Hp t. split.
  - intros j Hj. apply cb_countdown_ticks; [done | lia].
  - replace (S t) with (t + 1)%nat by lia.
    rewrite replicate_add. unfold run_all. rewrite foldl_app. simpl.
    destruct (cb_countdown_ticks env t st Hact) as [Hr Ht]; [lia|].
    unfold run_all in Hr, Ht.
    set (st1 := foldl _ st _) in *.
    unfold round in Hr. injection Hr as Hga Hsc Hpl Hcp Hlv _ _.
    assert (Hzero : (0 <? time_left st1) = false) by (apply Z.ltb_ge; lia).
    assert (Heq : countdown env st1 = round_over env st1).
    { unfold countdown. run. by rewrite Hga, Hact, Hzero. }
    rewrite Heq.
    rewrite <- Hpl, <- Hcp in Hp.
    destruct (cb_round_over_state env st1 p Hp) as (H1 & H2 & H3 & _).
    unfold state_of in H1, H2, H3.
    split; [exact H3|]. split; [|congruence].
    by rewrite H1, Hpl, Hcp, Hsc, Hlv.
Qed.

Lemma countdown_runs_out_witness :
  game_active Samples.cb_answered = true
  /\ 0 <= time_left Samples.cb_answered
  /\ time_left Samples.cb_answered = 39
  /\ game_active
       (run_all (replicate (S (Z.to_nat (time_left Samples.cb_answered)))
                           (countdown (fun _ => Samples.env0)))
                Samples.cb_answered) = false
  /\ players
       (run_all (replicate (S (Z.to_nat (time_left Samples.cb_answered)))
                           (countdown (fun _ => Samples.env0)))
                Samples.cb_answered)
     = <[current_player Samples.cb_answered :=
           {| name := "Ann";
              points := score Samples.cb_answered * current_level Samples.cb_answered * 10;
              completed := true |}]> (players Samples.cb_answered).
Proof.
  assert (H1 : game_active Samples.cb_answered = true) by reflexivity.
  assert (H2 : 0 <= time_left Samples.cb_answered) by (vm_compute; discriminate).
  assert (H3 : players Samples.cb_answered !! current_player Samples.cb_answered
               = Some {| name := "Ann"; points := 0; completed := false |})
    by reflexivity.
  split; [exact H1|]. split; [exact H2|]. split; [reflexivity|].
  destruct (countdown_runs_out (fun _ => Samples.env0) Samples.cb_answered _ H1 H2 H3)
    as (_ & Hga & Hpl & _).
  split; [exact Hga | exact Hpl].
Defined.

Lemma cb_LEVELS_time lv cfg : LEVELS lv = Some cfg -> 0 < time_limit cfg.
Proof.
  unfold LEVELS. intros H.
  repeat match type of H with
         | context [match ?x with _ => _ end] => destruct x; try discriminate
         end;
    injection H as <-; simpl; lia.
Qed.

(** X16. [start_round] for a player who has not completed begins a fresh
    round on live widgets: the score is 0 whatever the previous player
    reached, the round is live, the right answer is where the shuffle put
    it, and because [countdown] is called at once the clock already reads
    one second less than the level's time, with the next tick scheduled
    1000 ms ahead under [timer_id]. *)
Theorem start_round_fresh pick env st p cfg :
  players st !! current_player st = Some p ->
  completed p = false ->
  LEVELS (current_level st) = Some cfg ->
  Tk.widgets_alive (parent st) = true ->
  let st' := state_of (start_round pick env st) in
  result_of (start_round pick env st) = Returned tt
  /\ score st' = 0
  /\ time_left st' = time_limit cfg - 1
  /\ game_active st' = true
  /\ correct_answer st' = pick
  /\ players st' = players st
  /\ current_player st' = current_player st
  /\ timer_id st' = Some (Tk.next_id (parent st))
  /\ Tk.scheduled (parent st')
     = Tk.scheduled (parent st) ++ [(Tk.next_id (parent st), (1000, CbCountdown))].
Proof.
  intros Hp Hdone Hcfg Hw st'. subst st'.
  pose proof (cb_LEVELS_time _ _ Hcfg) as Hpos. apply Z.ltb_lt in Hpos.
  assert (Heq : exists st2,
             start_round pick env st = (st2, Returned tt)
             /\ score st2 = 0 /\ time_left st2 = time_limit cfg - 1
             /\ game_active st2 = true /\ correct_answer st2 = pick
             /\ players st2 = players st /\ current_player st2 = current_player st
             /\ timer_id st2 = Some (Tk.next_id (parent st))
             /\ Tk.scheduled (parent st2)
                = Tk.scheduled (parent st)
                  ++ [(Tk.next_id (parent st), (1000, CbCountdown))]).
  { unfold start_round. unfold bind at 1, get at 1.
    rewrite (drop_S _ _ _ Hp). simpl. rewrite Hdone.
    unfold bind at 1, modify at 1. unfold bind at 1, get at 1. simpl.
    rewrite Hcfg.
    unfold new_question, countdown, widget_call, after. run.
    rewrite Hw. simpl.
    destruct (0 <? answer_buttons st)%nat; simpl; rewrite ?Hw; simpl; rewrite Hpos; simpl;
      rewrite cb_update_stats; simpl; (eexists; split; [reflexivity | done]). }
  destruct Heq as (st2 & -> & H). exact (conj eq_refl H).
Qed.

Lemma start_round_fresh_witness :
  players (state_of (round_over (fun _ => Samples.env0) Samples.cb_answered))
    !! current_player (state_of (round_over (fun _ => Samples.env0) Samples.cb_answered))
  = Some {| name := "Bob"; points := 0; completed := false |}
  /\ score (state_of (round_over (fun _ => Samples.env0) Samples.cb_answered)) = 1
  /\ score (state_of (start_round 0 (fun _ => Samples.env0)
                        (state_of (round_over (fun _ => Samples.env0)
                                     Samples.cb_answered)))) = 0
  /\ time_left (state_of (start_round 0 (fun _ => Samples.env0)
                            (state_of (round_over (fun _ => Samples.env0)
                                         Samples.cb_answered)))) = 40 - 1.
Proof.
  assert (H1 : players (state_of (round_over (fun _ => Samples.env0) Samples.cb_answered))
                 !! current_player
                      (state_of (round_over (fun _ => Samples.env0) Samples.cb_answered))
               = Some {| name := "Bob"; points := 0; completed := false |})
    by reflexivity.
  assert (H2 : LEVELS (current_level
                         (state_of (round_over (fun _ => Samples.env0)
                                      Samples.cb_answered)))
               = Some {| time_limit := 40; target := 15 |}) by reflexivity.
  assert (H3 : Tk.widgets_alive
                 (parent (state_of (round_over (fun _ => Samples.env0)
                                      Samples.cb_answered))) = true) by reflexivity.
  split; [exact H1|]. split; [reflexivity|].
  destruct (start_round_fresh 0 (fun _ => Samples.env0) _ _ _ H1 eq_refl H2 H3)
    as (_ & Hs & Ht & _).
  split; [exact Hs | exact Ht].
Defined.

(** *** Results are final *)

Lemma cb_final_keeps {A} (m : M ColorBlastGame A) st :
  keeps (fun s => (players s, current_player s, game_active s)) m ->
  live_round_open st ->
  live_round_open (state_of (m st))
  /\ forall k p, players st !! k = Some p -> completed p = true ->
                 players (state_of (m st)) !! k = Some p.
Proof.
  intros Hk Hopen. specialize (Hk st). simpl in Hk. injection Hk as Hpl Hcp Hga.
  split.
  - unfold live_round_open. by rewrite Hpl, Hcp, Hga.
  - intros k p Hkp _. by rewrite Hpl.
Qed.

(** [round_over] writes to the record of the current player and to no
    other. *)
Lemma cb_round_over_alter env st :
  exists f,
    players (state_of (round_over env st)) = alter f (current_player st) (players st).
Proof.
  assert (Hid : forall l : list PlayerData, l = alter (fun x => x) (current_player st) l).
  { intros l. apply list_eq. intros i.
    destruct (decide (i = current_player st)) as [->|Hne].
    - rewrite list_lookup_alter_eq. by destruct (l !! current_player st).
    - by rewrite list_lookup_alter_ne. }
  pose proof (fun s => proj1 (cb_end_game_round env s)) as He. simpl in He.
  pose proof cb_players_widget_call as Hwc.
  unfold round_over, update_player. run.
  destruct (length (players st) <=? current_player st)%nat; simpl.
  - exists (fun x => x). rewrite He. apply Hid.
  - destruct (players st !! current_player st); simpl.
    + rewrite cb_update_player_display. simpl.
      exists (set_completed true ∘ set_points (score st * current_level st * 10)).
      destruct (_ <? _)%nat; simpl; rewrite ?Hwc, ?He; simpl;
        by rewrite list_alter_alter_eq.
    + exists (fun x => x). apply Hid.
Qed.

Lemma cb_round_over_inactive env st :
  game_active (state_of (round_over env st)) = false.
Proof.
  destruct (cb_turn_round_over env st) as (cp' & _ & Ht).
  by apply (f_equal Session.game_active) in Ht.
Qed.

Lemma cb_final_round_over env st :
  live_round_open st ->
  game_active st = true ->
  live_round_open (state_of (round_over env st))
  /\ forall k p, players st !! k = Some p -> completed p = true ->
                 players (state_of (round_over env st)) !! k = Some p.
Proof.
  intros Hopen Hact. split.
  - intros Ha. by rewrite cb_round_over_inactive in Ha.
  - intros k p Hk Hdone.
    destruct (cb_round_over_alter env st) as [f ->].
    rewrite list_lookup_alter_ne; [done|].
    intros <-. specialize (Hopen Hact p Hk). congruence.
Qed.

Lemma cb_final_countdown env st :
  live_round_open st ->
  live_round_open (state_of (countdown env st))
  /\ forall k p, players st !! k = Some p -> completed p = true ->
                 players (state_of (countdown env st)) !! k = Some p.
Proof.
  intros Hopen.
  assert (Heq : countdown env st
                = if negb (game_active st) then (st, Returned tt)
                  else if 0 <? time_left st
                       then (modify (fun st => set_time_left (time_left st - 1) st) ;;
                             update_stats ;;
                             let* id := after 1000 CbCountdown in
                             modify (set_timer_id (Some id))) st
                       else round_over env st).
  { unfold countdown. unfold bind at 1, get at 1.
    destruct (negb (game_active st)); [done|]. by destruct (0 <? time_left st). }
  rewrite Heq. clear Heq.
  destruct (game_active st) eqn:Hact; [|by split].
  change (negb true) with false. cbv iota.
  destruct (0 <? time_left st).
  - apply cb_final_keeps; [|done].
    apply keeps_bind; [keeps_tac | intros _].
    apply keeps_bind; [intros s; by rewrite cb_update_stats | intros _].
    unfold after. keeps_tac.
  - by apply cb_final_round_over.
Qed.

Lemma cb_new_question_keeps pick :
  keeps (fun s => (players s, current_player s, game_active s)) (new_question pick).
Proof. unfold new_question, widget_call. keeps_tac. Qed.

Lemma cb_check_answer_keeps idx :
  keeps (fun s => (players s, current_player s, game_active s)) (check_answer idx).
Proof.
  unfold check_answer.
  apply keeps_bind; [apply keeps_get | intros s0].
  destruct (negb (game_active s0)); [apply keeps_ret|].
  destruct (idx =? correct_answer s0)%nat.
  - apply keeps_bind; [keeps_tac | intros _].
    apply keeps_bind; [intros s; by rewrite cb_update_stats | intros _].
    unfold answer_button_call, widget_call, after. keeps_tac.
  - unfold answer_button_call, widget_call, after. keeps_tac.
Qed.

Lemma cb_final_start_round_from pick env rest : forall st,
  drop (current_player st) (players st) = rest ->
  live_round_open (state_of (start_round_from rest pick env st))
  /\ forall k p, players st !! k = Some p -> completed p = true ->
                 players (state_of (start_round_from rest pick env st)) !! k = Some p.
Proof.
  induction rest as [|player rest IH]; intros st Hdrop; simpl.
  - destruct (cb_end_game_round env st) as (Hpl & _ & Hga & _). unfold state_of.
    split; [intros Ha; congruence|]. intros k p Hk _. by rewrite Hpl.
  - apply drop_cons_inv in Hdrop as [Hp Hrest].
    destruct (completed player) eqn:Hdone.
    + exact (IH (set_current_player (S (current_player st)) st) Hrest).
    + assert (Heq : forall s,
                 (modify (set_score 0) ;;
                  let* st := get in
                  match LEVELS (current_level st) with
                  | None => raise KeyError
                  | Some cfg =>
                      modify (set_time_left (time_limit cfg)) ;;
                      modify (set_game_active true) ;;
                      guarded_widget_call ;; update_stats ;; update_player_display ;;
                      new_question pick ;; countdown env
                  end) s
                 = match LEVELS (current_level s) with
                   | None => (set_score 0 s, Raised KeyError)
                   | Some cfg =>
                       (new_question pick ;; countdown env)
                         (set_game_active true
                            (set_time_left (time_limit cfg) (set_score 0 s)))
                   end).
      { intros s. unfold bind at 1, modify at 1. unfold bind at 1, get at 1.
        change (current_level (set_score 0 s)) with (current_level s).
        destruct (LEVELS (current_level s)) as [cfg|]; [|done].
        unfold bind at 1, modify at 1. unfold bind at 1, modify at 1.
        unfold bind at 1. rewrite cb_guarded_widget_call.
        unfold bind at 1. rewrite cb_update_stats.
        unfold bind at 1. by rewrite cb_update_player_display. }
      rewrite Heq. clear Heq.
      destruct (LEVELS (current_level st)) as [cfg|];
        [|split; [intros _ q Hq; simpl in Hq; congruence | by intros]].
      set (st2 := set_game_active true
                    (set_time_left (time_limit cfg) (set_score 0 st))).
      assert (Hopen2 : live_round_open st2).
      { intros _ q Hq. simpl in Hq. congruence. }
      destruct (cb_final_keeps _ st2 (cb_new_question_keeps pick) Hopen2) as [H1 H2].
      unfold bind, state_of in *.
      destruct (new_question pick st2) as [s3 [[]|e]]; simpl in *.
      * destruct (cb_final_countdown env s3 H1) as [H3 H4].
        split; [exact H3|]. intros k p Hk Hd. apply H4; [by apply H2 | done].
      * split; [exact H1|]. intros k p Hk Hd. by apply H2.
Qed.

Lemma cb_final_start_round pick env st :
  live_round_open (state_of (start_round pick env st))
  /\ forall k p, players st !! k = Some p -> completed p = true ->
                 players (state_of (start_round pick env st)) !! k = Some p.
Proof. unfold start_round, bind, get. by apply cb_final_start_round_from. Qed.

Lemma cb_final_teardown st :
  live_round_open (state_of (teardown st))
  /\ forall k p, players st !! k = Some p -> completed p = true ->
                 players (state_of (teardown st)) !! k = Some p.
Proof.
  pose proof (cb_turn_teardown st) as Ht.
  split.
  - intros Ha. apply (f_equal Session.game_active) in Ht. simpl in Ht. congruence.
  - intros k p Hk _. unfold teardown. unfold bind at 1, modify at 1. unfold bind at 1.
    rewrite cb_cancel_timer_eq. simpl. by destruct (timer_id st).
Qed.

Lemma cb_final_step o st :
  live_round_open st ->
  live_round_open (step o st)
  /\ forall k p, players st !! k = Some p -> completed p = true ->
                 players (step o st) !! k = Some p.
Proof.
  intros Hopen. unfold step. destruct o as [pick env|pick|idx|env| |].
  - exact (cb_final_start_round pick env st).
  - exact (cb_final_keeps _ st (cb_new_question_keeps pick) Hopen).
  - exact (cb_final_keeps _ st (cb_check_answer_keeps idx) Hopen).
  - exact (cb_final_countdown env st Hopen).
  - exact (cb_final_teardown st).
  - exact (cb_final_teardown st).
Qed.

Lemma cb_final_play ops : forall st,
  live_round_open st ->
  live_round_open (play ops st)
  /\ forall k p, players st !! k = Some p -> completed p = true ->
                 players (play ops st) !! k = Some p.
Proof.
  induction ops as [|o ops IH]; intros st Hopen; simpl; [by split|].
  destruct (cb_final_step o st Hopen) as [H1 H2].
  destruct (IH (step o st) H1) as [H3 H4].
  split; [exact H3|]. intros k p Hk Hdone. apply H4; [by apply H2 | done].
Qed.

Lemma cb_start_game_open sb names lv pick env :
  live_round_open (state_of (start_game names lv pick env (init sb))).
Proof.
  unfold start_game. run.
  destruct (LEVELS lv) as [cfg|]; simpl; [|done].
  match goal with |- live_round_open (fst (start_round _ _ ?s)) =>
    apply (cb_final_start_round pick env s) end.
Qed.

(** X17. Results are final.  In every session of the discrimination
    game, once a player's record carries the completed flag, no later
    operation (an answer, a new question, a tick of the clock, a new round,
    leaving for the menu) changes that record: name and points stay what
    they were. *)
Theorem completed_points_are_final sb names lv pick env ops1 ops2 k p :
  players (session sb names lv pick env ops1) !! k = Some p ->
  completed p = true ->
  players (session sb names lv pick env (ops1 ++ ops2)) !! k = Some p.
Proof.
  intros Hk Hdone. unfold session in *. unfold play in *. rewrite foldl_app.
  destruct (cb_final_play ops1 _ (cb_start_game_open sb names lv pick env))
    as [Hopen _].
  by apply (cb_final_play ops2 _ Hopen).
Qed.

Lemma completed_points_are_final_witness :
  players (session Samples.fresh_board ["Cy"] 1 0 (fun _ => Samples.env0) Samples.cb_ops)
    !! 0%nat
  = Some {| name := "Cy"; points := 0; completed := true |}
  /\ players (session Samples.fresh_board ["Cy"] 1 0 (fun _ => Samples.env0)
                (Samples.cb_ops
                 ++ [OpCheckAnswer 0; OpCountdown (fun _ => Samples.env0);
                     OpStartRound 1 (fun _ => Samples.env0); OpBackToMenu])) !! 0%nat
     = Some {| name := "Cy"; points := 0; completed := true |}.
Proof.
  assert (H : players (session Samples.fresh_board ["Cy"] 1 0 (fun _ => Samples.env0)
                         Samples.cb_ops) !! 0%nat
              = Some {| name := "Cy"; points := 0; completed := true |}).
  { vm_compute. reflexivity. }
  split; [exact H|].
  exact (completed_points_are_final Samples.fresh_board ["Cy"] 1 0
           (fun _ => Samples.env0) Samples.cb_ops _ 0%nat _ H eq_refl).
Defined.

End BlastMore.

(** ** More on the matching game: dealing, turning cards, the end of a level *)

Section MatchMore.
Import Py MemoryMatch.

Lemma mm_widget_call_alive st :
  Tk.widgets_alive (parent st) = true -> widget_call st = (st, Returned tt).
Proof. intros H. unfold widget_call, bind, get, ret. by rewrite H. Qed.

Lemma mm_widget_call_dead st :
  Tk.widgets_alive (parent st) = false -> widget_call st = (st, Raised TclError).
Proof. intros H. unfold widget_call, bind, get, raise. by rewrite H. Qed.

Lemma mm_foldl_cards (xs : list string) (st : MemoryMatchGame) :
  foldl (fun s x => set_cards (cards s ++ [ {| symbol := x; is_flipped := false;
                                               is_matched := false |} ]) s) st xs
  = set_cards (cards st ++ map (fun x => {| symbol := x; is_flipped := false;
                                            is_matched := false |}) xs) st.
Proof.
  revert st. induction xs as [|x xs IH]; intros st; simpl.
  - rewrite app_nil_r. by destruct st.
  - rewrite IH. simpl. by rewrite <- app_assoc.
Qed.

(** [start_level] on live widgets, in one step. *)
Lemma mm_start_level_eq deck st :
  Tk.widgets_alive (parent st) = true ->
  start_level deck st
  = (set_cards
       (map (fun x => {| symbol := x; is_flipped := false; is_matched := false |})
            (take (Z.to_nat (grid_size st) * Z.to_nat (grid_size st)) deck))
       (set_current_player 0%nat
          (set_players (map (fun p => set_streak 0 (set_matches 0 p)) (players st))
             (set_moves 0 (set_matched [] (set_flipped [] (set_cards [] st)))))),
     Returned tt).
Proof.
  intros Hw. unfold start_level, widget_call. run. rewrite Hw. simpl.
  change (fun sym s => (set_cards (cards s ++ [ {| symbol := sym; is_flipped := false;
                                                    is_matched := false |} ]) s,
                        Returned tt))
    with (fun sym s => ((fun sym s => set_cards
                           (cards s ++ [ {| symbol := sym; is_flipped := false;
                                            is_matched := false |} ]) s) sym s,
                        @Returned unit tt)).
  rewrite (for_each_modify
             (fun sym s => set_cards
                (cards s ++ [ {| symbol := sym; is_flipped := false;
                                 is_matched := false |} ]) s)).
  by rewrite mm_foldl_cards.
Qed.

Lemma start_level_state deck st :
  Tk.widgets_alive (parent st) = true ->
  let st' := state_of (start_level deck st) in
  let n := (Z.to_nat (grid_size st) * Z.to_nat (grid_size st))%nat in
  result_of (start_level deck st) = Returned tt
  /\ map symbol (cards st') = take n deck
  /\ length (cards st') = (n `min` length deck)%nat
  /\ Forall (fun c => is_flipped c = false /\ is_matched c = false) (cards st')
  /\ flipped st' = [] /\ matched st' = [] /\ moves st' = 0
  /\ current_player st' = 0%nat
  /\ map name (players st') = map name (players st)
  /\ map score (players st') = map score (players st)
  /\ Forall (fun p => matches p = 0 /\ streak p = 0) (players st')
  /\ current_level st' = current_level st
  /\ scoreboard st' = scoreboard st.
Proof.
  intros Hw st' n. subst st' n. rewrite (mm_start_level_eq deck st Hw). simpl.
  split; [done|]. split.
  { rewrite map_map. simpl. apply map_id. }
  split; [by rewrite length_map, length_take|].
  split.
  { apply Forall_forall. intros c Hc. apply list_elem_of_fmap in Hc as (x & -> & _). done. }
  do 4 (split; [done|]).
  split; [by rewrite map_map|]. split; [by rewrite map_map|].
  split; [|done].
  apply Forall_forall. intros p Hp. apply list_elem_of_fmap in Hp as (x & -> & _). done.
Qed.

(** X18. [start_level], which also serves the restart button, deals the
    first [grid_size * grid_size] symbols of the shuffled deck, or all of
    them when there are fewer, as cards lying face down and unmatched; it
    empties the turned-up and matched lists, sets the moves to 0 and gives
    the turn to the first player; every player keeps name and score while
    matches and streak go back to 0. *)
Theorem start_level_deals deck st :
  Tk.widgets_alive (parent st) = true ->
  let st' := state_of (start_level deck st) in
  let n := (Z.to_nat (grid_size st) * Z.to_nat (grid_size st))%nat in
  result_of (start_level deck st) = Returned tt
  /\ map symbol (cards st') = take n deck
  /\ length (cards st') = (n `min` length deck)%nat
  /\ Forall (fun c => is_flipped c = false /\ is_matched c = false) (cards st')
  /\ flipped st' = [] /\ matched st' = [] /\ moves st' = 0
  /\ current_player st' = 0%nat
  /\ map name (players st') = map name (players st)
  /\ map score (players st') = map score (players st)
  /\ Forall (fun p => matches p = 0 /\ streak p = 0) (players st')
  /\ current_level st' = current_level st
  /\ scoreboard st' = scoreboard st.
Proof. apply start_level_state. Qed.

Lemma start_level_deals_witness :
  Tk.widgets_alive (parent Samples.mm2_three_in_a_row) = true
  /\ map score (players Samples.mm2_three_in_a_row) = [80; 0]
  /\ map score (players (state_of (start_level Samples.deck16 Samples.mm2_three_in_a_row)))
     = map score (players Samples.mm2_three_in_a_row)
  /\ length (cards (state_of (start_level Samples.deck16 Samples.mm2_three_in_a_row)))
     = ((Z.to_nat (grid_size Samples.mm2_three_in_a_row)
         * Z.to_nat (grid_size Samples.mm2_three_in_a_row)) `min` length Samples.deck16)%nat.
Proof.
  assert (H : Tk.widgets_alive (parent Samples.mm2_three_in_a_row) = true) by reflexivity.
  split; [exact H|]. split; [reflexivity|].
  destruct (start_level_deals Samples.deck16 Samples.mm2_three_in_a_row H)
    as (_ & _ & Hlen & _ & _ & _ & _ & _ & _ & Hsc & _).
  split; [exact Hsc | exact Hlen].
Defined.

(** [flip_card] on a card that may be turned, in one step. *)
Lemma mm_flip_card_eq idx st c :
  cards st !! idx = Some c ->
  is_flipped c = false ->
  is_matched c = false ->
  (length (flipped st) < 2)%nat ->
  Tk.widgets_alive (parent st) = true ->
  flip_card idx st
  = (let st1 := set_flipped (flipped st ++ [idx])
                  (set_cards (<[idx := set_is_flipped true c]> (cards st)) st) in
     if (length (flipped st) =? 1)%nat
     then set_check_id (Some (Tk.next_id (parent st)))
            (set_parent (fst (Tk.after 600 CbCheckMatch (parent st)))
               (set_moves (moves st + 1) st1))
     else st1, Returned tt).
Proof.
  intros Hc Hf Hm Hlen Hw.
  pose proof (lookup_lt_Some _ _ _ Hc) as Hlt.
  assert (Hidx : (length (cards st) <=? idx)%nat = false) by (apply Nat.leb_gt; lia).
  assert (Htwo : (2 <=? length (flipped st))%nat = false) by (apply Nat.leb_gt; lia).
  unfold flip_card, widget_call, update_card, after. run.
  rewrite Hidx. simpl. rewrite Hc. simpl. rewrite Hf, Hm, Htwo. simpl.
  rewrite Hw. simpl. rewrite length_app. simpl.
  rewrite (alter_as_insert _ _ _ _ Hc).
  destruct (length (flipped st)) as [|[|k]] eqn:E; simpl.
  - done.
  - rewrite mm_update_stats. simpl. by rewrite Hw.
  - lia.
Qed.

(** X19. [flip_card] does nothing at all for an index past the last card,
    for a card that lies face up or is matched, and while two cards are
    turned up; otherwise, on live widgets, it turns the card face up and
    appends its index to the turned-up list, and when that makes two it
    counts one move and schedules [check_match] 600 ms ahead.  The
    turned-up list never grows past two entries. *)
Theorem flip_card_guards idx st :
  ((length (cards st) <= idx)%nat
   \/ (exists c, cards st !! idx = Some c /\ (is_flipped c = true \/ is_matched c = true))
   \/ (2 <= length (flipped st))%nat ->
   flip_card idx st = (st, Returned tt))
  /\ (forall c,
        cards st !! idx = Some c -> is_flipped c = false -> is_matched c = false ->
        (length (flipped st) < 2)%nat -> Tk.widgets_alive (parent st) = true ->
        let st' := state_of (flip_card idx st) in
        result_of (flip_card idx st) = Returned tt
        /\ cards st' = <[idx := set_is_flipped true c]> (cards st)
        /\ flipped st' = flipped st ++ [idx]
        /\ players st' = players st
        /\ current_player st' = current_player st
        /\ matched st' = matched st
        /\ (length (flipped st) = 0%nat ->
            moves st' = moves st /\ parent st' = parent st)
        /\ (length (flipped st) = 1%nat ->
            moves st' = moves st + 1
            /\ check_id st' = Some (Tk.next_id (parent st))
            /\ Tk.scheduled (parent st')
               = Tk.scheduled (parent st)
                 ++ [(Tk.next_id (parent st), (600, CbCheckMatch))]))
  /\ ((length (flipped st) <= 2)%nat ->
      (length (flipped (state_of (flip_card idx st))) <= 2)%nat).
Proof.
  assert (Hguard :
    (length (cards st) <= idx)%nat
    \/ (exists c, cards st !! idx = Some c /\ (is_flipped c = true \/ is_matched c = true))
    \/ (2 <= length (flipped st))%nat ->
    flip_card idx st = (st, Returned tt)).
  { intros H. unfold flip_card. run.
    destruct (length (cards st) <=? idx)%nat eqn:E; [done|]. apply Nat.leb_gt in E.
    destruct H as [H|[(c & Hc & H)|H]]; [lia| |].
    - rewrite Hc. simpl. destruct H as [-> | ->]; simpl; [done|]. by rewrite orb_true_r.
    - destruct (lookup_lt_is_Some_2 (cards st) idx E) as [c Hc]. rewrite Hc. simpl.
      destruct (flipped st) as [|a [|b l]]; simpl in H; try lia.
      simpl. by rewrite !orb_true_r. }
  split; [exact Hguard|]. split.
  - intros c Hc Hf Hm Hlen Hw st'. subst st'.
    rewrite (mm_flip_card_eq idx st c Hc Hf Hm Hlen Hw). simpl.
    destruct (length (flipped st)) as [|[|k]] eqn:E; simpl;
      repeat split; try done; lia.
  - intros Hle.
    destruct (decide (length (cards st) <= idx)%nat) as [Hout|Hin].
    { rewrite Hguard; [done | by left]. }
    destruct (lookup_lt_is_Some_2 (cards st) idx) as [c Hc]; [lia|].
    destruct (is_flipped c) eqn:Hf.
    { rewrite Hguard; [done|]. right. left. exists c. auto. }
    destruct (is_matched c) eqn:Hm.
    { rewrite Hguard; [done|]. right. left. exists c. auto. }
    destruct (decide (2 <= length (flipped st))%nat) as [Htwo|Hlt].
    { rewrite Hguard; [done|]. by right; right. }
    destruct (Tk.widgets_alive (parent st)) eqn:Hw.
    + rewrite (mm_flip_card_eq idx st c Hc Hf Hm); [|lia|done]. simpl.
      destruct (length (flipped st) =? 1)%nat; simpl; rewrite length_app; simpl; lia.
    + assert (Hidx : (length (cards st) <=? idx)%nat = false) by (apply Nat.leb_gt; lia).
      unfold flip_card, widget_call. run. rewrite Hidx. simpl. rewrite Hc. simpl.
      rewrite Hf, Hm. simpl.
      destruct (flipped st) as [|a [|b l]] eqn:Ef; simpl in *; try lia;
        rewrite Hw; simpl; rewrite Ef; simpl; lia.
Qed.

Lemma flip_card_guards_witness :
  (2 <= length (flipped Samples.mm_dog_and_cat_up))%nat
  /\ flip_card 5 Samples.mm_dog_and_cat_up = (Samples.mm_dog_and_cat_up, Returned tt)
  /\ flipped (state_of (flip_card 0 Samples.mm_started))
     = flipped Samples.mm_started ++ [0%nat].
Proof.
  assert (H : (2 <= length (flipped Samples.mm_dog_and_cat_up))%nat)
    by (vm_compute; lia).
  split; [exact H|]. split.
  - exact (proj1 (flip_card_guards 5 Samples.mm_dog_and_cat_up)
             (or_intror (or_intror H))).
  - assert (Hc : cards Samples.mm_started !! 0%nat
                 = Some {| symbol := "🐶"; is_flipped := false; is_matched := false |})
      by reflexivity.
    assert (Hlen : (length (flipped Samples.mm_started) < 2)%nat) by (vm_compute; lia).
    assert (Hw : Tk.widgets_alive (parent Samples.mm_started) = true) by reflexivity.
    destruct (proj1 (proj2 (flip_card_guards 0 Samples.mm_started)) _ Hc eq_refl eq_refl
                Hlen Hw) as (_ & _ & Hfl & _).
    exact Hfl.
Defined.

(** [check_match] on two turned-up cards with different symbols, in one
    step. *)
Lemma mm_check_match_miss_eq st idx1 idx2 c1 c2 p :
  flipped st = [idx1; idx2] ->
  cards st !! idx1 = Some c1 ->
  cards st !! idx2 = Some c2 ->
  symbol c1 <> symbol c2 ->
  Tk.widgets_alive (parent st) = true ->
  players st !! current_player st = Some p ->
  check_match st
  = (set_flipped []
       (set_parent (fst (Tk.after 400 (CbFlipBack idx1 idx2) (parent st)))
          (set_current_player
             (if (1 <? num_players st)%nat
              then ((current_player st + 1) `mod` num_players st)%nat
              else current_player st)
             (set_players (<[current_player st := set_streak 0 p]> (players st)) st))),
     Returned tt).
Proof.
  intros Hfl H1 H2 Hsym Hw Hp.
  apply String.eqb_neq in Hsym.
  unfold check_match, widget_call, update_player, after. run.
  rewrite Hfl. simpl. rewrite H1. simpl. rewrite H2. simpl. rewrite Hsym. simpl.
  rewrite Hw. simpl. rewrite Hp. simpl.
  rewrite (alter_as_insert _ _ _ _ Hp).
  destruct (1 <? num_players st)%nat; simpl.
  - rewrite mm_update_player_display. simpl. by rewrite Hw.
  - rewrite Hw. by destruct st.
Qed.

Lemma mm_flip_back_eq idx1 idx2 st :
  Tk.widgets_alive (parent st) = true ->
  (idx1 < length (cards st))%nat ->
  (idx2 < length (cards st))%nat ->
  flip_back idx1 idx2 st
  = (set_cards (alter (set_is_flipped false) idx2
                  (alter (set_is_flipped false) idx1 (cards st))) st,
     Returned tt).
Proof.
  intros Hw H1 H2. apply Nat.ltb_lt in H1, H2.
  unfold flip_back, widget_call, update_card. run.
  rewrite H1. simpl. rewrite Hw. simpl. rewrite length_alter, H2. simpl.
  by rewrite Hw.
Qed.

Lemma mm_cards_back (l : list CardData) i1 i2 c1 c2 :
  i1 <> i2 ->
  l !! i1 = Some c1 -> l !! i2 = Some c2 ->
  is_flipped c1 = false -> is_flipped c2 = false ->
  alter (set_is_flipped false) i2
    (alter (set_is_flipped false) i1
       (<[i2 := set_is_flipped true c2]> (<[i1 := set_is_flipped true c1]> l))) = l.
Proof.
  intros Hne H1 H2 Hf1 Hf2.
  pose proof (lookup_lt_Some _ _ _ H1) as Hl1.
  pose proof (lookup_lt_Some _ _ _ H2) as Hl2.
  apply list_eq. intros i.
  destruct (decide (i = i2)) as [->|Hn2].
  - rewrite list_lookup_alter_eq, list_lookup_alter_ne by done.
    rewrite list_lookup_insert_eq by (by rewrite length_insert).
    rewrite H2. destruct c2. simpl in *. by subst.
  - rewrite list_lookup_alter_ne by done.
    destruct (decide (i = i1)) as [->|Hn1].
    + rewrite list_lookup_alter_eq, list_lookup_insert_ne by done.
      rewrite list_lookup_insert_eq by done.
      rewrite H1. destruct c1. simpl in *. by subst.
    + by rewrite list_lookup_alter_ne, !list_lookup_insert_ne by done.
Qed.

(** X20. A miss costs nothing but the streak and the turn.  On live
    widgets, with no card turned up: turning up two different face-down
    cards whose symbols differ, letting [check_match] run and then the
    [flip_back] it scheduled, leaves every card exactly as it was and the
    matched list unchanged, counts one move, sets the current player's
    streak to 0 without touching any score, and passes the turn to the next
    player, round the table, when more than one plays. *)
Theorem mismatch_round_trip idx1 idx2 st c1 c2 p :
  flipped st = [] ->
  idx1 <> idx2 ->
  cards st !! idx1 = Some c1 ->
  cards st !! idx2 = Some c2 ->
  is_flipped c1 = false -> is_matched c1 = false ->
  is_flipped c2 = false -> is_matched c2 = false ->
  symbol c1 <> symbol c2 ->
  Tk.widgets_alive (parent st) = true ->
  players st !! current_player st = Some p ->
  let st' := run_all [flip_card idx1; flip_card idx2; check_match; flip_back idx1 idx2] st in
  cards st' = cards st
  /\ flipped st' = []
  /\ matched st' = matched st
  /\ moves st' = moves st + 1
  /\ players st' = <[current_player st := set_streak 0 p]> (players st)
  /\ current_player st'
     = (if (1 <? num_players st)%nat
        then ((current_player st + 1) `mod` num_players st)%nat
        else current_player st).
Proof.
  intros Hfl Hne H1 H2 Hf1 Hm1 Hf2 Hm2 Hsym Hw Hp st'. subst st'.
  pose proof (lookup_lt_Some _ _ _ H1) as Hl1.
  pose proof (lookup_lt_Some _ _ _ H2) as Hl2.
  unfold run_all. simpl.
  rewrite (mm_flip_card_eq idx1 st c1 H1 Hf1 Hm1) by (rewrite ?Hfl; simpl; done || lia).
  rewrite Hfl. simpl.
  rewrite (mm_flip_card_eq idx2 _ c2); simpl;
    [| by rewrite list_lookup_insert_ne | done | done | lia | done].
  rewrite (mm_check_match_miss_eq _ idx1 idx2 (set_is_flipped true c1)
             (set_is_flipped true c2) p); simpl;
    [| done
     | rewrite list_lookup_insert_ne by done; by apply list_lookup_insert_eq
     | apply list_lookup_insert_eq; by rewrite length_insert
     | done | done | done].
  rewrite mm_flip_back_eq; simpl; [| done | by rewrite !length_insert ..].
  by rewrite (mm_cards_back _ _ _ _ _ Hne H1 H2 Hf1 Hf2).
Qed.

Lemma mismatch_round_trip_witness :
  flipped Samples.mm_started = []
  /\ Tk.widgets_alive (parent Samples.mm_started) = true
  /\ cards Samples.mm_ann_missed = cards Samples.mm_started
  /\ map streak (players Samples.mm_ann_missed) = [0; 0]
  /\ current_player Samples.mm_started = 0%nat
  /\ current_player Samples.mm_ann_missed = 1%nat.
Proof.
  assert (H0 : flipped Samples.mm_started = []) by reflexivity.
  assert (Hne : 0%nat <> 2%nat) by discriminate.
  assert (H1 : cards Samples.mm_started !! 0%nat
               = Some {| symbol := "🐶"; is_flipped := false; is_matched := false |})
    by reflexivity.
  assert (H2 : cards Samples.mm_started !! 2%nat
               = Some {| symbol := "🐱"; is_flipped := false; is_matched := false |})
    by reflexivity.
  assert (Hsym : symbol {| symbol := "🐶"; is_flipped := false; is_matched := false |}
                 <> symbol {| symbol := "🐱"; is_flipped := false; is_matched := false |})
    by discriminate.
  assert (Hw : Tk.widgets_alive (parent Samples.mm_started) = true) by reflexivity.
  assert (Hp : players Samples.mm_started !! current_player Samples.mm_started
               = Some {| name := "Ann"; score := 0; matches := 0; streak := 0 |})
    by reflexivity.
  destruct (mismatch_round_trip 0 2 Samples.mm_started _ _ _ H0 Hne H1 H2
              eq_refl eq_refl eq_refl eq_refl Hsym Hw Hp) as (Hc & _ & _ & _ & Hpl & Hcp).
  split; [exact H0|]. split; [exact Hw|]. split; [exact Hc|].
  split; [reflexivity|]. split; [reflexivity | reflexivity].
Defined.

Lemma mm_LEVELS_cases lv cfg :
  LEVELS lv = Some cfg -> lv = 1 \/ lv = 2 \/ lv = 3 \/ lv = 4 \/ lv = 5.
Proof.
  unfold LEVELS. intros H.
  repeat match type of H with
         | context [match ?x with _ => _ end] => destruct x; try discriminate
         end; auto 10.
Qed.

(** X21. [level_complete] adds the level's bonus to every player who
    found at least one pair and to no other.  When the players stop, or the
    level was the last, it sends one result per player to the leaderboard,
    with the bonus included and under the level just played, and leaves the
    level as it is.  When they go on, nothing is sent: the level goes up by
    one, grid and pair count follow the new level, the scores, bonus
    included, are carried over while matches and streaks go back to 0, and
    the new cards are dealt from the new deck. *)
Theorem level_complete_bonus continue deck env st cfg :
  LEVELS (current_level st) = Some cfg ->
  Tk.widgets_alive (parent st) = true ->
  let awarded :=
    map (fun p => if 0 <? matches p then set_score (score p + bonus cfg) p else p)
        (players st) in
  let st' := state_of (level_complete continue deck env st) in
  result_of (level_complete continue deck env st) = Returned tt
  /\ (continue = false \/ LEVELS_len <= current_level st ->
      players st' = awarded
      /\ current_level st' = current_level st
      /\ cards st' = cards st
      /\ scoreboard st'
         = Scoreboard.run_calls
             (entries_for_all env (current_level st) (enumerate awarded))
             (scoreboard st))
  /\ (continue = true -> current_level st < LEVELS_len ->
      exists next,
        LEVELS (current_level st + 1) = Some next
        /\ current_level st' = current_level st + 1
        /\ grid_size st' = grid next
        /\ total_pairs st' = pairs next
        /\ map name (players st') = map name (players st)
        /\ map score (players st') = map score awarded
        /\ Forall (fun p => matches p = 0 /\ streak p = 0) (players st')
        /\ map symbol (cards st')
           = take (Z.to_nat (grid next) * Z.to_nat (grid next)) deck
        /\ scoreboard st' = scoreboard st).
Proof.
  intros Hcfg Hw awarded st'. subst st'.
  set (st1 := set_players awarded st).
  assert (Hstop : (current_level st <? LEVELS_len) = false \/ continue = false ->
                  level_complete continue deck env st = save_results env st1).
  { intros H. unfold level_complete. run. rewrite Hcfg. simpl.
    rewrite mm_update_player_display. simpl.
    destruct H as [-> | ->]; [done|]. by destruct (current_level st <? LEVELS_len). }
  assert (Hgo : (current_level st <? LEVELS_len) = true -> continue = true ->
                exists next,
                  LEVELS (current_level st + 1) = Some next
                  /\ level_complete continue deck env st
                     = start_level deck
                         (set_total_pairs (pairs next)
                            (set_grid_size (grid next)
                               (set_current_level (current_level st + 1) st1)))).
  { intros Hlt ->. apply Z.ltb_lt in Hlt. unfold LEVELS_len in Hlt.
    assert (Hnext : exists next, LEVELS (current_level st + 1) = Some next).
    { destruct (mm_LEVELS_cases _ _ Hcfg) as [E | [E | [E | [E | E]]]];
        rewrite E in Hlt |- *; try (eexists; reflexivity); lia. }
    destruct Hnext as [next Hnext]. exists next. split; [exact Hnext|].
    apply Z.ltb_lt in Hlt.
    unfold level_complete. run. rewrite Hcfg. simpl.
    rewrite mm_update_player_display. simpl.
    change (current_level st <? LEVELS_len) with (current_level st <? 5).
    rewrite Hlt. simpl. by rewrite Hnext. }
  destruct (current_level st <? LEVELS_len) eqn:Hlt; [destruct continue|].
  - destruct (Hgo eq_refl eq_refl) as (next & Hnext & ->).
    set (st2 := set_total_pairs (pairs next)
                  (set_grid_size (grid next)
                     (set_current_level (current_level st + 1) st1))).
    assert (Hw2 : Tk.widgets_alive (parent st2) = true) by exact Hw.
    destruct (start_level_state deck st2 Hw2)
      as (Hr & Hsym & _ & _ & _ & _ & _ & _ & Hnm & Hsc & Hzero & Hlv & Hsb).
    split; [exact Hr|]. split.
    { intros [?| Hlast]; [done|]. apply Z.ltb_lt in Hlt. unfold LEVELS_len in *. lia. }
    intros _ _. exists next.
    split; [exact Hnext|]. split; [exact Hlv|].
    split; [by rewrite (mm_start_level_eq deck st2 Hw2)|].
    split; [by rewrite (mm_start_level_eq deck st2 Hw2)|].
    split.
    { rewrite Hnm. subst st2 st1 awarded. simpl. rewrite map_map. apply map_ext.
      intros q. by destruct (0 <? matches q). }
    split; [exact Hsc|]. split; [exact Hzero|]. split; [exact Hsym | exact Hsb].
  - rewrite (Hstop (or_intror eq_refl)), mm_save_results_eq. simpl.
    split; [done|]. split; [done|]. intros Hc. discriminate Hc.
  - rewrite (Hstop (or_introl eq_refl)), mm_save_results_eq. simpl.
    split; [done|]. split; [done|]. intros _ Hc. apply Z.ltb_ge in Hlt. lia.
Qed.

Lemma level_complete_bonus_witness :
  LEVELS (current_level Samples.mm_ann_clears_board)
  = Some {| grid := 4; pairs := 8; bonus := 100 |}
  /\ Tk.widgets_alive (parent Samples.mm_ann_clears_board) = true
  /\ map matches (players Samples.mm_ann_clears_board) = [8; 0]
  /\ map score (players Samples.mm_ann_clears_board) = [170; 0]
  /\ map score
       (players (state_of (level_complete false [] (fun _ => Samples.env0)
                             Samples.mm_ann_clears_board)))
     = [270; 0].
Proof.
  assert (H1 : LEVELS (current_level Samples.mm_ann_clears_board)
               = Some {| grid := 4; pairs := 8; bonus := 100 |}) by reflexivity.
  assert (H2 : Tk.widgets_alive (parent Samples.mm_ann_clears_board) = true)
    by reflexivity.
  split; [exact H1|]. split; [exact H2|]. split; [reflexivity|]. split; [reflexivity|].
  destruct (level_complete_bonus false [] (fun _ => Samples.env0)
              Samples.mm_ann_clears_board _ H1 H2) as (_ & Hstop & _).
  destruct (Hstop (or_introl eq_refl)) as (Hpl & _).
  rewrite Hpl. reflexivity.
Defined.

(** X22. A found pair stays with the finder.  [check_match] on two
    turned-up cards with the same symbol, on live widgets, marks both cards
    matched, appends both indices to the matched list, empties the turned-up
    list and leaves the turn where it is; it schedules [level_complete],
    500 ms ahead, exactly when the matched list has come to cover all
    cards, and nothing otherwise. *)
Theorem check_match_pair st idx1 idx2 c1 c2 p :
  flipped st = [idx1; idx2] ->
  cards st !! idx1 = Some c1 ->
  cards st !! idx2 = Some c2 ->
  symbol c1 = symbol c2 ->
  Tk.widgets_alive (parent st) = true ->
  players st !! current_player st = Some p ->
  let st' := state_of (check_match st) in
  cards st'
  = alter (set_is_matched true) idx2 (alter (set_is_matched true) idx1 (cards st))
  /\ matched st' = matched st ++ [idx1; idx2]
  /\ flipped st' = []
  /\ current_player st' = current_player st
  /\ moves st' = moves st
  /\ Tk.scheduled (parent st')
     = Tk.scheduled (parent st)
       ++ (if (length (cards st) <=? length (matched st) + 2)%nat
           then [(Tk.next_id (parent st), (500, CbLevelComplete))] else []).
Proof.
  intros Hfl H1 H2 Hsym Hw Hp st'. subst st'.
  apply String.eqb_eq in Hsym.
  unfold check_match, widget_call, update_card, update_player, after. run.
  rewrite Hfl. simpl. rewrite H1. simpl. rewrite H2. simpl. rewrite Hsym. simpl.
  rewrite Hw. simpl. rewrite Hp. simpl.
  rewrite mm_update_player_display. simpl. rewrite mm_update_stats. simpl.
  rewrite !length_alter, length_app. simpl.
  destruct (length (cards st) <=? length (matched st) + 2)%nat; simpl;
    by rewrite ?app_nil_r.
Qed.

Lemma check_match_pair_witness :
  flipped Samples.mm2_hamsters_up = [6; 7]%nat
  /\ Tk.widgets_alive (parent Samples.mm2_hamsters_up) = true
  /\ matched Samples.mm2_hamsters_up = [0; 1; 2; 4; 3; 5]%nat
  /\ matched (state_of (check_match Samples.mm2_hamsters_up))
     = matched Samples.mm2_hamsters_up ++ [6; 7]%nat
  /\ current_player (state_of (check_match Samples.mm2_hamsters_up))
     = current_player Samples.mm2_hamsters_up.
Proof.
  assert (H0 : flipped Samples.mm2_hamsters_up = [6; 7]%nat) by reflexivity.
  assert (H1 : cards Samples.mm2_hamsters_up !! 6%nat
               = Some {| symbol := "🐹"; is_flipped := true; is_matched := false |})
    by reflexivity.
  assert (H2 : cards Samples.mm2_hamsters_up !! 7%nat
               = Some {| symbol := "🐹"; is_flipped := true; is_matched := false |})
    by reflexivity.
  assert (Hw : Tk.widgets_alive (parent Samples.mm2_hamsters_up) = true) by reflexivity.
  assert (Hp : players Samples.mm2_hamsters_up !! current_player Samples.mm2_hamsters_up
               = Some {| name := "Ann"; score := 80; matches := 3; streak := 3 |})
    by reflexivity.
  destruct (check_match_pair Samples.mm2_hamsters_up 6 7 _ _ _ H0 H1 H2 eq_refl Hw Hp)
    as (_ & Hm & _ & Hcp & _).
  split; [exact H0|]. split; [exact Hw|]. split; [reflexivity|].
  split; [exact Hm | exact Hcp].
Defined.

End MatchMore.

(** ** Callbacks that come due after the player has left *)

Section StaleCallbacks.
Import Py.

Lemma mm_level_complete_stop deck env st cfg :
  MemoryMatch.LEVELS (MemoryMatch.current_level st) = Some cfg ->
  let awarded :=
    map (fun p => if 0 <? MemoryMatch.matches p
                  then MemoryMatch.set_score (MemoryMatch.score p + MemoryMatch.bonus cfg) p
                  else p)
        (MemoryMatch.players st) in
  MemoryMatch.level_complete false deck env st
  = (MemoryMatch.set_scoreboard
       (Scoreboard.run_calls
          (MemoryMatch.entries_for_all env (MemoryMatch.current_level st)
             (enumerate awarded))
          (MemoryMatch.scoreboard st))
       (MemoryMatch.set_players awarded st), Returned tt).
Proof.
  intros Hcfg awarded.
  assert (Heq : MemoryMatch.level_complete false deck env st
                = MemoryMatch.save_results env (MemoryMatch.set_players awarded st)).
  { unfold MemoryMatch.level_complete. run. rewrite Hcfg. simpl.
    rewrite mm_update_player_display. simpl.
    by destruct (MemoryMatch.current_level st <? MemoryMatch.LEVELS_len). }
  rewrite Heq. exact (mm_save_results_eq env (MemoryMatch.set_players awarded st)).
Qed.

(** C9. The claim holds of the callbacks that look at the live flag:
    [update_timer] in the ordered-click game and both callbacks of the
    discrimination game change nothing and raise nothing while
    [game_active] is false.  It fails for the callbacks that teardown
    neither cancels nor guards.  On destroyed widgets the colour-restoring
    callback of the ordered-click game raises [TclError], [flip_back]
    turns the first card face down and then raises [TclError], and
    [level_complete], whatever has become of the widgets, adds the bonus
    and, when the players stop, writes every player to the leaderboard.
    Each of the three is still scheduled after [back_to_menu] in the
    sessions below, and does so when it comes due. *)
Theorem stale_callbacks_after_teardown :
  (forall st,
      NumberRush.game_active st = false ->
      NumberRush.run_callback NumberRush.CbUpdateTimer st = (st, Returned tt))
  /\ (forall st pick env cb,
      ColorBlast.game_active st = false ->
      ColorBlast.run_callback pick env cb st = (st, Returned tt))
  /\ (forall st num,
      Tk.widgets_alive (NumberRush.parent st) = false ->
      NumberRush.run_callback (NumberRush.CbRestoreColour num) st
      = (st, Raised TclError))
  /\ (forall st continue deck env idx1 idx2 c,
      Tk.widgets_alive (MemoryMatch.parent st) = false ->
      MemoryMatch.cards st !! idx1 = Some c ->
      MemoryMatch.run_callback continue deck env (MemoryMatch.CbFlipBack idx1 idx2) st
      = (MemoryMatch.set_cards
           (<[idx1 := MemoryMatch.set_is_flipped false c]> (MemoryMatch.cards st)) st,
         Raised TclError))
  /\ (forall st deck env cfg,
      MemoryMatch.LEVELS (MemoryMatch.current_level st) = Some cfg ->
      let awarded :=
        map (fun p => if 0 <? MemoryMatch.matches p
                      then MemoryMatch.set_score
                             (MemoryMatch.score p + MemoryMatch.bonus cfg) p
                      else p)
            (MemoryMatch.players st) in
      MemoryMatch.run_callback false deck env MemoryMatch.CbLevelComplete st
      = (MemoryMatch.set_scoreboard
           (Scoreboard.run_calls
              (MemoryMatch.entries_for_all env (MemoryMatch.current_level st)
                 (enumerate awarded))
              (MemoryMatch.scoreboard st))
           (MemoryMatch.set_players awarded st), Returned tt))
  /\ (NumberRush.game_active Samples.nr_left_in_flash = false
      /\ Tk.widgets_alive (NumberRush.parent Samples.nr_left_in_flash) = false
      /\ Tk.scheduled (NumberRush.parent Samples.nr_left_in_flash)
         = [(1%nat, (200, NumberRush.CbRestoreColour 7))]
      /\ result_of (NumberRush.fire 1 Samples.nr_left_in_flash) = Raised TclError)
  /\ (Tk.widgets_alive (MemoryMatch.parent Samples.mm_left_after_miss) = false
      /\ Tk.scheduled (MemoryMatch.parent Samples.mm_left_after_miss)
         = [(1%nat, (400, MemoryMatch.CbFlipBack 0 2))]
      /\ map MemoryMatch.is_flipped (take 3 (MemoryMatch.cards Samples.mm_left_after_miss))
         = [true; false; true]
      /\ map MemoryMatch.is_flipped
           (take 3 (MemoryMatch.cards
                      (state_of (Samples.mm_fire 1 Samples.mm_left_after_miss))))
         = [false; false; true]
      /\ result_of (Samples.mm_fire 1 Samples.mm_left_after_miss) = Raised TclError)
  /\ (Tk.widgets_alive (MemoryMatch.parent Samples.mm_left_after_last_pair) = false
      /\ Tk.scheduled (MemoryMatch.parent Samples.mm_left_after_last_pair)
         = [(8%nat, (500, MemoryMatch.CbLevelComplete))]
      /\ map MemoryMatch.score (MemoryMatch.players Samples.mm_left_after_last_pair)
         = [170; 0]
      /\ Scoreboard.scores (MemoryMatch.scoreboard Samples.mm_left_after_last_pair)
           !! "Memory Match" = Some []
      /\ map MemoryMatch.score
           (MemoryMatch.players
              (state_of (Samples.mm_fire 8 Samples.mm_left_after_last_pair)))
         = [270; 0]
      /\ map (fun e => (Scoreboard.name e, Scoreboard.score e))
           (default []
              (Scoreboard.scores
                 (MemoryMatch.scoreboard
                    (state_of (Samples.mm_fire 8 Samples.mm_left_after_last_pair)))
                 !! "Memory Match"))
         = [("Ann", 270); ("Bob", 0)]).
Proof.
  split; [|split; [|split; [|split; [|split; [|split; [|split]]]]]].
  - intros st H. simpl. unfold NumberRush.update_timer. run. by rewrite H.
  - intros st pick env cb H. destruct cb; simpl.
    + unfold ColorBlast.countdown. run. by rewrite H.
    + unfold ColorBlast.new_question. run. by rewrite H.
  - intros st num H. simpl.
    unfold NumberRush.restore_colour, NumberRush.widget_call. run. by rewrite H.
  - intros st continue deck env idx1 idx2 c Hw Hc. simpl.
    pose proof (lookup_lt_Some _ _ _ Hc) as Hlt. apply Nat.ltb_lt in Hlt.
    unfold MemoryMatch.flip_back, MemoryMatch.update_card, MemoryMatch.widget_call. run.
    rewrite Hlt. simpl. rewrite Hw. simpl.
    by rewrite (alter_as_insert _ _ _ _ Hc).
  - intros st deck env cfg Hcfg awarded. simpl.
    by apply mm_level_complete_stop.
  - by vm_compute.
  - by vm_compute.
  - by vm_compute.
Qed.

End StaleCallbacks.

(** ** Streaks over a whole game *)

Section MatchStreak.
Import Py MemoryMatch.

Local Abbreviation pv :=
  (fun st : MemoryMatchGame => (players st, Tk.widgets_alive (parent st))).
Local Abbreviation alive :=
  (fun st : MemoryMatchGame => Tk.widgets_alive (parent st)).
Local Abbreviation streaks_follow st log :=
  (forall k p, players st !! k = Some p -> streak p = matches_in_a_row_in_level k log).

Lemma mm_pv_after ms cb : keeps pv (after ms cb).
Proof. by intros s. Qed.

Lemma mm_pv_widget_call : keeps pv widget_call.
Proof. unfold widget_call. keeps_tac. Qed.

Lemma mm_pv_update_stats : keeps pv update_stats.
Proof. intros s. by rewrite mm_update_stats. Qed.

Lemma mm_pv_update_player_display : keeps pv update_player_display.
Proof. intros s. by rewrite mm_update_player_display. Qed.

Lemma mm_pv_update_card k f : keeps pv (update_card k f).
Proof. unfold update_card. keeps_tac. Qed.

Lemma mm_pv_on_scoreboard {A} (m : M Scoreboard.ScoreboardManager A) :
  keeps pv (on_scoreboard m).
Proof. intros s. unfold on_scoreboard, state_of. by destruct (m (scoreboard s)). Qed.

Lemma mm_pv_flip_card idx : keeps pv (flip_card idx).
Proof.
  unfold flip_card, getitem. keeps_tac;
    auto using mm_pv_after, mm_pv_widget_call, mm_pv_update_stats, mm_pv_update_card.
Qed.

Lemma mm_pv_flip_back idx1 idx2 : keeps pv (flip_back idx1 idx2).
Proof.
  unfold flip_back. keeps_tac; auto using mm_pv_widget_call, mm_pv_update_card.
Qed.

Lemma mm_alive_of_pv {A} (m : Game A) : keeps pv m -> keeps alive m.
Proof. intros H s. exact (f_equal snd (H s)). Qed.

Lemma mm_alive_start_level deck : keeps alive (start_level deck).
Proof.
  unfold start_level. keeps_tac;
    auto using mm_alive_of_pv, mm_pv_widget_call, mm_pv_update_stats,
      mm_pv_update_player_display.
Qed.

Lemma mm_alive_check_match : keeps alive check_match.
Proof.
  unfold check_match, getitem, update_player. cbv zeta. keeps_tac;
    auto using mm_alive_of_pv, mm_pv_after, mm_pv_widget_call, mm_pv_update_stats,
      mm_pv_update_player_display, mm_pv_update_card.
Qed.

Lemma mm_alive_level_complete continue deck env :
  keeps alive (level_complete continue deck env).
Proof.
  unfold level_complete, save_results. keeps_tac;
    auto using mm_alive_of_pv, mm_pv_update_player_display, mm_pv_on_scoreboard,
      mm_alive_start_level.
Qed.

Lemma mm_alive_run_op o : keeps alive (run_op o).
Proof.
  destruct o; simpl;
    auto using mm_alive_of_pv, mm_pv_flip_card, mm_pv_flip_back, mm_alive_check_match,
      mm_alive_level_complete, mm_alive_start_level.
Qed.

(** [level_complete], in one step. *)
Lemma mm_level_complete_eq continue deck env st :
  level_complete continue deck env st
  = match LEVELS (current_level st) with
    | None => (st, Raised KeyError)
    | Some cfg =>
        let st1 :=
          set_players
            (map (fun p => if 0 <? matches p then set_score (score p + bonus cfg) p else p)
                 (players st)) st in
        if (current_level st <? LEVELS_len) && continue then
          match LEVELS (current_level st + 1) with
          | Some next =>
              start_level deck
                (set_total_pairs (pairs next)
                   (set_grid_size (grid next)
                      (set_current_level (current_level st + 1) st1)))
          | None => (set_current_level (current_level st + 1) st1, Raised KeyError)
          end
        else save_results env st1
    end.
Proof.
  unfold level_complete. run.
  destruct (LEVELS (current_level st)) as [cfg|]; simpl; [|done].
  rewrite mm_update_player_display. simpl.
  destruct (current_level st <? LEVELS_len); destruct continue; simpl; try done.
  by destruct (LEVELS (current_level st + 1)).
Qed.

Lemma mm_check_match_events st :
  events_of OpCheckMatch st = []
  \/ events_of OpCheckMatch st = [Matched (current_player st)]
  \/ events_of OpCheckMatch st = [Missed (current_player st)].
Proof.
  unfold events_of. repeat case_match; auto.
Qed.

(*DBG*)
End MatchStreak.
